(** * Randomized drum kit generator: a shallow embedding of drumkit_generator.py

    The script has two functions of substance, [get_audio_files] (recursive
    discovery filtered by extension) and [create_drum_kit] (sampling without
    replacement and numbered placement into a time-stamped directory), and the
    kit loop at the end of [main].  All three are embedded below as they are
    written, over explicit models of the Python library calls they make
    (str.lower, str.strip, os.path.splitext/join/basename, os.walk,
    os.makedirs, os.symlink, shutil.copy2, random.sample, datetime.now,
    strftime and time.sleep).

    Strings are [string]s of 8-bit characters: str.lower is the ASCII
    lower-casing, which is what Python does on ASCII text.  The wall clock
    is the list of its readings to come, and the generator the list of the
    numbers it gives next. *)

From Stdlib Require Import Bool Arith ZArith Lia List Ascii String Permutation.
Import ListNotations.

Set Warnings "-register-all".

Local Open Scope string_scope.
Local Open Scope list_scope.
Local Open Scope nat_scope.

(* ================================================================== *)
(** * Python string methods *)

Module Str.

(** [c.lower()] on one character. *)
Definition lower_char (c : ascii) : ascii :=
  let n := nat_of_ascii c in
  if (65 <=? n) && (n <=? 90) then ascii_of_nat (n + 32) else c.

(** [s.lower()]. *)
Fixpoint lower (s : string) : string :=
  match s with
  | EmptyString => EmptyString
  | String c s' => String (lower_char c) (lower s')
  end.

(** [s.lstrip(c)]. *)
Fixpoint lstrip (c : ascii) (s : string) : string :=
  match s with
  | EmptyString => EmptyString
  | String a s' => if (a =? c)%char then lstrip c s' else s
  end.

(** [s.rstrip(c)]. *)
Fixpoint rstrip (c : ascii) (s : string) : string :=
  match s with
  | EmptyString => EmptyString
  | String a s' =>
      match rstrip c s' with
      | EmptyString => if (a =? c)%char then EmptyString else String a EmptyString
      | r => String a r
      end
  end.

(** [s.strip(c)]: both ends. *)
Definition strip (c : ascii) (s : string) : string := rstrip c (lstrip c s).

(** [s.rfind(c)]: the index of the last occurrence of [c], or -1. *)
Fixpoint rfind_from (c : ascii) (s : string) (i : Z) : Z :=
  match s with
  | EmptyString => (-1)%Z
  | String a s' =>
      let r := rfind_from c s' (i + 1)%Z in
      if (0 <=? r)%Z then r else if (a =? c)%char then i else (-1)%Z
  end.

Definition rfind (c : ascii) (s : string) : Z := rfind_from c s 0%Z.

(** [s[:i]] and [s[i:]] for [0 <= i]. *)
Definition slice_to (i : nat) (s : string) : string := substring 0 i s.
Definition slice_from (i : nat) (s : string) : string :=
  substring i (String.length s - i) s.

(** [s.startswith(c)] and [s.endswith(c)] for a one-character [c]. *)
Definition startswith (c : ascii) (s : string) : bool :=
  match s with
  | String a _ => (a =? c)%char
  | EmptyString => false
  end.

Fixpoint endswith (c : ascii) (s : string) : bool :=
  match s with
  | EmptyString => false
  | String a EmptyString => (a =? c)%char
  | String _ s' => endswith c s'
  end.

(** [x in l] for a list of strings. *)
Definition mem (x : string) (l : list string) : bool :=
  existsb (String.eqb x) l.

(** No character of [s] is [c]. *)
Fixpoint lacks (c : ascii) (s : string) : bool :=
  match s with
  | EmptyString => true
  | String a s' => negb (a =? c)%char && lacks c s'
  end.

(** Every character of [s] is [c]. *)
Fixpoint all_char (c : ascii) (s : string) : bool :=
  match s with
  | EmptyString => true
  | String a s' => (a =? c)%char && all_char c s'
  end.

(** ** Decimal formatting *)

Definition digit_char (d : nat) : ascii := ascii_of_nat (48 + d).

Definition is_digit (c : ascii) : bool :=
  let n := nat_of_ascii c in (48 <=? n) && (n <=? 57).

Fixpoint digits (fuel n : nat) (acc : string) : string :=
  match fuel with
  | O => acc
  | S fuel' =>
      let acc' := String (digit_char (n mod 10)) acc in
      if n / 10 =? 0 then acc' else digits fuel' (n / 10) acc'
  end.

(** [str(n)] for a natural number. *)
Definition of_nat (n : nat) : string := digits (S n) n EmptyString.

Fixpoint replicate (k : nat) (c : ascii) : string :=
  match k with
  | O => EmptyString
  | S k' => String c (replicate k' c)
  end.

(** Right-justify [s] in a field of at least [width] characters. *)
Definition rjust (width : nat) (fill : ascii) (s : string) : string :=
  (replicate (width - String.length s) fill ++ s)%string.

(** [f"{n:02d}"], [f"{n:04d}"] and [f"{n:2d}"]. *)
Definition format_02d (n : nat) : string := rjust 2 "0" (of_nat n).
Definition format_04d (n : nat) : string := rjust 4 "0" (of_nat n).
Definition format_2d (n : nat) : string := rjust 2 " " (of_nat n).

(** [sep.join(l)]. *)
Definition join := String.concat.

End Str.

(* ================================================================== *)
(** * os.path (posixpath) *)

Module os_path.

(** [os.path.join(a, b)]. *)
Definition join (a b : string) : string :=
  if Str.startswith "/" b then b
  else if (a =? "")%string || Str.endswith "/" a then (a ++ b)%string
  else (a ++ "/" ++ b)%string.

(** [os.path.basename(p)]: what follows the last slash. *)
Definition basename (p : string) : string :=
  let i := (Str.rfind "/" p + 1)%Z in
  Str.slice_from (Z.to_nat i) p.

(** The scan of genericpath._splitext over the characters between the
    last separator and the last dot: [true] as soon as one of them is not
    a dot. *)
Fixpoint splitext_scan (p : string) (filenameIndex n : nat) : bool :=
  match n with
  | O => false
  | S n' =>
      match String.get filenameIndex p with
      | Some "."%char => splitext_scan p (S filenameIndex) n'
      | _ => true
      end
  end.

(** [os.path.splitext(p)]. *)
Definition splitext (p : string) : string * string :=
  let sepIndex := Str.rfind "/" p in
  let dotIndex := Str.rfind "." p in
  if (dotIndex >? sepIndex)%Z then
    let filenameIndex := Z.to_nat (sepIndex + 1) in
    if splitext_scan p filenameIndex (Z.to_nat dotIndex - filenameIndex)
    then (Str.slice_to (Z.to_nat dotIndex) p, Str.slice_from (Z.to_nat dotIndex) p)
    else (p, EmptyString)
  else (p, EmptyString).

End os_path.

(* ================================================================== *)
(** * The world the script runs in *)

(** ** The sample library, as os.walk sees it

    A directory is the list of its entries in the order scandir reports
    them.  An entry is either a non-directory (a regular file, a link to a
    file, a device: os.walk lists all of them under [files]) or a directory.
    The [stat] of a file is carried along although the script never reads it.
    A directory whose [walked] flag is [false] is one os.walk lists under
    [dirs] but does not enter: a symbolic link to a directory (followlinks
    is False) or a directory scandir fails on (onerror is None). *)

Record stat := mkStat { st_size : nat; st_mode : nat; st_data : string }.

Inductive node :=
| File (name : string) (st : stat)
| Dir (name : string) (walked : bool) (entries : list node).

(** ** The file system the kits are written to: a map from paths to inodes,
    the first binding of a path being the current one. *)

Inductive inode :=
| RegFile (data : string)
| Directory
| Symlink (target : string).

Definition filesystem := list (string * inode).

(** ** Exceptions (all of them subclasses of Exception) *)

Inductive exn :=
| FileExistsError (path : string)
| FileNotFoundError (path : string)
| IsADirectoryError (path : string)
| SameFileError (src dst : string)
| OSError (path : string)
| ValueError (msg : string).

(** ** Wall-clock readings: what datetime.now() returns *)

Record datetime := mkDatetime {
  year : nat; month : nat; day : nat;
  hour : nat; minute : nat; second : nat; microsecond : Z }.

(** ** The successful mutations of the file system, oldest first *)

Inductive event :=
| MadeDir (path : string)
| Copied (src dst : string)
| Linked (src dst : string).

Record world := mkWorld {
  trees : list (string * list node);  (* the directories os.walk can list, by root path *)
  fs : filesystem;
  refused : list string;     (* paths the system refuses to create or open:
                                permissions, read-only or full volume *)
  clock : list datetime;     (* the readings of the wall clock to come, the first of
                                them the present time *)
  rng : list nat;            (* the raw numbers the generator returns next *)
  stdout : list string;      (* printed lines, oldest first *)
  events : list event }.

Definition set_fs (f : filesystem) (w : world) : world :=
  mkWorld (trees w) f (refused w) (clock w) (rng w) (stdout w) (events w).
Definition set_clock (c : list datetime) (w : world) : world :=
  mkWorld (trees w) (fs w) (refused w) c (rng w) (stdout w) (events w).
Definition set_rng (r : list nat) (w : world) : world :=
  mkWorld (trees w) (fs w) (refused w) (clock w) r (stdout w) (events w).
Definition set_stdout (o : list string) (w : world) : world :=
  mkWorld (trees w) (fs w) (refused w) (clock w) (rng w) o (events w).
Definition set_events (e : list event) (w : world) : world :=
  mkWorld (trees w) (fs w) (refused w) (clock w) (rng w) (stdout w) e.

(* ================================================================== *)
(** * Computations: state passing with exceptions *)

Inductive outcome (A : Type) :=
| Returned (a : A)
| Raised (e : exn).
Arguments Returned {A} a.
Arguments Raised {A} e.

Definition M (A : Type) : Type := world -> outcome A * world.

Definition ret {A} (a : A) : M A := fun w => (Returned a, w).

Definition bind {A B} (m : M A) (k : A -> M B) : M B :=
  fun w => match m w with
           | (Returned a, w') => k a w'
           | (Raised e, w') => (Raised e, w')
           end.

Definition raise {A} (e : exn) : M A := fun w => (Raised e, w).

(** [try: m except Exception as e: h e]. *)
Definition try_except {A} (m : M A) (h : exn -> M A) : M A :=
  fun w => match m w with
           | (Returned a, w') => (Returned a, w')
           | (Raised e, w') => h e w'
           end.

Declare Scope monad_scope.
Delimit Scope monad_scope with monad.
Notation "x <- m ;; k" := (bind m (fun x => k))
  (at level 61, m at next level, right associativity) : monad_scope.
Notation "m ;; k" := (bind m (fun _ => k))
  (at level 61, right associativity) : monad_scope.
Local Open Scope monad_scope.

Definition get_world : M world := fun w => (Returned w, w).
Definition modify (f : world -> world) : M unit := fun w => (Returned tt, f w).

(** [print(line)]. *)
Definition print (line : string) : M unit :=
  modify (fun w => set_stdout (stdout w ++ [line]) w).

Definition log (e : event) : M unit :=
  modify (fun w => set_events (events w ++ [e]) w).

(** [str(e)] for an exception. *)
Definition str_exn (e : exn) : string :=
  match e with
  | FileExistsError p => "[Errno 17] File exists: " ++ p
  | FileNotFoundError p => "[Errno 2] No such file or directory: " ++ p
  | IsADirectoryError p => "[Errno 21] Is a directory: " ++ p
  | SameFileError a b => a ++ " and " ++ b ++ " are the same file"
  | OSError p => "[Errno 13] Permission denied: " ++ p
  | ValueError m => m
  end%string.

Definition nl : string := String (ascii_of_nat 10) EmptyString.
Definition check_mark : string :=
  String (ascii_of_nat 226) (String (ascii_of_nat 156) (String (ascii_of_nat 147) EmptyString)).

(* ================================================================== *)
(** * os: walk, makedirs, symlink *)

Module os.

(** The names scandir reports as directories, and the others. *)
Fixpoint dirnames (es : list node) : list string :=
  match es with
  | [] => []
  | File _ _ :: es' => dirnames es'
  | Dir d _ _ :: es' => d :: dirnames es'
  end.

Fixpoint filenames (es : list node) : list string :=
  match es with
  | [] => []
  | File f _ :: es' => f :: filenames es'
  | Dir _ _ _ :: es' => filenames es'
  end.

(** What os.walk yields for the entry [n] of the directory [top]: nothing
    for a file or a directory it does not enter, and otherwise the triple
    of the sub-directory followed by those of its own sub-directories,
    top down and in listing order. *)
Fixpoint walk_entry (top : string) (n : node) : list (string * list string * list string) :=
  match n with
  | File _ _ => []
  | Dir d walked es =>
      if walked then
        let new_path := os_path.join top d in
        (new_path, dirnames es, filenames es) :: flat_map (walk_entry new_path) es
      else []
  end.

(** [os.walk(top)] over the directory with entries [es]. *)
Definition walk_tree (top : string) (es : list node) : list (string * list string * list string) :=
  (top, dirnames es, filenames es) :: flat_map (walk_entry top) es.

Fixpoint lookup_tree (top : string) (ts : list (string * list node)) : option (list node) :=
  match ts with
  | [] => None
  | (r, es) :: ts' => if (r =? top)%string then Some es else lookup_tree top ts'
  end.

(** [list(os.walk(top))]: a root that cannot be listed yields nothing. *)
Definition walk (top : string) : M (list (string * list string * list string)) :=
  w <- get_world ;;
  match lookup_tree top (trees w) with
  | Some es => ret (walk_tree top es)
  | None => ret []
  end.

(** Path lookup and update in the file system. *)
Fixpoint lookup (p : string) (f : filesystem) : option inode :=
  match f with
  | [] => None
  | (q, i) :: f' => if (q =? p)%string then Some i else lookup p f'
  end.

Definition update (p : string) (i : inode) (f : filesystem) : filesystem :=
  (p, i) :: f.

(** Follow symbolic links from [p], at most [fuel] of them (ELOOP beyond). *)
Fixpoint resolve (fuel : nat) (f : filesystem) (p : string) : option string :=
  match lookup p f with
  | Some (Symlink t) =>
      match fuel with
      | O => None
      | S fuel' => resolve fuel' f t
      end
  | _ => Some p
  end.

Definition MAXSYMLINKS : nat := 40.

(** [os.path.isdir(p)] and [os.path.exists(p)]: both follow links. *)
Definition isdir (f : filesystem) (p : string) : bool :=
  match resolve MAXSYMLINKS f p with
  | Some q => match lookup q f with Some Directory => true | _ => false end
  | None => false
  end.

Definition exists_ (f : filesystem) (p : string) : bool :=
  match resolve MAXSYMLINKS f p with
  | Some q => match lookup q f with Some _ => true | None => false end
  | None => false
  end.

(** [os.makedirs(p, exist_ok=True)] at a path whose parent is there:
    nothing to do when [p] is already a directory; an error when it is
    something else or may not be created. The directories os.makedirs
    makes on the way to [p] when the parent is missing, and its error when
    the parent is a file, are not modelled. *)
Definition makedirs (p : string) : M unit :=
  w <- get_world ;;
  if isdir (fs w) p then ret tt
  else match lookup p (fs w) with
       | Some _ => raise (FileExistsError p)
       | None =>
           if Str.mem p (refused w) then raise (OSError p)
           else modify (fun w => set_fs (update p Directory (fs w)) w) ;;
                log (MadeDir p)
       end.

(** [os.symlink(src, dst)]: [dst] must not exist; [src] need not. *)
Definition symlink (src dst : string) : M unit :=
  w <- get_world ;;
  match lookup dst (fs w) with
  | Some _ => raise (FileExistsError dst)
  | None =>
      if Str.mem dst (refused w) then raise (OSError dst)
      else modify (fun w => set_fs (update dst (Symlink src) (fs w)) w) ;;
           log (Linked src dst)
  end.

End os.

(* ================================================================== *)
(** * shutil.copy2 *)

Module shutil.

(** [open(src, 'rb').read()]. *)
Definition read_file (w : world) (src : string) : outcome string :=
  match os.resolve os.MAXSYMLINKS (fs w) src with
  | None => Raised (OSError src)
  | Some q =>
      match os.lookup q (fs w) with
      | None => Raised (FileNotFoundError src)
      | Some Directory => Raised (IsADirectoryError src)
      | Some (Symlink _) => Raised (OSError src)
      | Some (RegFile data) =>
          if Str.mem q (refused w) then Raised (OSError src) else Returned data
      end
  end.

(** [shutil.copy2(src, dst)]: into [dst] when it is a directory, over
    [dst] when it is a file, through [dst] when it is a link. *)
Definition copy2 (src dst : string) : M unit :=
  w <- get_world ;;
  let dst := if os.isdir (fs w) dst then os_path.join dst (os_path.basename src) else dst in
  match os.resolve os.MAXSYMLINKS (fs w) src, os.resolve os.MAXSYMLINKS (fs w) dst with
  | Some s, Some d =>
      if (s =? d)%string && os.exists_ (fs w) d then raise (SameFileError src dst)
      else
        match read_file w src with
        | Raised e => raise e
        | Returned data =>
            match os.lookup d (fs w) with
            | Some Directory => raise (IsADirectoryError dst)
            | _ =>
                if Str.mem d (refused w) then raise (OSError dst)
                else modify (fun w => set_fs (os.update d (RegFile data) (fs w)) w) ;;
                     log (Copied src d)
            end
        end
  | None, _ => raise (OSError src)
  | _, None => raise (OSError dst)
  end.

End shutil.

(* ================================================================== *)
(** * datetime *)

Module dt.

Definition epoch : datetime := mkDatetime 1970 1 1 0 0 0 0.

(** [datetime.now()]: the present reading of the wall clock; the clock
    moves on to the next. *)
Definition now : M datetime :=
  fun w => match clock w with
           | [] => (Returned epoch, w)
           | d :: later => (Returned d, set_clock later w)
           end.

(** [d.strftime("%Y%m%d_%H%M%S")]. *)
Definition strftime (d : datetime) : string :=
  (Str.format_04d (year d) ++ Str.format_02d (month d) ++ Str.format_02d (day d)
     ++ "_" ++
   Str.format_02d (hour d) ++ Str.format_02d (minute d) ++ Str.format_02d (second d))%string.

Definition is_leap (y : nat) : bool :=
  (y mod 4 =? 0) && (negb (y mod 100 =? 0) || (y mod 400 =? 0)).

Definition days_in_month (y m : nat) : nat :=
  if (m =? 2) && is_leap y then 29
  else nth m [0; 31; 28; 31; 30; 31; 30; 31; 31; 30; 31; 30; 31] 0.

Definition days_before_year (y : nat) : Z :=
  let y' := (Z.of_nat y - 1)%Z in
  (y' * 365 + y' / 4 - y' / 100 + y' / 400)%Z.

Definition days_before_month (y m : nat) : Z :=
  let table := nth m [0; 0; 31; 59; 90; 120; 151; 181; 212; 243; 273; 304; 334] 0 in
  let leap_day := if (2 <? m) && is_leap y then 1 else 0 in
  Z.of_nat (table + leap_day).

(** [d.toordinal()]. *)
Definition toordinal (d : datetime) : Z :=
  (days_before_year (year d) + days_before_month (year d) (month d) + Z.of_nat (day d))%Z.

(** [(d - datetime.min) // timedelta(microseconds=1)]. *)
Definition microseconds (d : datetime) : Z :=
  ((((toordinal d * 24 + Z.of_nat (hour d)) * 60 + Z.of_nat (minute d)) * 60
     + Z.of_nat (second d)) * 1000000 + microsecond d)%Z.

(** The fields datetime accepts. *)
Definition valid (d : datetime) : bool :=
  (1 <=? year d) && (Z.of_nat (year d) <=? 9999)%Z && (1 <=? month d) && (month d <=? 12)
  && (1 <=? day d) && (day d <=? days_in_month (year d) (month d))
  && (hour d <? 24) && (minute d <? 60) && (second d <? 60)
  && (0 <=? microsecond d)%Z && (microsecond d <? 1000000)%Z.

End dt.

(** The readings of [c] from the first that is no earlier than [bound]. *)
Fixpoint from_time (bound : Z) (c : list datetime) : list datetime :=
  match c with
  | [] => []
  | d :: later => if (dt.microseconds d <? bound)%Z then from_time bound later else c
  end.

(** The clock after a sleep of [secs] seconds: the first reading is the
    time at which the sleep begins, and the readings less than [secs]
    seconds after it pass unread. *)
Definition after_sleep (secs : nat) (c : list datetime) : list datetime :=
  match c with
  | [] => []
  | present :: _ => from_time (dt.microseconds present + Z.of_nat secs * 1000000) c
  end.

(** [time.sleep(secs)]: at least [secs] seconds pass, and the wall clock
    moves on to its first reading that is as late. *)
Definition time_sleep (secs : nat) : M unit :=
  modify (fun w => set_clock (after_sleep secs (clock w)) w).

(* ================================================================== *)
(** * random.sample *)

Module random.

(** [randbelow(n)] for [0 < n]. *)
Definition randbelow (n : nat) (rs : list nat) : nat * list nat :=
  match rs with
  | [] => (0, [])
  | r :: rs' => (r mod n, rs')
  end.

(** [l[j] = x]. *)
Fixpoint set_nth {A} (j : nat) (x : A) (l : list A) : list A :=
  match l, j with
  | [], _ => []
  | _ :: l', O => x :: l'
  | a :: l', S j' => a :: set_nth j' x l'
  end.

(** The selection loop of random.sample over a pool: draw a position
    below the number of live entries, take the entry, and move the last
    live entry into its place.  A stream that gives out is continued by
    zeros. *)
Fixpoint sample_pool {A} (pool : list A) (k : nat) (rs : list nat) : list A * list nat :=
  match k with
  | O => ([], rs)
  | S k' =>
      let live := List.length pool in
      let (j, rs') := randbelow live rs in
      match nth_error pool j, nth_error pool (live - 1) with
      | Some x, Some y =>
          let (result, rs'') := sample_pool (firstn (live - 1) (set_nth j y pool)) k' rs' in
          (x :: result, rs'')
      | _, _ => ([], rs')
      end
  end.

(** The least of [p], [4 p], [16 p], ... that is at least [x]. *)
Fixpoint pow4_above (fuel p x : nat) : nat :=
  match fuel with
  | O => p
  | S fuel' => if x <=? p then p else pow4_above fuel' (4 * p) x
  end.

(** [setsize]: 21, and for [k > 5] also [4 ** _ceil(_log(k * 3, 4))], the
    least power of 4 above [3 k] (which is no power of 4 itself, so that
    the rounding of the logarithm does not show for any [k] below 2**50). *)
Definition setsize (k : nat) : nat :=
  if 5 <? k then 21 + pow4_above (3 * k) 1 (3 * k) else 21.

(** [j in selected]. *)
Definition taken (j : nat) (selected : list nat) : bool := existsb (Nat.eqb j) selected.

(** The first position below [n] that is not taken. *)
Definition first_free (n : nat) (selected : list nat) : nat :=
  match find (fun j => negb (taken j selected)) (seq 0 n) with
  | Some j => j
  | None => 0
  end.

(** [j = randbelow(n)], then [while j in selected: j = randbelow(n)].  The
    loop ends with probability one and on no bound: a stream that gives out
    before it ends stands for a generator that goes on, and is continued by
    the draw that ends the loop at the first free position. *)
Fixpoint draw_fresh (n : nat) (selected : list nat) (rs : list nat) : nat * list nat :=
  match rs with
  | [] => (first_free n selected, [])
  | r :: rs' =>
      let j := r mod n in
      if taken j selected then draw_fresh n selected rs' else (j, rs')
  end.

(** The selection loop of random.sample over a set of the positions
    taken so far. *)
Fixpoint sample_set {A} (population : list A) (n k : nat) (selected : list nat)
    (rs : list nat) : list A * list nat :=
  match k with
  | O => ([], rs)
  | S k' =>
      let (j, rs') := draw_fresh n selected rs in
      match nth_error population j with
      | Some x =>
          let (result, rs'') := sample_set population n k' (j :: selected) rs' in
          (x :: result, rs'')
      | None => ([], rs')
      end
  end.

(** The two branches: over a pool when the population is no longer than
    [setsize], over a set of positions otherwise. *)
Definition draw {A} (population : list A) (k : nat) (rs : list nat) : list A * list nat :=
  let n := List.length population in
  if n <=? setsize k then sample_pool population k rs
  else sample_set population n k [] rs.

(** [random.sample(population, k)]. *)
Definition sample {A} (population : list A) (k : Z) : M (list A) :=
  if ((k <? 0) || (Z.of_nat (List.length population) <? k))%Z
  then raise (ValueError "Sample larger than population or is negative")
  else fun w =>
         let (result, rs) := draw population (Z.to_nat k) (rng w) in
         (Returned result, set_rng rs w).

End random.

(* ================================================================== *)
(** * drumkit_generator.py *)

(** ** get_audio_files *)

(** Line 24: the extension list, lower-cased and stripped of dots. *)
Definition normalize (extensions : list string) : list string :=
  map (fun ext => Str.strip "." (Str.lower ext)) extensions.

(** Line 32: the extension of a file name, without the dot. *)
Definition file_ext_of (file : string) : string :=
  Str.strip "." (Str.lower (snd (os_path.splitext file))).

(** Lines 29-35: the inner loop over the files of one directory. *)
Definition scan_files (extensions : list string) (root : string)
    (files : list string) (audio_files : list string) : list string :=
  fold_left
    (fun audio_files file =>
       let file_path := os_path.join root file in
       let file_ext := file_ext_of file in
       if Str.mem file_ext extensions then audio_files ++ [file_path] else audio_files)
    files audio_files.

(** Lines 28-35: the loop over what os.walk yields. *)
Definition scan_walk (extensions : list string)
    (triples : list (string * list string * list string))
    (audio_files : list string) : list string :=
  fold_left
    (fun audio_files '(root, dirs, files) => scan_files extensions root files audio_files)
    triples audio_files.

Definition get_audio_files (input_dir : string) (extensions : list string) : M (list string) :=
  let audio_files := [] in
  let extensions := normalize extensions in
  print ("Searching for audio files in: " ++ input_dir) ;;
  triples <- os.walk input_dir ;;
  ret (scan_walk extensions triples audio_files).

(** ** create_drum_kit *)

(** Lines 65-68: the name a selected file gets in the kit. *)
Definition new_filename (i : nat) (source_file : string) : string :=
  (Str.format_02d i ++ "_" ++ os_path.basename source_file)%string.

(** Lines 63-78: the placement loop from index [i] on; [false] is the early
    return of the handler, [true] is falling out of the loop. *)
Fixpoint place_files (use_symlinks : bool) (kit_dir : string) (i : nat)
    (selected_files : list string) : M bool :=
  match selected_files with
  | [] => ret true
  | source_file :: rest =>
      let filename := os_path.basename source_file in
      let dest_path := os_path.join kit_dir (new_filename i source_file) in
      placed <-
        try_except
          ((if use_symlinks then os.symlink source_file dest_path
            else shutil.copy2 source_file dest_path) ;;
           print ("  " ++ Str.format_2d i ++ ". " ++ filename) ;;
           ret true)
          (fun e =>
             print ("  Error " ++ (if use_symlinks then "linking" else "copying") ++ " "
                      ++ filename ++ ": " ++ str_exn e) ;;
             ret false) ;;
      if placed then place_files use_symlinks kit_dir (S i) rest else ret false
  end.

(** Lines 47-49: the directory of the kit made at reading [d]. *)
Definition kit_name_at (d : datetime) : string := ("DrumKit_" ++ dt.strftime d)%string.

Definition create_drum_kit (audio_files : list string) (output_dir : string)
    (max_files : Z) (use_symlinks : bool) : M bool :=
  match audio_files with
  | [] => print "No audio files found!" ;; ret false
  | _ =>
      now <- dt.now ;;
      let kit_name := kit_name_at now in
      let kit_dir := os_path.join output_dir kit_name in
      os.makedirs kit_dir ;;
      let num_files := Z.min (Z.of_nat (List.length audio_files)) max_files in
      selected_files <- random.sample audio_files num_files ;;
      print (nl ++ "Creating drum kit: " ++ kit_name) ;;
      let action := if use_symlinks then "Creating symlinks to" else "Copying" in
      print (action ++ " " ++ Str.of_nat (Z.to_nat num_files) ++ " files...") ;;
      completed <- place_files use_symlinks kit_dir 1 selected_files ;;
      if completed then
        print (nl ++ check_mark ++ " Drum kit created successfully!") ;;
        print ("  Location: " ++ kit_dir) ;;
        ret true
      else ret false
  end.

(** ** main

    The console dialogue of lines 86-158 and 173-181 is represented by the
    answers it ends with; of what it prints only the line announcing the
    creation of the output directory is kept. *)

Record answers := mkAnswers {
  input_dir : string;
  output_dir : string;
  max_files : Z;               (* the prompt accepts [0 < max_files] only *)
  extensions : list string;
  use_symlinks : bool;
  num_kits : nat }.            (* the prompt accepts [0 < num_kits] only *)

(** Lines 186-194: the kit loop over [range(num_kits)]. *)
Fixpoint kit_loop (audio_files : list string) (a : answers) (kit_nums : list nat)
    (successful_kits : nat) : M nat :=
  match kit_nums with
  | [] => ret successful_kits
  | kit_num :: rest =>
      made <- create_drum_kit audio_files (output_dir a) (max_files a) (use_symlinks a) ;;
      let successful_kits := if made then successful_kits + 1 else successful_kits in
      (if kit_num <? num_kits a - 1 then time_sleep 1 else ret tt) ;;
      kit_loop audio_files a rest successful_kits
  end.

Definition main (a : answers) : M unit :=
  w <- get_world ;;
  (if negb (os.exists_ (fs w) (output_dir a)) then
     print ("Creating output directory: " ++ output_dir a) ;;
     os.makedirs (output_dir a)
   else ret tt) ;;
  print (Str.join "" (repeat "-" 60)) ;;
  audio_files <- get_audio_files (input_dir a) (extensions a) ;;
  match audio_files with
  | [] =>
      print "No audio files found!" ;;
      print ("Searched for: " ++ Str.join ", " (extensions a)) ;;
      print "Make sure your sample library contains files with these extensions."
  | _ =>
      print ("Found " ++ Str.of_nat (List.length audio_files) ++ " audio files") ;;
      print (nl ++ Str.join "" (repeat "=" 60)) ;;
      successful_kits <- kit_loop audio_files a (seq 0 (num_kits a)) 0 ;;
      print (Str.join "" (repeat "=" 60)) ;;
      print ("Generated " ++ Str.of_nat successful_kits ++ "/" ++ Str.of_nat (num_kits a)
               ++ " drum kits successfully!") ;;
      print "Done!"
  end.

(** Induction on a tree, with the hypothesis for every entry of a
    directory. *)
Section NodeInduction.
Variable P : node -> Prop.
Hypothesis P_file : forall name st, P (File name st).
Hypothesis P_dir : forall d walked es, Forall P es -> P (Dir d walked es).

Fixpoint node_rect' (n : node) : P n :=
  match n with
  | File name st => P_file name st
  | Dir d walked es =>
      P_dir d walked es
        ((fix all (l : list node) : Forall P l :=
            match l with
            | [] => Forall_nil P
            | x :: l' => Forall_cons x (node_rect' x) (all l')
            end) es)
  end.
End NodeInduction.

(* ================================================================== *)
(** * Specification vocabulary for discovery *)

(** [reachable top es name path]: recursive descent from the directory
    [top] with entries [es] reaches a file called [name], at [path]. *)
Inductive reachable : string -> list node -> string -> string -> Prop :=
| reach_file top es name st :
    In (File name st) es ->
    reachable top es name (os_path.join top name)
| reach_dir top es d sub name path :
    In (Dir d true sub) es ->
    reachable (os_path.join top d) sub name path ->
    reachable top es name path.

(** The same tree with the size, mode and content of every file forgotten. *)
Fixpoint forget (n : node) : node :=
  match n with
  | File name _ => File name (mkStat 0 0 EmptyString)
  | Dir d walked es => Dir d walked (map forget es)
  end.

(** The same tree with the entries of its directories listed in another
    order. *)
Inductive relisted : list node -> list node -> Prop :=
| relisted_nil : relisted [] []
| relisted_cons n n' es es' :
    relisted_node n n' -> relisted es es' -> relisted (n :: es) (n' :: es')
| relisted_swap a b es : relisted (a :: b :: es) (b :: a :: es)
| relisted_trans es1 es2 es3 :
    relisted es1 es2 -> relisted es2 es3 -> relisted es1 es3
with relisted_node : node -> node -> Prop :=
| relisted_file name st : relisted_node (File name st) (File name st)
| relisted_dir d walked es es' :
    relisted es es' -> relisted_node (Dir d walked es) (Dir d walked es').

Scheme relisted_mut := Induction for relisted Sort Prop
  with relisted_node_mut := Induction for relisted_node Sort Prop.

(** The test of line 34 on one file name. *)
Definition is_audio (extensions : list string) (file : string) : bool :=
  Str.mem (file_ext_of file) (normalize extensions).

(** What one triple of os.walk contributes under the normalized list [exts]. *)
Definition matching (exts : list string) (t : string * list string * list string) : list string :=
  map (os_path.join (fst (fst t))) (filter (fun f => Str.mem (file_ext_of f) exts) (snd t)).

(** The matching files below a directory, entry by entry. *)
Fixpoint collect_entry (extensions : list string) (top : string) (n : node) : list string :=
  match n with
  | File name _ => if is_audio extensions name then [os_path.join top name] else []
  | Dir d walked es =>
      if walked then flat_map (collect_entry extensions (os_path.join top d)) es else []
  end.

Definition collect (extensions : list string) (top : string) (es : list node) : list string :=
  flat_map (collect_entry extensions top) es.

(** What the walk of [top] finds: the files of [top] itself, then what the
    walk of each entry finds. *)
Definition found (exts : list string) (top : string) (es : list node) : list string :=
  flat_map (matching (normalize exts)) (os.walk_tree top es).

Definition found_entry (exts : list string) (top : string) (n : node) : list string :=
  flat_map (matching (normalize exts)) (os.walk_entry top n).

Definition own_files (exts : list string) (top : string) (es : list node) : list string :=
  map (os_path.join top) (filter (is_audio exts) (os.filenames es)).

(** Two listings of a root: both fail, or both are the same tree up to the
    order of the entries. *)
Definition same_listing (t t' : option (list node)) : Prop :=
  match t, t' with
  | Some es, Some es' => relisted es es'
  | None, None => True
  | _, _ => False
  end.

(** ** Directories as a file system holds them *)

Definition entry_name (n : node) : string :=
  match n with
  | File name _ => name
  | Dir d _ _ => d
  end.

(** A name is not empty and holds no slash. *)
Definition good_name (s : string) : bool :=
  negb (s =? "")%string && Str.lacks "/" s.

(** Every name is good, and no directory holds two entries by one name. *)
Inductive well_formed : node -> Prop :=
| wf_file name st : good_name name = true -> well_formed (File name st)
| wf_dir d walked es :
    good_name d = true -> NoDup (map entry_name es) -> Forall well_formed es ->
    well_formed (Dir d walked es).

(** What os.path.join puts in front of a relative name. *)
Definition join_prefix (top : string) : string :=
  if (top =? "")%string || Str.endswith "/" top then top else (top ++ "/")%string.

(** The part of a path before its first slash. *)
Fixpoint segment (s : string) : string :=
  match s with
  | EmptyString => EmptyString
  | String c s' => if (c =? "/")%char then EmptyString else String c (segment s')
  end.

(** The matching files below an entry, by their paths relative to the
    directory that holds the entry. *)
Fixpoint rel_entry (extensions : list string) (n : node) : list string :=
  match n with
  | File name _ => if is_audio extensions name then [name] else []
  | Dir d walked es =>
      if walked
      then map (fun r => (d ++ "/" ++ r)%string) (flat_map (rel_entry extensions) es)
      else []
  end.

(** ** The extension of a name and the allowed set, in the words of the
    specification *)

(** Case folding, letter by letter. *)
Definition capitals : string := "ABCDEFGHIJKLMNOPQRSTUVWXYZ".
Definition smalls : string := "abcdefghijklmnopqrstuvwxyz".

Fixpoint fold_letter (ups lows : string) (c : ascii) : ascii :=
  match ups, lows with
  | String u ups', String l lows' => if (c =? u)%char then l else fold_letter ups' lows' c
  | _, _ => c
  end.

Fixpoint case_fold (s : string) : string :=
  match s with
  | EmptyString => EmptyString
  | String c s' => String (fold_letter capitals smalls c) (case_fold s')
  end.

(** The extension of a file name, its dot left out: what follows the last
    dot of a name whose part before that dot is not made of dots only; a
    name of dots followed by text without a dot has none. *)
Inductive extension_of : string -> string -> Prop :=
| ext_last stem e :
    Str.lacks "." e = true -> Str.all_char "." stem = false ->
    extension_of (stem ++ String "." e) e
| ext_none k rest :
    Str.lacks "." rest = true ->
    extension_of (Str.replicate k "." ++ rest) EmptyString.

(** [core] is [s] without the dots at its two ends. *)
Definition trimmed (s core : string) : Prop :=
  exists a b,
    s = (a ++ core ++ b)%string /\
    Str.all_char "." a = true /\ Str.all_char "." b = true /\
    Str.startswith "." core = false /\ Str.endswith "." core = false.

(** The extension [e] is in the allowed set: some token of the list,
    case-folded and trimmed of dots, is [e] case-folded. *)
Definition allowed (extensions : list string) (e : string) : Prop :=
  exists token, In token extensions /\ trimmed (case_fold token) (case_fold e).

(** No file name below the entry holds a slash. *)
Fixpoint plain_names (n : node) : bool :=
  match n with
  | File name _ => Str.lacks "/" name
  | Dir _ _ es => forallb plain_names es
  end.

(* ================================================================== *)
(** * Specification vocabulary for kit assembly *)

(** Lines 71-74: one placement. *)
Definition place (use_symlinks : bool) (source_file dest_path : string) : M unit :=
  if use_symlinks then os.symlink source_file dest_path
  else shutil.copy2 source_file dest_path.

(** Line 68: where the [i]-th selected file goes. *)
Definition dest_path_of (kit_dir : string) (i : nat) (source_file : string) : string :=
  os_path.join kit_dir (new_filename i source_file).

(** The event a successful placement at its destination leaves. *)
Definition placement (use_symlinks : bool) (kit_dir : string) (i : nat)
    (source_file : string) : event :=
  if use_symlinks then Linked source_file (dest_path_of kit_dir i source_file)
  else Copied source_file (dest_path_of kit_dir i source_file).

Fixpoint placements (use_symlinks : bool) (kit_dir : string) (i : nat)
    (selected_files : list string) : list event :=
  match selected_files with
  | [] => []
  | f :: rest => placement use_symlinks kit_dir i f :: placements use_symlinks kit_dir (S i) rest
  end.

Fixpoint dest_paths (kit_dir : string) (i : nat) (selected_files : list string) : list string :=
  match selected_files with
  | [] => []
  | f :: rest => dest_path_of kit_dir i f :: dest_paths kit_dir (S i) rest
  end.

(** A path that is free or holds a regular file: what shutil.copy2 writes
    at the very path it is given. *)
Definition plain (f : filesystem) (p : string) : bool :=
  match os.lookup p f with
  | None | Some (RegFile _) => true
  | Some Directory | Some (Symlink _) => false
  end.

(** Line 67 along the selection: the names in the kit, from index [i] on. *)
Fixpoint names_from (i : nat) (selected_files : list string) : list string :=
  match selected_files with
  | [] => []
  | f :: rest => new_filename i f :: names_from (S i) rest
  end.

Definition kit_names (selected_files : list string) : list string :=
  names_from 1 selected_files.

(** The names of the entries the events created or wrote. *)
Definition placed_path (e : event) : option string :=
  match e with
  | MadeDir _ => None
  | Copied _ dst => Some dst
  | Linked _ dst => Some dst
  end.

(** What the next call of datetime.now() returns. *)
Definition reading (w : world) : datetime := hd dt.epoch (clock w).

(** Lines 47-49 and 55-56 in the world [w]. *)
Definition kit_dir_of (output_dir : string) (w : world) : string :=
  os_path.join output_dir (kit_name_at (reading w)).

Definition num_files_of (audio_files : list string) (max_files : Z) : Z :=
  Z.min (Z.of_nat (List.length audio_files)) max_files.

Definition selected_of (audio_files : list string) (max_files : Z) (w : world) : list string :=
  fst (random.draw audio_files (Z.to_nat (num_files_of audio_files max_files)) (rng w)).

(** The lines printed by a placement that succeeds and by one that fails. *)
Definition placed_line (i : nat) (source_file : string) : string :=
  ("  " ++ Str.format_2d i ++ ". " ++ os_path.basename source_file)%string.

Definition error_line (use_symlinks : bool) (source_file : string) (e : exn) : string :=
  ("  Error " ++ (if use_symlinks then "linking" else "copying") ++ " "
     ++ os_path.basename source_file ++ ": " ++ str_exn e)%string.

(** The number a string of decimal digits denotes. *)
Fixpoint value_from (acc : nat) (s : string) : nat :=
  match s with
  | EmptyString => acc
  | String c s' => value_from (10 * acc + (nat_of_ascii c - 48)) s'
  end.

Definition value (s : string) : nat := value_from 0 s.

Fixpoint all_digits (s : string) : bool :=
  match s with
  | EmptyString => true
  | String c s' => Str.is_digit c && all_digits s'
  end.

(** [re.match(r".+$", s)]: one or more characters other than a newline, up
    to the end of the string or to a newline that ends it. *)
Fixpoint dot_plus_end (s : string) : bool :=
  match s with
  | EmptyString => false
  | String c rest =>
      negb (c =? ascii_of_nat 10)%char &&
      match rest with
      | EmptyString => true
      | String c' EmptyString => true
      | _ => dot_plus_end rest
      end
  end.

(** [re.match(r"^\d{2}_.+$", s)]. *)
Definition matches_NN_name (s : string) : bool :=
  match s with
  | String a (String b (String c rest)) =>
      Str.is_digit a && Str.is_digit b && (c =? "_")%char && dot_plus_end rest
  | _ => false
  end.

(** [s] writes the number [n] in exactly [width] decimal digits. *)
Definition field (width n : nat) (s : string) : Prop :=
  String.length s = width /\ all_digits s = true /\ value s = n.

(** [s] is the reading [d] in the format YYYYMMDD_HHMMSS. *)
Definition is_timestamp (d : datetime) (s : string) : Prop :=
  exists y mo dd h mi se,
    s = (y ++ mo ++ dd ++ "_" ++ h ++ mi ++ se)%string /\
    field 4 (year d) y /\ field 2 (month d) mo /\ field 2 (day d) dd /\
    field 2 (hour d) h /\ field 2 (minute d) mi /\ field 2 (second d) se.


(** Readings each at least one second after the one before. *)
Fixpoint spaced (l : list datetime) : Prop :=
  match l with
  | [] => True
  | d1 :: rest =>
      match rest with
      | [] => True
      | d2 :: _ => (dt.microseconds d1 + 1000000 <= dt.microseconds d2)%Z
      end /\ spaced rest
  end.

(** A path that does not exist and that the system does not refuse; a
    prefix below which every path is so. *)
Definition free (w : world) (p : string) : Prop :=
  os.lookup p (fs w) = None /\ Str.mem p (refused w) = false.

Definition untouched (prefix : string) (w : world) : Prop :=
  forall s, free w (prefix ++ s).

(** Lines 191-194: the world after the pause that follows kit [kit_num]. *)
Definition pause (a : answers) (kit_num : nat) (w : world) : world :=
  if kit_num <? num_kits a - 1 then set_clock (after_sleep 1 (clock w)) w else w.

(** A wall clock that is not set back: no reading is earlier than the one
    before it. *)
Fixpoint steady (c : list datetime) : Prop :=
  match c with
  | [] => True
  | d1 :: rest =>
      match rest with
      | [] => True
      | d2 :: _ => (dt.microseconds d1 <= dt.microseconds d2)%Z
      end /\ steady rest
  end.

(** The readings that kits made one after the other take from the clock
    [c], a sleep of one second after each. *)
Fixpoint kit_times (n : nat) (c : list datetime) : list datetime :=
  match n with
  | O => []
  | S n' =>
      match c with
      | [] => []
      | d :: later => d :: kit_times n' (after_sleep 1 later)
      end
  end.

(** Line 80, the line that tells that a kit was made, and line 58, the
    line every kit begins with; the lines of the second kind among those
    printed, and the number of those of the first kind. *)
Definition success_header : string :=
  (nl ++ check_mark ++ " Drum kit created successfully!")%string.

Definition attempt_prefix : string := (nl ++ "Creating drum kit: ")%string.

Fixpoint begins_with (prefix s : string) : bool :=
  match prefix with
  | EmptyString => true
  | String a prefix' =>
      match s with
      | EmptyString => false
      | String b s' => (a =? b)%char && begins_with prefix' s'
      end
  end.

Definition announced (lines : list string) : list string :=
  filter (begins_with attempt_prefix) lines.

Definition successes (lines : list string) : nat :=
  List.length (filter (String.eqb success_header) lines).

(** The entries of [l] at the positions [js]. *)
Definition pick {A} (l : list A) (js : list nat) : list A :=
  flat_map (fun j => match nth_error l j with Some x => [x] | None => [] end) js.

(** The source file a placement event names. *)
Definition event_source (e : event) : option string :=
  match e with
  | MadeDir _ => None
  | Copied src _ => Some src
  | Linked src _ => Some src
  end.

(** The world after printing [lines]. *)
Definition say (lines : list string) (w : world) : world :=
  set_stdout (stdout w ++ lines) w.

(** Lines 58-60 and 80-81: what a kit prints before and after its loop. *)
Definition start_lines (use_symlinks : bool) (kit_name : string) (num_files : Z) : list string :=
  [ (nl ++ "Creating drum kit: " ++ kit_name)%string;
    ((if use_symlinks then "Creating symlinks to" else "Copying") ++ " "
       ++ Str.of_nat (Z.to_nat num_files) ++ " files...")%string ].

Definition success_lines (kit_dir : string) : list string :=
  [ (nl ++ check_mark ++ " Drum kit created successfully!")%string;
    ("  Location: " ++ kit_dir)%string ].

(** A source that copy2 can read: a regular file the system does not
    refuse; a destination it can write: a plain path the system does not
    refuse and that is none of the sources. *)
Definition readable (w : world) (f : string) : Prop :=
  (exists data, os.lookup f (fs w) = Some (RegFile data)) /\ Str.mem f (refused w) = false.

Definition writable (w : world) (sources : list string) (d : string) : Prop :=
  plain (fs w) d = true /\ Str.mem d (refused w) = false /\ ~ In d sources.

(** Line 75 along the selection. *)
Fixpoint placed_lines (i : nat) (selected_files : list string) : list string :=
  match selected_files with
  | [] => []
  | f :: rest => placed_line i f :: placed_lines (S i) rest
  end.

(** Line 197: the report that ends a run. *)
Definition report_line (successful_kits num_kits : nat) : string :=
  ("Generated " ++ Str.of_nat successful_kits ++ "/" ++ Str.of_nat num_kits
     ++ " drum kits successfully!")%string.

(** The world in which the placement loop of a kit starts, given the world
    [w1] that os.makedirs left. *)
Definition loop_start (audio_files : list string) (max_files : Z) (use_symlinks : bool)
    (kit_name : string) (w1 : world) : world :=
  say (start_lines use_symlinks kit_name (num_files_of audio_files max_files))
      (set_rng (snd (random.draw audio_files
                       (Z.to_nat (num_files_of audio_files max_files)) (rng w1))) w1).

(* ================================================================== *)
(** * Concrete worlds *)

Module Demo.

Definition st0 : stat := mkStat 0 420 "".

(** A small library: three matching files at two levels, a text file, a
    hidden file called [.wav], and a linked directory os.walk does not
    enter. *)
Definition library : list node :=
  [ File "kick.wav" st0;
    File "notes.txt" st0;
    File ".wav" st0;
    Dir "hats" true [ File "closed.AIF" st0; File "README" st0 ];
    Dir "linked" false [ File "ghost.wav" st0 ];
    File "Snare.WAV" st0 ].

Definition sources : filesystem :=
  [ ("lib/kick.wav", RegFile "KICK");
    ("lib/hats/closed.AIF", RegFile "HAT");
    ("lib/Snare.WAV", RegFile "SNARE");
    ("out", Directory) ].

Definition noon : datetime := mkDatetime 2024 3 9 12 0 0 250000.
Definition noon_01 : datetime := mkDatetime 2024 3 9 12 0 1 300000.

Definition w0 : world :=
  mkWorld [("lib", library)] sources [] [noon; noon_01] [5; 1; 7; 2; 0; 3] [] [].

Definition default_extensions : list string := ["wav"; "aif"; "aiff"; "mp3"; "flac"].

(** What discovery returns on [w0]. *)
Definition discovered : list string :=
  ["lib/kick.wav"; "lib/Snare.WAV"; "lib/hats/closed.AIF"].

(** The same library with other sizes, modes and contents. *)
Definition library_restat : list node :=
  [ File "kick.wav" (mkStat 4096 256 "RIFF");
    File "notes.txt" st0;
    File ".wav" (mkStat 1 0 "x");
    Dir "hats" true [ File "closed.AIF" (mkStat 7 292 "FORM"); File "README" st0 ];
    Dir "linked" false [ File "ghost.wav" st0 ];
    File "Snare.WAV" (mkStat 0 0 "") ].

(** The same library as scandir may list it another time. *)
Definition library_relisted : list node :=
  [ File "notes.txt" st0;
    File "kick.wav" st0;
    File ".wav" st0;
    Dir "hats" true [ File "README" st0; File "closed.AIF" st0 ];
    Dir "linked" false [ File "ghost.wav" st0 ];
    File "Snare.WAV" st0 ].

Definition w_restat : world := mkWorld [("lib", library_restat)] sources [] [] [] [] [].
Definition w_relisted : world := mkWorld [("lib", library_relisted)] sources [] [] [] [] [].

(** One hundred samples, and a world with an output directory only. *)
Definition hundred : list string :=
  map (fun i => ("lib/s" ++ Str.of_nat i ++ ".wav")%string) (seq 0 100).

Definition w_bare : world := mkWorld [] [("out", Directory)] [] [noon; noon_01] [] [] [].

(** [w0] with the name the second file of the first kit will get already
    taken, and the answers of a run of two kits of two links each. *)
Definition w_clash : world :=
  mkWorld [("lib", library)]
          (("out/DrumKit_20240309_120000/02_Snare.WAV", RegFile "OLD") :: sources)
          [] [noon; noon_01] [5; 1; 7; 2; 0; 3] [] [].

Definition two_link_kits : answers :=
  mkAnswers "lib" "out" 2 default_extensions true 2.

Definition two_copy_kits : answers :=
  mkAnswers "lib" "out" 2 default_extensions false 2.

(** [w0] with the directory of the first kit refused by the system. *)
Definition w_refused : world :=
  mkWorld [("lib", library)] sources ["out/DrumKit_20240309_120000"]
          [noon; noon_01] [5; 1; 7; 2; 0; 3] [] [].

(** [w0] where no output directory exists and none may be made. *)
Definition w_no_output : world :=
  mkWorld [("lib", library)]
          [ ("lib/kick.wav", RegFile "KICK");
            ("lib/hats/closed.AIF", RegFile "HAT");
            ("lib/Snare.WAV", RegFile "SNARE") ]
          ["out"] [noon; noon_01] [5; 1; 7; 2; 0; 3] [] [].

(** A world whose library cannot be listed. *)
Definition w_unlisted : world :=
mkWorld [] [("out", Directory)] [] [noon] [5; 1] [] [].

(** [w0] with a second reading in the second of the first. *)
Definition noon_late : datetime := mkDatetime 2024 3 9 12 0 0 900000.


(** A clock read at uneven times, and [w0] and [w_clash] under it. *)
Definition noon_02 : datetime := mkDatetime 2024 3 9 12 0 2 400000.
Definition noon_04 : datetime := mkDatetime 2024 3 9 12 0 4 0.

Definition uneven : list datetime := [noon; noon_late; noon_01; noon_02; noon_04].

Definition w_run : world :=
  mkWorld [("lib", library)] sources [] uneven [5; 1; 7; 2; 0; 3] [] [].

Definition w_clash_run : world :=
  mkWorld [("lib", library)]
          (("out/DrumKit_20240309_120000/02_Snare.WAV", RegFile "OLD") :: sources)
          [] uneven [5; 1; 7; 2; 0; 3] [] [].

(** A directory that holds one hidden file. *)
Definition w_hidden : world := mkWorld [("lib", [File ".wav" st0])] [] [] [] [] [] [].

End Demo.

(* ================================================================== *)
(** * Strings and paths *)

Section StringFacts.

Local Open Scope Z_scope.

Lemma rfind_from_bounds c s i :
  0 <= i ->
  Str.rfind_from c s i = -1 \/
  (i <= Str.rfind_from c s i < i + Z.of_nat (String.length s)).
Proof.
  revert i. induction s as [|a s IH]; intros i Hi; simpl String.length; simpl Str.rfind_from.
  - now left.
  - destruct (IH (i + 1) ltac:(lia)) as [E | B].
    + rewrite E. simpl. destruct (a =? c)%char; [right; lia | now left].
    + destruct (Z.leb_spec 0 (Str.rfind_from c s (i + 1))); [right; lia | lia].
Qed.

Lemma rfind_from_lacks c s i : Str.lacks c s = true -> Str.rfind_from c s i = -1.
Proof.
  revert i. induction s as [|a s IH]; intros i H; simpl in *; [reflexivity|].
  apply andb_prop in H. destruct H as [Ha Hs].
  rewrite (IH _ Hs). simpl. apply negb_true_iff in Ha. now rewrite Ha.
Qed.

Lemma rfind_from_last c a e i :
  0 <= i -> Str.lacks c e = true ->
  Str.rfind_from c (a ++ String c e) i = i + Z.of_nat (String.length a).
Proof.
  revert i. induction a as [|x a IH]; intros i Hi He; simpl String.length; simpl Str.rfind_from.
  - rewrite (rfind_from_lacks _ _ _ He). simpl. rewrite Ascii.eqb_refl. lia.
  - change ((String x a ++ String c e)%string) with (String x (a ++ String c e)).
    simpl. rewrite (IH (i + 1) ltac:(lia) He).
    destruct (Z.leb_spec 0 (i + 1 + Z.of_nat (String.length a))); lia.
Qed.

End StringFacts.

Lemma lacks_app c a b : Str.lacks c (a ++ b) = Str.lacks c a && Str.lacks c b.
Proof.
  induction a as [|x a IH]; simpl; [reflexivity|]. now rewrite IH, andb_assoc.
Qed.

Lemma string_app_assoc (a b c : string) : ((a ++ b) ++ c = a ++ (b ++ c))%string.
Proof. induction a as [|x a IH]; simpl; congruence. Qed.

Lemma string_app_nil_r (a : string) : (a ++ "" = a)%string.
Proof. induction a as [|x a IH]; simpl; congruence. Qed.

Lemma string_length_app a b : String.length (a ++ b) = String.length a + String.length b.
Proof. induction a as [|x a IH]; simpl; congruence. Qed.

Lemma length_replicate k c : String.length (Str.replicate k c) = k.
Proof. induction k; simpl; congruence. Qed.

Lemma get_replicate k c j : j < k -> String.get j (Str.replicate k c) = Some c.
Proof.
  revert j. induction k as [|k IH]; intros j H; [lia|].
  destruct j; simpl; [reflexivity | apply IH; lia].
Qed.

Lemma substring_whole s : substring 0 (String.length s) s = s.
Proof. induction s as [|a s IH]; simpl; congruence. Qed.

Lemma substring_prefix a b : substring 0 (String.length a) (a ++ b) = a.
Proof.
  induction a as [|x a IH]; simpl.
  - now destruct b.
  - now rewrite IH.
Qed.

Lemma substring_suffix a b n :
  n = String.length b -> substring (String.length a) n (a ++ b) = b.
Proof.
  intros ->. induction a as [|x a IH]; simpl; [apply substring_whole | exact IH].
Qed.

Lemma slice_from_app a b : Str.slice_from (String.length a) (a ++ b) = b.
Proof.
  unfold Str.slice_from. apply substring_suffix.
  rewrite string_length_app. lia.
Qed.

Lemma slice_to_app a b : Str.slice_to (String.length a) (a ++ b) = a.
Proof. apply substring_prefix. Qed.

Lemma splitext_scan_dots p i n :
  (forall j, i <= j < i + n -> String.get j p = Some "."%char) ->
  os_path.splitext_scan p i n = false.
Proof.
  revert i. induction n as [|n IH]; intros i H; simpl; [reflexivity|].
  rewrite (H i) by lia. apply IH. intros j Hj. apply H. lia.
Qed.

Lemma splitext_scan_other p i n j c :
  i <= j < i + n -> String.get j p = Some c -> c <> "."%char ->
  os_path.splitext_scan p i n = true.
Proof.
  revert i. induction n as [|n IH]; intros i Hj Hg Hc; [lia|]. simpl.
  destruct (Nat.eq_dec i j) as [->|Hne].
  - rewrite Hg. destruct (Ascii.eqb_spec c "."); [contradiction|].
    destruct c as [[] [] [] [] [] [] [] []]; try reflexivity. now elim Hc.
  - destruct (String.get i p) as [x|]; [|reflexivity].
    destruct (Ascii.eqb_spec x ".") as [->|Hx].
    + apply IH; [lia | assumption | assumption].
    + destruct x as [[] [] [] [] [] [] [] []]; try reflexivity. now elim Hx.
Qed.

Lemma all_char_false c s :
  Str.all_char c s = false ->
  exists j x, j < String.length s /\ String.get j s = Some x /\ x <> c.
Proof.
  induction s as [|a s IH]; simpl; [discriminate|]. intros H.
  destruct (Ascii.eqb_spec a c) as [->|Hne].
  - destruct (IH H) as (j & x & Hj & Hg & Hx). exists (S j), x. repeat split; [lia | assumption | assumption].
  - exists 0, a. repeat split; [lia | assumption].
Qed.

(** A name made of dots followed by a dot-free rest has no extension. *)
Lemma splitext_no_ext k s :
  Str.lacks "." s = true ->
  os_path.splitext (Str.replicate k "." ++ s) = ((Str.replicate k "." ++ s)%string, EmptyString).
Proof.
  intros Hs. unfold os_path.splitext. set (p := (Str.replicate k "." ++ s)%string).
  destruct (Z.gtb_spec (Str.rfind "." p) (Str.rfind "/" p)) as [Hgt|]; [|reflexivity].
  rewrite splitext_scan_dots; [reflexivity|].
  intros j Hj.
  assert (Hdot : (Str.rfind "." p < Z.of_nat k)%Z).
  { unfold Str.rfind, p. destruct k as [|k].
    - simpl. rewrite (rfind_from_lacks _ _ _ Hs). lia.
    - replace (Str.replicate (S k) "." ++ s)%string
        with (Str.replicate k "." ++ String "." s)%string.
      + rewrite rfind_from_last by (lia || assumption). rewrite length_replicate. lia.
      + clear. induction k as [|k IH]; simpl in *; [reflexivity | now rewrite IH]. }
  assert (Hsep : (-1 <= Str.rfind "/" p)%Z).
  { unfold Str.rfind. destruct (rfind_from_bounds "/" p 0 ltac:(lia)); lia. }
  unfold p. rewrite <- append_correct1 by (rewrite length_replicate; lia).
  apply get_replicate. lia.
Qed.

(** A name [stem.e] whose stem is not all dots has the extension [.e]. *)
Lemma splitext_ext stem e :
  Str.lacks "." e = true -> Str.lacks "/" (stem ++ String "." e) = true ->
  Str.all_char "." stem = false ->
  os_path.splitext (stem ++ String "." e) = (stem, String "." e).
Proof.
  intros He Hsep Hstem. unfold os_path.splitext, Str.rfind.
  rewrite (rfind_from_lacks _ _ _ Hsep).
  rewrite rfind_from_last by (lia || assumption).
  change (0 + Z.of_nat (String.length stem))%Z with (Z.of_nat (String.length stem)).
  destruct (Z.gtb_spec (Z.of_nat (String.length stem)) (-1)) as [_|]; [|lia].
  rewrite Nat2Z.id. change (Z.to_nat (-1 + 1)) with 0. rewrite Nat.sub_0_r.
  destruct (all_char_false _ _ Hstem) as (j & x & Hj & Hg & Hx).
  rewrite (splitext_scan_other _ 0 _ j x); [| lia | | assumption].
  - now rewrite slice_to_app, slice_from_app.
  - now rewrite <- append_correct1.
Qed.

Lemma lower_char_dot c : (Str.lower_char c =? ".")%char = (c =? ".")%char.
Proof. destruct c as [[] [] [] [] [] [] [] []]; reflexivity. Qed.

Lemma lacks_lower s : Str.lacks "." (Str.lower s) = Str.lacks "." s.
Proof. induction s as [|a s IH]; simpl; [reflexivity | now rewrite lower_char_dot, IH]. Qed.

Lemma all_char_lower s : Str.all_char "." (Str.lower s) = Str.all_char "." s.
Proof. induction s as [|a s IH]; simpl; [reflexivity | now rewrite lower_char_dot, IH]. Qed.

Lemma lstrip_lacks c s : Str.lacks c s = true -> Str.lstrip c s = s.
Proof.
  destruct s as [|a s]; simpl; [reflexivity|]. intros H.
  apply andb_prop in H. destruct H as [Ha _]. apply negb_true_iff in Ha. now rewrite Ha.
Qed.

Lemma rstrip_lacks c s : Str.lacks c s = true -> Str.rstrip c s = s.
Proof.
  induction s as [|a s IH]; simpl; [reflexivity|]. intros H.
  apply andb_prop in H. destruct H as [Ha Hs]. apply negb_true_iff in Ha.
  rewrite (IH Hs), Ha. now destruct s.
Qed.

Lemma strip_lacks c s : Str.lacks c s = true -> Str.strip c s = s.
Proof. intros H. unfold Str.strip. now rewrite lstrip_lacks, rstrip_lacks. Qed.

Lemma lstrip_all c s : Str.all_char c s = true -> Str.lstrip c s = EmptyString.
Proof.
  induction s as [|a s IH]; simpl; [reflexivity|]. intros H.
  apply andb_prop in H. destruct H as [Ha Hs]. rewrite Ha. now apply IH.
Qed.

(** Stripping leaves nothing exactly of the strings made of [c] only. *)
Lemma strip_empty_iff c s : Str.strip c s = EmptyString <-> Str.all_char c s = true.
Proof.
  unfold Str.strip. split.
  - induction s as [|a s IH]; simpl; [reflexivity|].
    destruct (Ascii.eqb_spec a c) as [->|Hne]; simpl.
    + exact IH.
    + destruct (Str.rstrip c s); [|discriminate].
      apply Ascii.eqb_neq in Hne. rewrite Hne. discriminate.
  - intros H. now rewrite lstrip_all.
Qed.

(** Line 32 on a name [stem.e]: the extension is [e] in lower case. *)
Lemma file_ext_of_ext stem e :
  Str.lacks "." e = true -> Str.lacks "/" (stem ++ String "." e) = true ->
  Str.all_char "." stem = false ->
  file_ext_of (stem ++ String "." e) = Str.lower e.
Proof.
  intros He Hsep Hstem. unfold file_ext_of. rewrite splitext_ext by assumption.
  simpl. unfold Str.strip. simpl.
  change (Str.rstrip "." (Str.lstrip "." (Str.lower e))) with (Str.strip "." (Str.lower e)).
  apply strip_lacks. now rewrite lacks_lower.
Qed.

(** Line 32 on a name without an extension: the empty string. *)
Lemma file_ext_of_no_ext k s :
  Str.lacks "." s = true -> file_ext_of (Str.replicate k "." ++ s) = EmptyString.
Proof. intros Hs. unfold file_ext_of. now rewrite splitext_no_ext. Qed.

(* ================================================================== *)
(** * Decimal formatting *)

Lemma forallb_below (P : nat -> bool) n :
  forallb P (seq 0 n) = true -> forall i, i < n -> P i = true.
Proof.
  intros H i Hi. rewrite forallb_forall in H. apply H. apply in_seq. lia.
Qed.

Lemma is_digit_digit_char d : d < 10 -> Str.is_digit (Str.digit_char d) = true.
Proof.
  intros H. revert d H. apply (forallb_below (fun d => Str.is_digit (Str.digit_char d))).
  reflexivity.
Qed.

Lemma value_digit_char d : d < 10 -> nat_of_ascii (Str.digit_char d) - 48 = d.
Proof.
  intros H. apply Nat.eqb_eq. revert d H.
  apply (forallb_below (fun d => nat_of_ascii (Str.digit_char d) - 48 =? d)).
  reflexivity.
Qed.

Lemma value_from_app acc a b :
  value_from acc (a ++ b) = value_from (value_from acc a) b.
Proof. revert acc. induction a as [|c a IH]; intros acc; simpl; [reflexivity | apply IH]. Qed.

Lemma all_digits_app a b : all_digits (a ++ b) = all_digits a && all_digits b.
Proof. induction a as [|c a IH]; simpl; [reflexivity | now rewrite IH, andb_assoc]. Qed.

(** The digit loop writes the decimal digits of [n] in front of [acc]. *)
Lemma digits_spec fuel : forall n acc,
  n <= fuel ->
  exists pre,
    Str.digits (S fuel) n acc = (pre ++ acc)%string /\
    pre <> EmptyString /\ all_digits pre = true /\ value pre = n.
Proof.
  induction fuel as [|fuel IH]; intros n acc Hn.
  - assert (n = 0) by lia. subst n. exists "0". repeat split. discriminate.
  - cbn [Str.digits]. destruct (Nat.eqb_spec (n / 10) 0) as [Hz|Hnz].
    + exists (String (Str.digit_char (n mod 10)) EmptyString).
      assert (n mod 10 < 10) by (apply Nat.mod_upper_bound; lia).
      repeat split.
      * discriminate.
      * cbn [all_digits]. now rewrite is_digit_digit_char.
      * unfold value. cbn [value_from]. rewrite value_digit_char by assumption.
        transitivity (10 * (n / 10) + n mod 10); [now rewrite Hz|].
        symmetry. apply Nat.div_mod_eq.
    + assert (Hle : n / 10 <= fuel).
      { assert (0 < n) by (destruct n; [now elim Hnz | apply Nat.lt_0_succ]).
        assert (n / 10 < n) by (apply Nat.div_lt; [assumption | repeat constructor]).
        apply Nat.lt_succ_r. eapply Nat.lt_le_trans; eassumption. }
      destruct (IH (n / 10) (String (Str.digit_char (n mod 10)) acc) Hle)
        as (pre & Hrun & Hne & Hdig & Hval).
      exists (pre ++ String (Str.digit_char (n mod 10)) EmptyString)%string.
      assert (n mod 10 < 10) by (apply Nat.mod_upper_bound; lia).
      repeat split.
      * cbn [Str.digits] in Hrun. rewrite Hrun. now rewrite string_app_assoc.
      * destruct pre; discriminate.
      * rewrite all_digits_app, Hdig. cbn [all_digits andb]. now rewrite is_digit_digit_char.
      * unfold value in *. rewrite value_from_app, Hval. cbn [value_from].
        rewrite value_digit_char by assumption.
        symmetry. apply Nat.div_mod_eq.
Qed.

(** [str(n)] is a non-empty string of digits that denotes [n]. *)
Lemma of_nat_spec n :
  Str.of_nat n <> EmptyString /\ all_digits (Str.of_nat n) = true /\ value (Str.of_nat n) = n.
Proof.
  unfold Str.of_nat. destruct (digits_spec n n EmptyString (le_n n)) as (pre & -> & H).
  rewrite string_app_nil_r. exact H.
Qed.

Lemma value_from_zeros k acc s :
  value_from acc (Str.replicate k "0" ++ s) = value_from (acc * 10 ^ k) s.
Proof.
  revert acc. induction k as [|k IH]; intros acc; simpl.
  - f_equal. lia.
  - rewrite IH. f_equal. lia.
Qed.

(** Zero padding changes neither the digits' nature nor the number. *)
Lemma rjust_zero_spec width n :
  all_digits (Str.rjust width "0" (Str.of_nat n)) = true /\
  value (Str.rjust width "0" (Str.of_nat n)) = n /\
  width <= String.length (Str.rjust width "0" (Str.of_nat n)) /\
  exists c rest, Str.rjust width "0" (Str.of_nat n) = String c rest /\ Str.is_digit c = true.
Proof.
  destruct (of_nat_spec n) as (Hne & Hdig & Hval). unfold Str.rjust.
  set (k := width - String.length (Str.of_nat n)).
  assert (Hall : all_digits (Str.replicate k "0" ++ Str.of_nat n) = true).
  { rewrite all_digits_app, Hdig, andb_true_r. clear. induction k; simpl; auto. }
  split; [exact Hall|]. split; [|split].
  - unfold value. rewrite value_from_zeros. simpl. exact Hval.
  - rewrite string_length_app, length_replicate. lia.
  - destruct (Str.replicate k "0" ++ Str.of_nat n)%string as [|c rest] eqn:E.
    + destruct k; [|discriminate]. simpl in E. contradiction.
    + exists c, rest. split; [reflexivity|]. simpl in Hall. now apply andb_prop in Hall.
Qed.

(** Below one hundred [:02d] writes two digits, below ten thousand [:04d]
    writes four. *)
Lemma format_02d_two n :
  n < 100 ->
  Str.format_02d n =
  String (Str.digit_char (n / 10)) (String (Str.digit_char (n mod 10)) EmptyString).
Proof.
  intros H. apply String.eqb_eq. revert n H.
  apply (forallb_below
           (fun n => (Str.format_02d n =?
                      String (Str.digit_char (n / 10))
                        (String (Str.digit_char (n mod 10)) EmptyString))%string)).
  vm_compute. reflexivity.
Qed.

Lemma format_02d_length n : n < 100 -> String.length (Str.format_02d n) = 2.
Proof. intros H. now rewrite format_02d_two. Qed.

Lemma format_04d_length n : n < 100 * 100 -> String.length (Str.format_04d n) = 4.
Proof.
  intros H. apply Nat.eqb_eq. revert n H.
  apply (forallb_below (fun n => String.length (Str.format_04d n) =? 4)).
  vm_compute. reflexivity.
Qed.

(* ================================================================== *)
(** * Discovery *)

Lemma mem_In x l : Str.mem x l = true <-> In x l.
Proof.
  unfold Str.mem. rewrite existsb_exists. split.
  - intros (y & Hy & E). apply String.eqb_eq in E. now subst.
  - intros H. exists x. split; [assumption | apply String.eqb_refl].
Qed.

(** The two loops of [get_audio_files] as a filter. *)
Lemma scan_files_spec exts root files acc :
  scan_files exts root files acc =
  acc ++ map (os_path.join root) (filter (fun f => Str.mem (file_ext_of f) exts) files).
Proof.
  unfold scan_files. revert acc.
  induction files as [|f files IH]; intros acc; simpl.
  - now rewrite app_nil_r.
  - rewrite IH. destruct (Str.mem (file_ext_of f) exts); simpl.
    + now rewrite <- app_assoc.
    + reflexivity.
Qed.

Lemma scan_walk_spec exts triples acc :
  scan_walk exts triples acc = acc ++ flat_map (matching exts) triples.
Proof.
  unfold scan_walk. revert acc.
  induction triples as [|[[root dirs] files] triples IH]; intros acc; simpl.
  - now rewrite app_nil_r.
  - rewrite IH, scan_files_spec. unfold matching at 2. simpl. now rewrite <- app_assoc.
Qed.

Lemma get_audio_files_eq input_dir exts w :
  get_audio_files input_dir exts w =
  (Returned (match os.lookup_tree input_dir (trees w) with
             | Some es => flat_map (matching (normalize exts)) (os.walk_tree input_dir es)
             | None => []
             end),
   set_stdout (stdout w ++ [("Searching for audio files in: " ++ input_dir)%string]) w).
Proof.
  unfold get_audio_files, os.walk. cbv [bind ret get_world modify print].
  change (trees (set_stdout _ w)) with (trees w).
  destruct (os.lookup_tree input_dir (trees w)); cbv [ret].
  - now rewrite scan_walk_spec.
  - reflexivity.
Qed.


Lemma flat_map_nested {A B C} (f : B -> list C) (g : A -> list B) l :
  flat_map f (flat_map g l) = flat_map (fun x => flat_map f (g x)) l.
Proof.
  induction l as [|x l IH]; simpl; [reflexivity|].
  now rewrite flat_map_app, IH.
Qed.

Lemma flat_map_map_fuse {A B C} (f : B -> list C) (g : A -> B) l :
  flat_map f (map g l) = flat_map (fun x => f (g x)) l.
Proof. induction l as [|x l IH]; simpl; [reflexivity | now rewrite IH]. Qed.

Lemma flat_map_ext_Forall {A B} (f g : A -> list B) l :
  Forall (fun x => f x = g x) l -> flat_map f l = flat_map g l.
Proof. induction 1 as [|x l E _ IH]; simpl; [reflexivity | now rewrite E, IH]. Qed.

Lemma found_unfold exts top es :
  found exts top es = own_files exts top es ++ flat_map (found_entry exts top) es.
Proof.
  unfold found, os.walk_tree. simpl. now rewrite flat_map_nested.
Qed.

Lemma found_entry_dir exts top d sub :
  found_entry exts top (Dir d true sub) = found exts (os_path.join top d) sub.
Proof. reflexivity. Qed.

Lemma own_files_cons_file exts top name st es :
  own_files exts top (File name st :: es) =
  (if is_audio exts name then [os_path.join top name] else []) ++ own_files exts top es.
Proof.
  unfold own_files. simpl. now destruct (is_audio exts name).
Qed.

Lemma shuffle_entries exts top es :
  Forall (fun n => forall top',
            Permutation (found_entry exts top' n)
                        (match n with File _ _ => [] | Dir _ _ _ => collect_entry exts top' n end)) es ->
  Permutation (own_files exts top es ++ flat_map (found_entry exts top) es)
              (collect exts top es).
Proof.
  unfold collect.
  induction 1 as [|n es Hn _ IH]; simpl; [constructor|].
  destruct n as [name st | d walked sub].
  - rewrite own_files_cons_file. change (found_entry exts top (File name st)) with (@nil string).
    simpl. rewrite <- app_assoc. now apply Permutation_app_head.
  - change (own_files exts top (Dir d walked sub :: es)) with (own_files exts top es).
    rewrite Permutation_app_swap_app.
    apply Permutation_app; [apply Hn | exact IH].
Qed.

Lemma found_entry_collect exts n top :
  Permutation (found_entry exts top n)
              (match n with File _ _ => [] | Dir _ _ _ => collect_entry exts top n end).
Proof.
  revert top. induction n as [name st | d walked sub IH] using node_rect'; intros top.
  - constructor.
  - destruct walked; [|constructor].
    rewrite found_entry_dir, found_unfold. simpl.
    now apply shuffle_entries.
Qed.

(** The walk finds the matching files of the tree, each as often as the
    tree holds it. *)
Lemma found_collect exts top es :
  Permutation (found exts top es) (collect exts top es).
Proof.
  rewrite found_unfold. apply shuffle_entries.
  apply Forall_forall. intros n _ top'. apply found_entry_collect.
Qed.

Lemma collect_reachable exts top es path :
  In path (collect exts top es) <->
  exists name, reachable top es name path /\ is_audio exts name = true.
Proof.
  split.
  - revert top path.
    assert (H : forall n top path,
               In path (collect_entry exts top n) ->
               match n with
               | File name _ => path = os_path.join top name /\ is_audio exts name = true
               | Dir d walked sub =>
                   walked = true /\
                   exists name, reachable (os_path.join top d) sub name path
                                /\ is_audio exts name = true
               end).
    { induction n as [name st | d walked sub IH] using node_rect'; intros top path Hin.
      - simpl in Hin. destruct (is_audio exts name) eqn:E; [|contradiction].
        destruct Hin as [<- | []]. now split.
      - simpl in Hin. destruct walked; [|contradiction]. split; [reflexivity|].
        apply in_flat_map in Hin. destruct Hin as (n & Hn & Hin).
        rewrite Forall_forall in IH. specialize (IH n Hn _ _ Hin).
        destruct n as [name st | d' walked' sub'].
        + destruct IH as [-> Ha]. exists name. split; [|exact Ha].
          eapply reach_file. exact Hn.
        + destruct IH as (-> & name & Hr & Ha). exists name. split; [|exact Ha].
          eapply reach_dir; eassumption. }
    intros top path Hin. apply in_flat_map in Hin. destruct Hin as (n & Hn & Hin).
    specialize (H n top path Hin). destruct n as [name st | d walked sub].
    + destruct H as [-> Ha]. exists name. split; [|exact Ha]. eapply reach_file. exact Hn.
    + destruct H as (-> & name & Hr & Ha). exists name. split; [|exact Ha].
      eapply reach_dir; eassumption.
  - intros (name & Hr & Ha). induction Hr as [top es name st Hin | top es d sub name path Hin Hr IH].
    + apply in_flat_map. exists (File name st). split; [exact Hin|].
      simpl. rewrite Ha. now left.
    + apply in_flat_map. exists (Dir d true sub). split; [exact Hin|].
      simpl. apply IH. exact Ha.
Qed.

Lemma names_forget es :
  os.dirnames (map forget es) = os.dirnames es /\
  os.filenames (map forget es) = os.filenames es.
Proof.
  induction es as [|[name st | d walked sub] es [IHd IHf]]; simpl; split; congruence.
Qed.

Lemma walk_entry_forget n top : os.walk_entry top (forget n) = os.walk_entry top n.
Proof.
  revert top. induction n as [name st | d walked sub IH] using node_rect'; intros top.
  - reflexivity.
  - simpl. destruct walked; [|reflexivity].
    destruct (names_forget sub) as [-> ->]. f_equal.
    rewrite flat_map_map_fuse. apply flat_map_ext_Forall.
    eapply Forall_impl; [|exact IH]. intros n Hn. apply Hn.
Qed.

Lemma walk_tree_forget top es : os.walk_tree top (map forget es) = os.walk_tree top es.
Proof.
  unfold os.walk_tree. destruct (names_forget es) as [-> ->]. f_equal.
  rewrite flat_map_map_fuse. apply flat_map_ext_Forall.
  apply Forall_forall. intros n _. apply walk_entry_forget.
Qed.

Lemma collect_relisted exts es es' :
  relisted es es' -> forall top, Permutation (collect exts top es) (collect exts top es').
Proof.
  intros H.
  induction H using relisted_mut
    with (P0 := fun n n' _ =>
                  forall top, Permutation (collect_entry exts top n) (collect_entry exts top n'));
    intros top; unfold collect in *; simpl.
  - constructor.
  - apply Permutation_app; [apply IHrelisted | apply IHrelisted0].
  - rewrite !app_assoc. apply Permutation_app_tail, Permutation_app_comm.
  - etransitivity; [apply IHrelisted1 | apply IHrelisted2].
  - reflexivity.
  - destruct walked; [apply IHrelisted | constructor].
Qed.


Lemma relisted_refl es : relisted es es.
Proof.
  assert (H : forall n, relisted_node n n).
  { induction n as [name st | d walked sub IH] using node_rect'; constructor.
    induction IH; constructor; assumption. }
  induction es; constructor; auto.
Qed.

Lemma is_audio_In exts name :
  is_audio exts name = true <-> In (file_ext_of name) (normalize exts).
Proof. apply mem_In. Qed.

(** ** The extension as the specification words it *)

Lemma lower_char_fold c : Str.lower_char c = fold_letter capitals smalls c.
Proof. destruct c as [[] [] [] [] [] [] [] []]; vm_compute; reflexivity. Qed.

Lemma lower_case_fold s : Str.lower s = case_fold s.
Proof.
  induction s as [|c s IH]; [reflexivity|]. cbn [Str.lower case_fold].
  now rewrite lower_char_fold, IH.
Qed.

Lemma all_char_app c a b : Str.all_char c (a ++ b) = Str.all_char c a && Str.all_char c b.
Proof.
  induction a as [|x a IH]; [reflexivity|]. cbn [append Str.all_char].
  now rewrite IH, andb_assoc.
Qed.

Lemma all_char_replicate k c : Str.all_char c (Str.replicate k c) = true.
Proof.
  induction k as [|k IH]; [reflexivity|]. cbn [Str.replicate Str.all_char].
  now rewrite Ascii.eqb_refl, IH.
Qed.

Lemma all_char_is_replicate c s :
  Str.all_char c s = true -> s = Str.replicate (String.length s) c.
Proof.
  induction s as [|x s IH]; [reflexivity|]. cbn [Str.all_char String.length Str.replicate].
  intros H. apply andb_prop in H. destruct H as [Hx Hs]. apply Ascii.eqb_eq in Hx.
  subst x. f_equal. now apply IH.
Qed.

(** A name is dots followed by text that begins with no dot. *)
Lemma leading_dots s :
  exists k rest, s = (Str.replicate k "." ++ rest)%string /\ Str.startswith "." rest = false.
Proof.
  induction s as [|c s IH]; [now exists 0, EmptyString|].
  destruct (Ascii.eqb_spec c ".") as [->|Hc].
  - destruct IH as (k & rest & -> & Hrest). now exists (S k), rest.
  - exists 0, (String c s). split; [reflexivity|]. cbn [Str.startswith].
    now apply Ascii.eqb_neq.
Qed.

(** Text with a dot is cut at its last dot. *)
Lemma last_dot s :
  Str.lacks "." s = false ->
  exists a e, s = (a ++ String "." e)%string /\ Str.lacks "." e = true.
Proof.
  induction s as [|c s IH]; [discriminate|]. cbn [Str.lacks]. intros H.
  destruct (Str.lacks "." s) eqn:Hs.
  - rewrite andb_true_r in H. apply negb_false_iff, Ascii.eqb_eq in H. subst c.
    now exists EmptyString, s.
  - destruct (IH eq_refl) as (a & e & -> & He). now exists (String c a), e.
Qed.

(** Every name has an extension or none. *)
Lemma extension_total name : exists e, extension_of name e.
Proof.
  destruct (leading_dots name) as (k & rest & -> & Hrest).
  destruct (Str.lacks "." rest) eqn:Hdot.
  - exists EmptyString. now constructor.
  - destruct (last_dot rest Hdot) as (a & e & -> & He). exists e.
    rewrite <- string_app_assoc. constructor; [exact He|].
    rewrite all_char_app. apply andb_false_intro2.
    destruct a as [|x a]; [cbn in Hrest; discriminate|].
    cbn [append Str.startswith] in Hrest. cbn [Str.all_char]. now rewrite Hrest.
Qed.

(** Line 32 computes the extension of the specification, case-folded. *)
Lemma extension_file_ext name e :
  Str.lacks "/" name = true -> extension_of name e -> file_ext_of name = case_fold e.
Proof.
  intros Hsep He. rewrite <- lower_case_fold. destruct He as [stem e He Hstem | k rest Hrest].
  - now apply file_ext_of_ext.
  - now apply file_ext_of_no_ext.
Qed.

Lemma lstrip_split c s :
  exists a, s = (a ++ Str.lstrip c s)%string /\ Str.all_char c a = true /\
            Str.startswith c (Str.lstrip c s) = false.
Proof.
  induction s as [|x s IH]; [now exists EmptyString|]. cbn [Str.lstrip].
  destruct (Ascii.eqb_spec x c) as [->|Hx].
  - destruct IH as (a & Hs & Ha & Hstart). exists (String c a). cbn [append Str.all_char].
    rewrite Ascii.eqb_refl, Ha, <- Hs. now repeat split.
  - exists EmptyString. repeat split. cbn [Str.startswith]. now apply Ascii.eqb_neq.
Qed.

Lemma rstrip_split c s :
  exists b, s = (Str.rstrip c s ++ b)%string /\ Str.all_char c b = true /\
            Str.endswith c (Str.rstrip c s) = false.
Proof.
  induction s as [|x s IH]; [now exists EmptyString|].
  destruct IH as (b & Hs & Hb & Hend). cbn [Str.rstrip].
  destruct (Str.rstrip c s) as [|y r] eqn:E.
  - cbn [append] in Hs. subst b. destruct (Ascii.eqb_spec x c) as [->|Hx].
    + exists (String c s). cbn [append Str.all_char]. rewrite Ascii.eqb_refl, Hb.
      now repeat split.
    + exists s. repeat split; [exact Hb|]. cbn [Str.endswith]. now apply Ascii.eqb_neq.
  - exists b. cbn [append]. rewrite Hs at 1. repeat split; [exact Hb|].
    cbn [Str.endswith] in Hend |- *. exact Hend.
Qed.

Lemma rstrip_keeps_start c s :
  Str.startswith c s = false -> Str.startswith c (Str.rstrip c s) = false.
Proof.
  destruct s as [|x s]; [trivial|]. cbn [Str.startswith Str.rstrip]. intros Hx.
  destruct (Str.rstrip c s); [|exact Hx]. now rewrite Hx.
Qed.

Lemma lstrip_app_all c a s : Str.all_char c a = true -> Str.lstrip c (a ++ s) = Str.lstrip c s.
Proof.
  induction a as [|x a IH]; [trivial|]. cbn [Str.all_char append Str.lstrip]. intros H.
  apply andb_prop in H. destruct H as [Hx Ha]. rewrite Hx. now apply IH.
Qed.

Lemma lstrip_id c s : Str.startswith c s = false -> Str.lstrip c s = s.
Proof. destruct s as [|x s]; [trivial|]. cbn [Str.startswith Str.lstrip]. now intros ->. Qed.

Lemma rstrip_all c s : Str.all_char c s = true -> Str.rstrip c s = EmptyString.
Proof.
  induction s as [|x s IH]; [trivial|]. cbn [Str.all_char Str.rstrip]. intros H.
  apply andb_prop in H. destruct H as [Hx Hs]. now rewrite (IH Hs), Hx.
Qed.

Lemma rstrip_app_all c b s : Str.all_char c b = true -> Str.rstrip c (s ++ b) = Str.rstrip c s.
Proof.
  intros Hb. induction s as [|x s IH]; [now apply rstrip_all|].
  cbn [append Str.rstrip]. now rewrite IH.
Qed.

Lemma rstrip_id c s : Str.endswith c s = false -> Str.rstrip c s = s.
Proof.
  induction s as [|x s IH]; [trivial|]. cbn [Str.rstrip]. destruct s as [|y t].
  - cbn [Str.endswith Str.rstrip]. now intros ->.
  - intros H. change (Str.endswith c (String x (String y t))) with (Str.endswith c (String y t)) in H.
    now rewrite (IH H).
Qed.

(** [str.strip('.')] gives the text without the dots at its ends, and
    nothing else does. *)
Lemma strip_trimmed s core : trimmed s core <-> Str.strip "." s = core.
Proof.
  split.
  - intros (a & b & -> & Ha & Hb & Hstart & Hend). destruct core as [|x core].
    + apply strip_empty_iff. cbn [append]. now rewrite all_char_app, Ha, Hb.
    + unfold Str.strip. rewrite (lstrip_app_all _ _ _ Ha), lstrip_id by exact Hstart.
      now rewrite (rstrip_app_all _ _ _ Hb), rstrip_id.
  - intros <-. unfold Str.strip.
    destruct (lstrip_split "." s) as (a & Hs & Ha & Hstart).
    destruct (rstrip_split "." (Str.lstrip "." s)) as (b & Hl & Hb & Hend).
    exists a, b. repeat split; try assumption.
    + rewrite <- Hl. exact Hs.
    + now apply rstrip_keeps_start.
Qed.

Lemma allowed_normalize extensions e :
  allowed extensions e <-> In (case_fold e) (normalize extensions).
Proof.
  unfold allowed, normalize. rewrite in_map_iff. split.
  - intros (t & Ht & Htrim). exists t. split; [|exact Ht].
    rewrite lower_case_fold. now apply strip_trimmed.
  - intros (t & E & Ht). exists t. split; [exact Ht|].
    apply strip_trimmed. now rewrite <- lower_case_fold.
Qed.

Lemma reachable_plain top es name path :
  reachable top es name path -> forallb plain_names es = true -> Str.lacks "/" name = true.
Proof.
  induction 1 as [top es name st Hin | top es d sub name path Hin Hr IH]; intros Hall;
    rewrite forallb_forall in Hall.
  - exact (Hall _ Hin).
  - apply IH. exact (Hall _ Hin).
Qed.

(** C1. Discovery returns exactly the paths of the files that recursive
    descent from the root reaches (through the directories os.walk
    enters) and whose extension is in the allowed set: the extension is
    what follows the last dot of the name, the allowed set holds the tokens
    of the list, and the two are compared case-folded, the token without
    the dots at its ends. The size, mode and content of the files have no
    part in it: a tree that differs in them only yields the same list. *)
Theorem get_audio_files_exact w w2 input_dir tree tree2 extensions :
  os.lookup_tree input_dir (trees w) = Some tree ->
  os.lookup_tree input_dir (trees w2) = Some tree2 ->
  map forget tree2 = map forget tree ->
  forallb plain_names tree = true ->
  exists files w',
    get_audio_files input_dir extensions w = (Returned files, w') /\
    (forall path,
        In path files <->
        exists name e,
          reachable input_dir tree name path /\ extension_of name e /\
          allowed extensions e) /\
    (forall path,
        In path files <->
        exists name, reachable input_dir tree name path /\
                     In (file_ext_of name) (normalize extensions)) /\
    fst (get_audio_files input_dir extensions w2) = Returned files.
Proof.
  intros Ht Ht2 Hsame Hplain. rewrite !get_audio_files_eq, Ht, Ht2.
  eexists. eexists. split; [reflexivity|].
  assert (Hcode : forall path,
             In path (flat_map (matching (normalize extensions))
                               (os.walk_tree input_dir tree)) <->
             exists name, reachable input_dir tree name path /\
                          In (file_ext_of name) (normalize extensions)).
  { intros path. fold (found extensions input_dir tree).
    transitivity (In path (collect extensions input_dir tree)).
    + split; apply Permutation_in; [|symmetry]; apply found_collect.
    + rewrite collect_reachable. split; intros (name & Hr & Ha); exists name;
        (split; [exact Hr | now apply is_audio_In]). }
  split; [|split; [exact Hcode|]].
  - intros path. rewrite Hcode. split.
    + intros (name & Hr & Hin). destruct (extension_total name) as [e He].
      exists name, e. split; [exact Hr|]. split; [exact He|].
      apply allowed_normalize.
      rewrite <- (extension_file_ext name e (reachable_plain _ _ _ _ Hr Hplain) He).
      exact Hin.
    + intros (name & e & Hr & He & Hal). exists name. split; [exact Hr|].
      rewrite (extension_file_ext name e (reachable_plain _ _ _ _ Hr Hplain) He).
      now apply allowed_normalize.
  - cbn [fst]. now rewrite <- (walk_tree_forget input_dir tree2), Hsame, walk_tree_forget.
Qed.

Lemma get_audio_files_exact_witness :
  exists files w',
    get_audio_files "lib" Demo.default_extensions Demo.w0 = (Returned files, w') /\
    (forall path,
        In path files <->
        exists name e,
          reachable "lib" Demo.library name path /\ extension_of name e /\
          allowed Demo.default_extensions e) /\
    (forall path,
        In path files <->
        exists name, reachable "lib" Demo.library name path /\
                     In (file_ext_of name) (normalize Demo.default_extensions)) /\
    fst (get_audio_files "lib" Demo.default_extensions Demo.w_restat) = Returned files.
Proof.
  apply (get_audio_files_exact Demo.w0 Demo.w_restat "lib" Demo.library Demo.library_restat);
    reflexivity.
Defined.

(** The words of the specification on concrete names: the case of the
    suffix and of the token does not matter, of several suffixes the last
    counts, and a name of one leading dot has no extension. *)
Example extension_examples :
  extension_of "Snare.WAV" "WAV" /\ allowed ["wav"] "WAV" /\ allowed [".Wav."] "wav" /\
  extension_of "kit.tar.gz" "gz" /\ extension_of ".wav" "" /\ ~ allowed ["wav"] "".
Proof.
  split; [exact (ext_last "Snare" "WAV" eq_refl eq_refl)|].
  split; [apply allowed_normalize; now left|].
  split; [apply allowed_normalize; now left|].
  split; [exact (ext_last "kit.tar" "gz" eq_refl eq_refl)|].
  split; [exact (ext_none 1 "wav" eq_refl)|].
  intros H. apply allowed_normalize in H. destruct H as [H|[]]. discriminate H.
Qed.


Lemma demo_relisted : relisted Demo.library Demo.library_relisted.
Proof.
  unfold Demo.library, Demo.library_relisted.
  eapply relisted_trans; [apply relisted_swap|].
  repeat (apply relisted_cons; [constructor|]); try apply relisted_nil.
  apply relisted_swap.
Qed.

(** C8. Discovery changes neither the library nor the file system, so a
    second run returns the same list; and over the same tree listed in
    another order it returns the same paths, each as often, in some order. *)
Theorem get_audio_files_idempotent w w' input_dir extensions :
  same_listing (os.lookup_tree input_dir (trees w)) (os.lookup_tree input_dir (trees w')) ->
  exists files files' w1 w2 w1',
    get_audio_files input_dir extensions w = (Returned files, w1) /\
    trees w1 = trees w /\ fs w1 = fs w /\
    get_audio_files input_dir extensions w1 = (Returned files, w2) /\
    get_audio_files input_dir extensions w' = (Returned files', w1') /\
    Permutation files files' /\
    (forall path, In path files <-> In path files').
Proof.
  intros Hsame. rewrite (get_audio_files_eq input_dir extensions w).
  do 5 eexists. split; [reflexivity|]. split; [reflexivity|]. split; [reflexivity|].
  rewrite !get_audio_files_eq.
  change (trees (set_stdout _ w)) with (trees w).
  split; [reflexivity|]. split; [reflexivity|].
  assert (HP : Permutation
                 (match os.lookup_tree input_dir (trees w) with
                  | Some es => flat_map (matching (normalize extensions)) (os.walk_tree input_dir es)
                  | None => []
                  end)
                 (match os.lookup_tree input_dir (trees w') with
                  | Some es => flat_map (matching (normalize extensions)) (os.walk_tree input_dir es)
                  | None => []
                  end)).
  { destruct (os.lookup_tree input_dir (trees w)) as [es|],
             (os.lookup_tree input_dir (trees w')) as [es'|]; simpl in Hsame;
      try contradiction; [|constructor].
    fold (found extensions input_dir es) (found extensions input_dir es').
    rewrite !found_collect. now apply collect_relisted. }
  split; [exact HP|].
  intros path. split; apply Permutation_in; [|symmetry]; exact HP.
Qed.

Lemma get_audio_files_idempotent_witness :
  exists files files' w1 w2 w1',
    get_audio_files "lib" Demo.default_extensions Demo.w0 = (Returned files, w1) /\
    trees w1 = trees Demo.w0 /\ fs w1 = fs Demo.w0 /\
    get_audio_files "lib" Demo.default_extensions w1 = (Returned files, w2) /\
    get_audio_files "lib" Demo.default_extensions Demo.w_relisted = (Returned files', w1') /\
    Permutation files files' /\
    (forall path, In path files <-> In path files').
Proof.
  apply (get_audio_files_idempotent Demo.w0 Demo.w_relisted "lib" Demo.default_extensions).
  exact demo_relisted.
Defined.

Lemma mem_empty_normalize exts :
  Str.mem EmptyString (normalize exts) = existsb (Str.all_char ".") exts.
Proof.
  unfold Str.mem, normalize. induction exts as [|e exts IH]; [reflexivity|].
  cbn [map existsb]. rewrite IH. f_equal.
  destruct (Str.all_char "." e) eqn:E.
  - rewrite <- all_char_lower in E. apply strip_empty_iff in E. now rewrite E.
  - destruct (Str.strip "." (Str.lower e)) eqn:S; [|reflexivity].
    apply strip_empty_iff in S. rewrite all_char_lower in S. congruence.
Qed.

(** C9. A file name made of leading dots and a dot-free rest (no dot at
    all, or a hidden name such as [.wav]) has the empty extension: a
    directory that holds it yields it exactly when some token of the
    extension list consists of dots only, and the list made of the very
    letters after its dots does not select it. *)
Theorem hidden_file_has_no_extension k s st w input_dir extensions :
  Str.lacks "." s = true ->
  os.lookup_tree input_dir (trees w) = Some [File (Str.replicate k "." ++ s) st] ->
  file_ext_of (Str.replicate k "." ++ s) = EmptyString /\
  (In EmptyString (normalize extensions) <->
   exists e, In e extensions /\ Str.all_char "." e = true) /\
  (is_audio extensions (Str.replicate k "." ++ s) = true <->
   In EmptyString (normalize extensions)) /\
  fst (get_audio_files input_dir extensions w) =
    Returned (if existsb (Str.all_char ".") extensions
              then [os_path.join input_dir (Str.replicate k "." ++ s)] else []) /\
  (s <> EmptyString -> is_audio [s] (Str.replicate k "." ++ s) = false).
Proof.
  intros Hs Ht.
  assert (Hext := file_ext_of_no_ext k s Hs).
  assert (Haudio : forall exts, is_audio exts (Str.replicate k "." ++ s)
                                = existsb (Str.all_char ".") exts).
  { intros exts. unfold is_audio. rewrite Hext. apply mem_empty_normalize. }
  split; [exact Hext|]. split; [|split; [|split]].
  - rewrite <- mem_In, mem_empty_normalize, existsb_exists. reflexivity.
  - rewrite <- mem_In. unfold is_audio. now rewrite Hext.
  - rewrite get_audio_files_eq, Ht. cbn [fst].
    fold (found extensions input_dir [File (Str.replicate k "." ++ s) st]).
    rewrite found_unfold, own_files_cons_file, Haudio.
    now destruct (existsb (Str.all_char ".") extensions).
  - intros Hne. rewrite Haudio. simpl. rewrite orb_false_r.
    destruct s as [|a s]; [contradiction|]. simpl in *.
    apply andb_prop in Hs. destruct Hs as [Ha _]. apply negb_true_iff in Ha.
    now rewrite Ha.
Qed.

Lemma hidden_file_has_no_extension_witness :
  file_ext_of ".wav" = EmptyString /\
  (In EmptyString (normalize ["wav"; "."]) <->
   exists e, In e ["wav"; "."] /\ Str.all_char "." e = true) /\
  (is_audio ["wav"; "."] ".wav" = true <-> In EmptyString (normalize ["wav"; "."])) /\
  fst (get_audio_files "lib" ["wav"; "."] Demo.w_hidden) =
    Returned (if existsb (Str.all_char ".") ["wav"; "."]
              then [os_path.join "lib" ".wav"] else []) /\
  ("wav" <> EmptyString -> is_audio ["wav"] ".wav" = false).
Proof.
  apply (hidden_file_has_no_extension 1 "wav" Demo.st0 Demo.w_hidden "lib" ["wav"; "."]);
    reflexivity.
Defined.


(* ================================================================== *)
(** * Kit assembly *)

Lemma symlink_run src dst w :
  os.symlink src dst w =
  match os.lookup dst (fs w) with
  | Some _ => (Raised (FileExistsError dst), w)
  | None =>
      if Str.mem dst (refused w) then (Raised (OSError dst), w)
      else (Returned tt,
            set_events (events w ++ [Linked src dst])
                       (set_fs (os.update dst (Symlink src) (fs w)) w))
  end.
Proof.
  unfold os.symlink. cbv [bind get_world].
  destruct (os.lookup dst (fs w)); [reflexivity|].
  destruct (Str.mem dst (refused w)); reflexivity.
Qed.

Lemma resolve_not_symlink fuel f p q :
  os.resolve fuel f p = Some q ->
  match os.lookup q f with Some (Symlink _) => False | _ => True end.
Proof.
  revert p. induction fuel as [|fuel IH]; intros p; cbn [os.resolve].
  - destruct (os.lookup p f) as [[data| |t]|] eqn:E; try discriminate;
      intros [= <-]; now rewrite E.
  - destruct (os.lookup p f) as [[data| |t]|] eqn:E; try (intros [= <-]; now rewrite E).
    apply IH.
Qed.

(** A placement either raises and leaves the world as it was, or binds one
    path, which held no directory and no link, and records one event. *)
Lemma place_frame sym src dst w r w' :
  place sym src dst w = (r, w') ->
  match r with
  | Raised _ => w' = w
  | Returned _ =>
      exists d i ev,
        w' = set_events (events w ++ [ev]) (set_fs (os.update d i (fs w)) w) /\
        placed_path ev = Some d /\ event_source ev = Some src /\
        plain (fs w) d = true /\
        (sym = true -> d = dst /\ i = Symlink src /\ ev = Linked src dst) /\
        (sym = false -> exists data, i = RegFile data /\ ev = Copied src d)
  end.
Proof.
  unfold place. destruct sym.
  - rewrite symlink_run. destruct (os.lookup dst (fs w)) eqn:E.
    + intros [= <- <-]. reflexivity.
    + destruct (Str.mem dst (refused w)); intros [= <- <-]; [reflexivity|].
      exists dst, (Symlink src), (Linked src dst). unfold plain. rewrite E.
      repeat split; discriminate.
  - unfold shutil.copy2. cbv [bind get_world].
    set (dst' := if os.isdir (fs w) dst then _ else dst).
    destruct (os.resolve os.MAXSYMLINKS (fs w) src) as [s0|];
      [|intros [= <- <-]; reflexivity].
    destruct (os.resolve os.MAXSYMLINKS (fs w) dst') as [d|] eqn:Hres;
      [|intros [= <- <-]; reflexivity].
    apply resolve_not_symlink in Hres.
    destruct ((s0 =? d)%string && os.exists_ (fs w) d); [intros [= <- <-]; reflexivity|].
    destruct (shutil.read_file w src) as [data|e]; [|intros [= <- <-]; reflexivity].
    destruct (os.lookup d (fs w)) as [[data0| |t]|] eqn:E;
      try (intros [= <- <-]; reflexivity); try contradiction;
      (destruct (Str.mem d (refused w)); intros [= <- <-]; [reflexivity|];
       exists d, (RegFile data), (Copied src d); unfold plain; rewrite E;
       repeat split; try discriminate;
       intros _; exists data; split; reflexivity).
Qed.

Lemma place_files_cons sym kit_dir i f rest w :
  place_files sym kit_dir i (f :: rest) w =
  match place sym f (dest_path_of kit_dir i f) w with
  | (Returned _, w1) =>
      place_files sym kit_dir (S i) rest (set_stdout (stdout w1 ++ [placed_line i f]) w1)
  | (Raised e, w1) =>
      (Returned false, set_stdout (stdout w1 ++ [error_line sym f e]) w1)
  end.
Proof.
  cbn [place_files]. unfold place, dest_path_of, placed_line, error_line.
  cbv [bind try_except print modify ret].
  destruct sym.
  - destruct (os.symlink f _ w) as [[[]|e] w1]; reflexivity.
  - destruct (shutil.copy2 f _ w) as [[[]|e] w1]; reflexivity.
Qed.

(** The placement loop always returns: an error of a placement is caught. *)
Lemma place_files_total sym kit_dir selected i w :
  exists b w', place_files sym kit_dir i selected w = (Returned b, w').
Proof.
  revert i w. induction selected as [|f rest IH]; intros i w.
  - now exists true, w.
  - rewrite place_files_cons.
    destruct (place sym f (dest_path_of kit_dir i f) w) as [[[]|e] w1].
    + apply IH.
    + eauto.
Qed.

Lemma plain_resolve f p :
  plain f p = true -> os.isdir f p = false /\ os.resolve os.MAXSYMLINKS f p = Some p.
Proof.
  unfold plain, os.isdir, os.MAXSYMLINKS. cbn [os.resolve].
  destruct (os.lookup p f) as [[data| |t]|] eqn:E; try discriminate; intros _;
    rewrite ?E; split; reflexivity.
Qed.

Lemma lookup_update d i f p :
  os.lookup p (os.update d i f) = if (d =? p)%string then Some i else os.lookup p f.
Proof. reflexivity. Qed.

Lemma plain_update d data f p :
  plain f p = true -> plain (os.update d (RegFile data) f) p = true.
Proof.
  unfold plain. rewrite lookup_update. now destruct (d =? p)%string.
Qed.

(** In copy mode a plain destination is written where the script asked. *)
Lemma copy_lands sym src dst w w' :
  place sym src dst w = (Returned tt, w') ->
  (sym = false -> plain (fs w) dst = true) ->
  exists i,
    w' = set_events (events w ++ [if sym then Linked src dst else Copied src dst])
                    (set_fs (os.update dst i (fs w)) w) /\
    (sym = false -> exists data, i = RegFile data).
Proof.
  intros Hp Hplain. destruct sym.
  - apply place_frame in Hp. destruct Hp as (d & i & ev & -> & _ & _ & _ & Hs & _).
    destruct (Hs eq_refl) as (-> & -> & ->). eexists. split; [reflexivity | discriminate].
  - specialize (Hplain eq_refl). destruct (plain_resolve _ _ Hplain) as [Hdir Hres].
    unfold place, shutil.copy2 in Hp. cbv [bind get_world] in Hp.
    rewrite Hdir, Hres in Hp.
    destruct (os.resolve os.MAXSYMLINKS (fs w) src) as [s0|]; [|discriminate].
    destruct ((s0 =? dst)%string && os.exists_ (fs w) dst); [discriminate|].
    destruct (shutil.read_file w src) as [data|e]; [|discriminate].
    destruct (os.lookup dst (fs w)) as [[data0| |t]|]; try discriminate;
      (destruct (Str.mem dst (refused w)); [discriminate|];
       injection Hp as <-; exists (RegFile data); split; [reflexivity | eauto]).
Qed.

(** The loop places a prefix of the selection, in order and at the
    destinations of line 68, and returns [True] exactly when the prefix is
    the whole selection. *)
Lemma place_files_events sym kit_dir selected i w :
  (sym = false -> Forall (fun p => plain (fs w) p = true) (dest_paths kit_dir i selected)) ->
  exists n w',
    place_files sym kit_dir i selected w = (Returned (n =? List.length selected), w') /\
    n <= List.length selected /\
    events w' = events w ++ placements sym kit_dir i (firstn n selected) /\
    (forall p, os.lookup p (fs w) <> None -> os.lookup p (fs w') <> None) /\
    (forall p, In p (dest_paths kit_dir i (firstn n selected)) -> os.lookup p (fs w') <> None).
Proof.
  revert i w. induction selected as [|f rest IH]; intros i w Hplain.
  - exists 0, w. simpl. rewrite app_nil_r. repeat split; auto; try now intros p [].
  - rewrite place_files_cons.
    destruct (place sym f (dest_path_of kit_dir i f) w) as [[[]|e] w1] eqn:Hp.
    + apply copy_lands in Hp.
      2:{ intros Hs. specialize (Hplain Hs). cbn [dest_paths] in Hplain.
          now apply Forall_inv in Hplain. }
      destruct Hp as (ino & -> & Hino).
      match goal with |- context [place_files _ _ _ _ ?w0] => set (w1 := w0) end.
      destruct (IH (S i) w1) as (n & w' & Hrun & Hn & Hev & Hmono & Hplaced).
      { intros Hs. destruct (Hino Hs) as (data & ->).
        specialize (Hplain Hs). cbn [dest_paths] in Hplain.
        apply Forall_inv_tail in Hplain.
        eapply Forall_impl; [|exact Hplain]. intros p Hpl. now apply plain_update. }
      exists (S n), w'. rewrite Hrun. cbn [List.length firstn placements dest_paths].
      repeat split.
      * lia.
      * rewrite Hev. subst w1. cbn [events set_stdout set_events].
        rewrite <- app_assoc. unfold placement. reflexivity.
      * intros p Hin. apply Hmono. subst w1. cbn [fs set_stdout set_events set_fs].
        rewrite lookup_update. now destruct (_ =? p)%string.
      * intros p [<- | Hin]; [|now apply Hplaced].
        apply Hmono. subst w1. cbn [fs set_stdout set_events set_fs].
        rewrite lookup_update, String.eqb_refl. discriminate.
    + apply place_frame in Hp. subst w1.
      exists 0. eexists. split; [reflexivity|]. cbn [firstn placements dest_paths].
      rewrite app_nil_r. repeat split; auto; try (cbn [List.length]; lia); try now intros p [].
Qed.

Lemma place_files_app sym kit_dir pre rest i w w1 :
  place_files sym kit_dir i pre w = (Returned true, w1) ->
  place_files sym kit_dir i (pre ++ rest) w =
  place_files sym kit_dir (i + List.length pre) rest w1.
Proof.
  revert i w. induction pre as [|f pre IH]; intros i w H.
  - simpl in H. injection H as <-. now rewrite Nat.add_0_r.
  - rewrite place_files_cons in H. cbn [app List.length]. rewrite place_files_cons.
    destruct (place sym f (dest_path_of kit_dir i f) w) as [[[]|e] w0]; [|discriminate].
    rewrite (IH _ _ H). f_equal. lia.
Qed.


Lemma resolve_update fuel f d i : forall p q,
  os.resolve fuel f p = Some q -> os.lookup q f = Some Directory ->
  plain f d = true ->
  os.resolve fuel (os.update d i f) p = Some q.
Proof.
  induction fuel as [|fuel IH]; intros p q Hres Hq Hd; cbn [os.resolve] in *;
    rewrite lookup_update; destruct (String.eqb_spec d p) as [->|Hne].
  - unfold plain in Hd. destruct (os.lookup p f) as [[data| |t]|] eqn:E; try discriminate;
      injection Hres as <-; rewrite E in Hq; discriminate.
  - destruct (os.lookup p f) as [[data| |t]|]; congruence.
  - unfold plain in Hd. destruct (os.lookup p f) as [[data| |t]|] eqn:E; try discriminate;
      injection Hres as <-; rewrite E in Hq; discriminate.
  - destruct (os.lookup p f) as [[data| |t]|]; try congruence. now apply IH.
Qed.

(** Binding a path that held no directory and no link keeps every
    directory a directory. *)
Lemma isdir_update f d i p :
  os.isdir f p = true -> plain f d = true -> os.isdir (os.update d i f) p = true.
Proof.
  unfold os.isdir. intros H Hd.
  destruct (os.resolve os.MAXSYMLINKS f p) as [q|] eqn:Hres; [|discriminate].
  destruct (os.lookup q f) as [[data| |t]|] eqn:Hq; try discriminate.
  rewrite (resolve_update _ _ _ _ _ _ Hres Hq Hd), lookup_update.
  destruct (String.eqb_spec d q) as [->|Hne]; [|now rewrite Hq].
  unfold plain in Hd. rewrite Hq in Hd. discriminate.
Qed.

(** What the loop leaves alone, and what its events say: the sources of
    the placements are a prefix of the selection, the whole of it exactly
    when the loop returns [True]; no path is unbound, and every file placed
    is there at the end. *)
Lemma place_files_frame sym kit_dir selected : forall i w b w',
  place_files sym kit_dir i selected w = (Returned b, w') ->
  trees w' = trees w /\ refused w' = refused w /\ clock w' = clock w /\ rng w' = rng w /\
  (forall p, os.isdir (fs w) p = true -> os.isdir (fs w') p = true) /\
  (forall p, os.lookup p (fs w) <> None -> os.lookup p (fs w') <> None) /\
  exists evs n,
    events w' = events w ++ evs /\
    map event_source evs = map Some (firstn n selected) /\
    n <= List.length selected /\
    (b = true <-> n = List.length selected) /\
    Forall (fun ev => exists d, placed_path ev = Some d /\ os.lookup d (fs w') <> None) evs.
Proof.
  induction selected as [|f rest IH]; intros i w b w' H.
  - injection H as <- <-. repeat split; auto.
    exists [], 0. rewrite app_nil_r. repeat split; auto.
  - rewrite place_files_cons in H.
    destruct (place sym f (dest_path_of kit_dir i f) w) as [[[]|e] w1] eqn:Hp;
      apply place_frame in Hp.
    + destruct Hp as (d & ino & ev & -> & Hpath & Hsrc & Hplain & _).
      apply IH in H. cbn [trees refused clock rng fs events set_stdout set_events set_fs] in H.
      destruct H as (Ht & Hr & Hc & Hg & Hdir & Hmono & evs & n & Hev & Hsrcs & Hn & Hb & Hthere).
      assert (Hstep : forall p, os.lookup p (fs w) <> None ->
                                os.lookup p (os.update d ino (fs w)) <> None).
      { intros p Hp. rewrite lookup_update. now destruct (d =? p)%string. }
      repeat split; auto.
      * intros p Hp. apply Hdir. now apply isdir_update.
      * exists (ev :: evs), (S n). cbn [firstn map List.length]. repeat split.
        -- rewrite Hev, <- app_assoc. reflexivity.
        -- now rewrite Hsrc, Hsrcs.
        -- lia.
        -- intros Hbt. f_equal. now apply Hb.
        -- intros [= Hn']. now apply Hb.
        -- constructor; [|exact Hthere]. exists d. split; [exact Hpath|].
           apply Hmono. rewrite lookup_update, String.eqb_refl. discriminate.
    + subst w1. injection H as <- <-. repeat split; auto.
      exists [], 0. rewrite app_nil_r. cbn [List.length].
      repeat split; auto; try lia; discriminate.
Qed.

Lemma now_run w : dt.now w = (Returned (reading w), set_clock (tl (clock w)) w).
Proof.
  unfold dt.now, reading. destruct w as [t f r c g o e]. destruct c; reflexivity.
Qed.

Lemma makedirs_run p w :
  os.makedirs p w =
  if os.isdir (fs w) p then (Returned tt, w)
  else match os.lookup p (fs w) with
       | Some _ => (Raised (FileExistsError p), w)
       | None =>
           if Str.mem p (refused w) then (Raised (OSError p), w)
           else (Returned tt,
                 set_events (events w ++ [MadeDir p])
                            (set_fs (os.update p Directory (fs w)) w))
       end.
Proof.
  unfold os.makedirs. cbv [bind get_world].
  destruct (os.isdir (fs w) p); [reflexivity|].
  destruct (os.lookup p (fs w)); [reflexivity|].
  destruct (Str.mem p (refused w)); reflexivity.
Qed.

Lemma sample_run {A} (population : list A) k w :
  random.sample population k w =
  if ((k <? 0) || (Z.of_nat (List.length population) <? k))%Z
  then (Raised (ValueError "Sample larger than population or is negative"), w)
  else (Returned (fst (random.draw population (Z.to_nat k) (rng w))),
        set_rng (snd (random.draw population (Z.to_nat k) (rng w))) w).
Proof.
  unfold random.sample.
  destruct ((k <? 0) || (Z.of_nat (List.length population) <? k))%Z; [reflexivity|].
  now destruct (random.draw population (Z.to_nat k) (rng w)).
Qed.

Lemma say_say l1 l2 w : say l2 (say l1 w) = say (l1 ++ l2) w.
Proof. unfold say. destruct w; simpl. now rewrite app_assoc. Qed.

Lemma print_run line w : print line w = (Returned tt, say [line] w).
Proof. reflexivity. Qed.

(** [create_drum_kit] on a non-empty list, step by step. *)
Lemma create_drum_kit_run audio_files output_dir max_files use_symlinks w :
  audio_files <> [] ->
  create_drum_kit audio_files output_dir max_files use_symlinks w =
  match os.makedirs (kit_dir_of output_dir w) (set_clock (tl (clock w)) w) with
  | (Raised e, w1) => (Raised e, w1)
  | (Returned _, w1) =>
      if (max_files <? 0)%Z
      then (Raised (ValueError "Sample larger than population or is negative"), w1)
      else
        match place_files use_symlinks (kit_dir_of output_dir w) 1
                (selected_of audio_files max_files w)
                (loop_start audio_files max_files use_symlinks (kit_name_at (reading w)) w1)
        with
        | (Returned true, w3) =>
            (Returned true, say (success_lines (kit_dir_of output_dir w)) w3)
        | (r, w3) => (r, w3)
        end
  end.
Proof.
  intros Hne. unfold create_drum_kit. destruct audio_files as [|f0 files0]; [contradiction|].
  set (files := f0 :: files0).
  unfold bind at 1. rewrite now_run.
  unfold bind at 1. fold (kit_dir_of output_dir w).
  assert (Hrng : forall w1, os.makedirs (kit_dir_of output_dir w) (set_clock (tl (clock w)) w)
                            = (Returned tt, w1) -> rng w1 = rng w).
  { intros w1. rewrite makedirs_run.
    repeat match goal with |- context [if ?c then _ else _] => destruct c end;
      repeat match goal with |- context [match ?c with Some _ => _ | None => _ end] => destruct c end;
      intros [= <-]; reflexivity. }
  destruct (os.makedirs (kit_dir_of output_dir w) (set_clock (tl (clock w)) w))
    as [[[]|e] w1] eqn:Hmk; [|reflexivity].
  specialize (Hrng w1 eq_refl).
  unfold bind at 1. rewrite sample_run. fold (num_files_of files max_files).
  replace ((num_files_of files max_files <? 0)
           || (Z.of_nat (List.length files) <? num_files_of files max_files))%Z
    with (max_files <? 0)%Z.
  2:{ unfold num_files_of.
      destruct (Z.ltb_spec max_files 0), (Z.ltb_spec (Z.min (Z.of_nat (List.length files)) max_files) 0),
        (Z.ltb_spec (Z.of_nat (List.length files)) (Z.min (Z.of_nat (List.length files)) max_files));
        simpl; try reflexivity; lia. }
  destruct (max_files <? 0)%Z; [reflexivity|].
  unfold bind at 1. rewrite print_run. unfold bind at 1. rewrite print_run, say_say.
  unfold bind at 1. unfold selected_of, loop_start, start_lines. rewrite Hrng.
  destruct (place_files use_symlinks (kit_dir_of output_dir w) 1 _ _) as [[[]|e] w3];
    try reflexivity.
  unfold bind at 1. rewrite print_run. unfold bind at 1. rewrite print_run, say_say.
  reflexivity.
Qed.


(* ================================================================== *)
(** * Sampling without replacement *)

Section Sampling.
Context {A : Type}.

Lemma set_nth_middle (a b : list A) x y :
  random.set_nth (List.length a) y (a ++ x :: b) = a ++ y :: b.
Proof. induction a as [|z a IH]; simpl; [reflexivity | now rewrite IH]. Qed.

(** One draw: the entry taken and the pool that remains make up the pool
    there was. *)
Lemma sample_step (pool : list A) j x y :
  nth_error pool j = Some x ->
  nth_error pool (List.length pool - 1) = Some y ->
  Permutation (x :: firstn (List.length pool - 1) (random.set_nth j y pool)) pool.
Proof.
  intros Hx Hy.
  destruct (exists_last (l := pool)) as (init & z & ->).
  { intros ->. destruct j; discriminate. }
  rewrite List.length_app in *. cbn [List.length] in *.
  replace (List.length init + 1 - 1) with (List.length init) in * by lia.
  rewrite nth_error_app2, Nat.sub_diag in Hy by lia. injection Hy as ->.
  assert (Hj : j < List.length init + 1).
  { assert (H : j < List.length (init ++ [y])).
    { apply nth_error_Some. rewrite Hx. discriminate. }
    rewrite List.length_app in H. exact H. }
  destruct (Nat.eq_dec j (List.length init)) as [->|Hne].
  - rewrite nth_error_app2, Nat.sub_diag in Hx by lia. injection Hx as ->.
    rewrite set_nth_middle, firstn_app, firstn_all, Nat.sub_diag. simpl.
    rewrite app_nil_r. apply Permutation_cons_append.
  - rewrite nth_error_app1 in Hx by lia.
    apply nth_error_split in Hx. destruct Hx as (a & b & -> & <-).
    rewrite <- app_assoc. cbn [app]. rewrite set_nth_middle.
    replace (List.length (a ++ x :: b)) with (List.length (a ++ y :: b))
      by (rewrite !List.length_app; reflexivity).
    replace (a ++ y :: b ++ [y]) with ((a ++ y :: b) ++ [y])
      by (now rewrite <- app_assoc).
    rewrite firstn_app, firstn_all, Nat.sub_diag. simpl. rewrite app_nil_r.
    etransitivity; [|apply Permutation_middle].
    apply perm_skip, Permutation_app_head, Permutation_cons_append.
Qed.

Lemma randbelow_lt n rs : 0 < n -> fst (random.randbelow n rs) < n.
Proof.
  intros Hn. destruct rs as [|r rs]; simpl; [exact Hn|].
  apply Nat.mod_upper_bound. lia.
Qed.

(** [k] draws take [k] entries, and with the entries left over they make
    up the population: no entry is taken twice. *)
Lemma sample_pool_perm k : forall (pool : list A) rs,
  k <= List.length pool ->
  List.length (fst (random.sample_pool pool k rs)) = k /\
  exists rest, Permutation (fst (random.sample_pool pool k rs) ++ rest) pool.
Proof.
  induction k as [|k IH]; intros pool rs Hk.
  - split; [reflexivity|]. exists pool. reflexivity.
  - cbn [random.sample_pool].
    pose proof (randbelow_lt (List.length pool) rs ltac:(lia)) as Hj.
    destruct (random.randbelow (List.length pool) rs) as [j rs'].
    cbn [fst] in Hj.
    destruct (nth_error pool j) as [x|] eqn:Hx.
    2:{ apply nth_error_None in Hx. lia. }
    destruct (nth_error pool (List.length pool - 1)) as [y|] eqn:Hy.
    2:{ apply nth_error_None in Hy. lia. }
    pose proof (sample_step pool j x y Hx Hy) as Hperm.
    set (pool' := firstn (List.length pool - 1) (random.set_nth j y pool)) in *.
    assert (Hlen : List.length pool' = List.length pool - 1).
    { apply Permutation_length in Hperm. simpl in Hperm. lia. }
    destruct (IH pool' rs' ltac:(lia)) as (Hl & rest & Hrest).
    destruct (random.sample_pool pool' k rs') as [result rs''].
    cbn [fst] in *. split; [simpl; now rewrite Hl|].
    exists rest. simpl. rewrite <- Hperm. now apply perm_skip.
Qed.

Lemma NoDup_app_l (l1 l2 : list A) : NoDup (l1 ++ l2) -> NoDup l1.
Proof.
  induction l1 as [|a l1 IH]; simpl; intros H; [constructor|].
  inversion H as [|? ? Hin Hnd]; subst. constructor.
  - intros Hc. apply Hin. apply in_or_app. now left.
  - now apply IH.
Qed.

Lemma NoDup_app_iff_local {B} (l l' : list B) :
  NoDup l -> NoDup l' -> (forall x, In x l -> ~ In x l') -> NoDup (l ++ l').
Proof.
  induction l as [|a l IH]; intros Hl Hl' Hd; [exact Hl'|].
  inversion Hl as [|? ? Hin Hnd]; subst. cbn [app]. constructor.
  - intros H. apply in_app_or in H. destruct H as [H|H]; [contradiction|].
    apply (Hd a); [now left | exact H].
  - apply IH; [assumption | assumption |]. intros x Hx. apply Hd. now right.
Qed.

Lemma pick_seq (l : list A) : forall pre,
  pick (pre ++ l) (seq (List.length pre) (List.length l)) = l.
Proof.
  induction l as [|x l IH]; intros pre; [reflexivity|].
  cbn [List.length seq pick flat_map].
  rewrite nth_error_app2, Nat.sub_diag by lia. cbn [nth_error app]. f_equal.
  specialize (IH (pre ++ [x])). rewrite <- app_assoc, List.length_app in IH.
  cbn [List.length app] in IH. rewrite Nat.add_1_r in IH. exact IH.
Qed.

Lemma pick_length (l : list A) js :
  (forall j, In j js -> j < List.length l) -> List.length (pick l js) = List.length js.
Proof.
  induction js as [|j js IH]; intros H; [reflexivity|].
  cbn [pick flat_map List.length]. rewrite List.length_app. fold (pick l js).
  rewrite IH by (intros i Hi; apply H; now right).
  destruct (nth_error l j) eqn:E; [reflexivity|].
  apply nth_error_None in E. specialize (H j (or_introl eq_refl)). lia.
Qed.

Lemma taken_In j selected : random.taken j selected = true <-> In j selected.
Proof.
  unfold random.taken. rewrite existsb_exists. split.
  - intros (x & Hx & E). apply Nat.eqb_eq in E. now subst.
  - intros H. exists j. split; [exact H | apply Nat.eqb_refl].
Qed.

(** While fewer than [n] positions below [n] are taken, a free one is
    left, and the redraw loop ends on one. *)
Lemma first_free_spec n selected :
  NoDup selected -> (forall j, In j selected -> j < n) -> List.length selected < n ->
  random.first_free n selected < n /\ ~ In (random.first_free n selected) selected.
Proof.
  intros Hnd Hlt Hlen. unfold random.first_free.
  destruct (find _ (seq 0 n)) as [j|] eqn:E.
  - apply find_some in E. destruct E as [Hin Hfree]. apply in_seq in Hin.
    split; [lia|]. intros Hj. apply taken_In in Hj. rewrite Hj in Hfree. discriminate.
  - exfalso. assert (Hincl : incl (seq 0 n) selected).
    { intros j Hj. pose proof (find_none _ _ E j Hj) as Hf. cbn beta in Hf.
      apply negb_false_iff in Hf. now apply taken_In. }
    apply (NoDup_incl_length (seq_NoDup n 0)) in Hincl. rewrite length_seq in Hincl. lia.
Qed.

Lemma draw_fresh_spec n selected rs :
  NoDup selected -> (forall j, In j selected -> j < n) -> List.length selected < n ->
  fst (random.draw_fresh n selected rs) < n /\
  ~ In (fst (random.draw_fresh n selected rs)) selected.
Proof.
  intros Hnd Hlt Hlen. induction rs as [|r rs IH]; cbn [random.draw_fresh fst].
  - now apply first_free_spec.
  - destruct (random.taken (r mod n) selected) eqn:E; [exact IH|]. cbn [fst]. split.
    + apply Nat.mod_upper_bound. lia.
    + intros Hin. apply taken_In in Hin. congruence.
Qed.

(** The redraw loop lets pass the draws that fall on a position taken, and
    ends on the first that does not. *)
Lemma draw_fresh_first n selected pre r rs :
  Forall (fun x => random.taken (x mod n) selected = true) pre ->
  random.taken (r mod n) selected = false ->
  random.draw_fresh n selected (pre ++ r :: rs) = (r mod n, rs).
Proof.
  intros Hpre Hr. induction Hpre as [|x pre Hx _ IH]; cbn [app random.draw_fresh].
  - now rewrite Hr.
  - now rewrite Hx.
Qed.

(** [pow4_above] gives the least power of 4 that is at least [x]. *)
Lemma pow4_above_spec fuel : forall e x,
  0 < x -> x <= 4 ^ e * 4 ^ fuel -> (e = 0 \/ 4 ^ (e - 1) < x) ->
  exists e', random.pow4_above fuel (4 ^ e) x = 4 ^ e' /\ x <= 4 ^ e' /\
             (e' = 0 \/ 4 ^ (e' - 1) < x).
Proof.
  induction fuel as [|fuel IH]; intros e x Hx Hle Hlow; cbn [random.pow4_above].
  - exists e. rewrite Nat.pow_0_r, Nat.mul_1_r in Hle. now repeat split.
  - destruct (Nat.leb_spec x (4 ^ e)) as [Hfit|Hbig].
    + exists e. now repeat split.
    + change (4 * 4 ^ e) with (4 ^ S e). apply IH; [exact Hx | |].
      * rewrite Nat.pow_succ_r' in *. lia.
      * right. cbn [Nat.sub]. now rewrite Nat.sub_0_r.
Qed.

Lemma setsize_spec k :
  (k <= 5 -> random.setsize k = 21) /\
  (5 < k -> exists e, random.setsize k = 21 + 4 ^ e /\ 3 * k <= 4 ^ e /\ 4 ^ (e - 1) < 3 * k).
Proof.
  unfold random.setsize. split; intros Hk.
  - now replace (5 <? k) with false by (symmetry; apply Nat.ltb_ge; exact Hk).
  - replace (5 <? k) with true by (symmetry; apply Nat.ltb_lt; exact Hk).
    destruct (pow4_above_spec (3 * k) 0 (3 * k)) as (e & He & Hle & Hlow).
    + lia.
    + rewrite Nat.pow_0_r, Nat.mul_1_l.
      pose proof (Nat.pow_gt_lin_r 4 (3 * k) ltac:(lia)). lia.
    + now left.
    + exists e. change (4 ^ 0) with 1 in He. rewrite He. split; [reflexivity|].
      split; [exact Hle|]. destruct Hlow as [-> | Hlow]; [|exact Hlow].
      cbn in Hle |- *. lia.
Qed.

Lemma sample_set_picks (population : list A) k : forall selected rs,
  NoDup selected -> (forall j, In j selected -> j < List.length population) ->
  List.length selected + k <= List.length population ->
  exists js,
    fst (random.sample_set population (List.length population) k selected rs)
    = pick population js /\
    List.length js = k /\ NoDup (js ++ selected) /\
    (forall j, In j js -> j < List.length population).
Proof.
  induction k as [|k IH]; intros selected rs Hnd Hlt Hlen.
  - exists []. repeat split; [exact Hnd | intros j []].
  - cbn [random.sample_set].
    destruct (draw_fresh_spec (List.length population) selected rs Hnd Hlt ltac:(lia))
      as [Hj Hfree].
    destruct (random.draw_fresh (List.length population) selected rs) as [j rs'].
    cbn [fst] in Hj, Hfree.
    destruct (nth_error population j) as [x|] eqn:Hx.
    2:{ apply nth_error_None in Hx. lia. }
    destruct (IH (j :: selected) rs') as (js & Hpick & Hk & Hnd' & Hlt').
    { now constructor. }
    { intros i [<-|Hi]; [exact Hj | now apply Hlt]. }
    { cbn [List.length]. lia. }
    destruct (random.sample_set population (List.length population) k (j :: selected) rs')
      as [result rs''].
    cbn [fst] in *. exists (j :: js). repeat split.
    + cbn [pick flat_map]. rewrite Hx. cbn [app]. now f_equal.
    + cbn [List.length]. now rewrite Hk.
    + apply NoDup_cons_iff. apply NoDup_remove in Hnd'. destruct Hnd' as [H1 H2].
      split; [exact H2 | exact H1].
    + intros i [<-|Hi]; [exact Hj | now apply Hlt'].
Qed.

Lemma sample_set_perm (population : list A) k rs :
  k <= List.length population ->
  List.length (fst (random.sample_set population (List.length population) k [] rs)) = k /\
  exists rest,
    Permutation (fst (random.sample_set population (List.length population) k [] rs) ++ rest)
                population.
Proof.
  intros Hk.
  destruct (sample_set_picks population k [] rs) as (js & -> & Hlen & Hnd & Hlt).
  - constructor.
  - intros j [].
  - cbn [List.length]. lia.
  - rewrite app_nil_r in Hnd. split; [now rewrite pick_length|].
    set (others := filter (fun j => negb (random.taken j js)) (seq 0 (List.length population))).
    exists (pick population others).
    pose proof (pick_seq population []) as Hall. cbn [app List.length] in Hall.
    apply Permutation_trans with (pick population (seq 0 (List.length population)));
      [|now rewrite Hall].
    unfold pick. rewrite <- flat_map_app.
    apply Permutation_flat_map. apply NoDup_Permutation.
    + apply NoDup_app_iff_local; [exact Hnd| |].
      * apply NoDup_filter, seq_NoDup.
      * intros j Hj Hj'. apply filter_In in Hj'. destruct Hj' as [_ Hf].
        apply negb_true_iff in Hf. apply taken_In in Hj. congruence.
    + apply seq_NoDup.
    + intros j. rewrite in_app_iff, in_seq. unfold others. rewrite filter_In, in_seq. split.
      * intros [Hj | [Hj _]]; [specialize (Hlt j Hj)|]; lia.
      * intros Hj. destruct (random.taken j js) eqn:E.
        -- left. now apply taken_In.
        -- right. split; [lia | reflexivity].
Qed.

(** [k] draws of random.sample, in either branch, take [k] entries, and
    with the entries left over they make up the population. *)
Lemma draw_perm k (population : list A) rs :
  k <= List.length population ->
  List.length (fst (random.draw population k rs)) = k /\
  exists rest, Permutation (fst (random.draw population k rs) ++ rest) population.
Proof.
  intros Hk. unfold random.draw.
  destruct (List.length population <=? random.setsize k).
  - now apply sample_pool_perm.
  - now apply sample_set_perm.
Qed.

Lemma draw_NoDup k (population : list A) rs :
  k <= List.length population -> NoDup population ->
  NoDup (fst (random.draw population k rs)).
Proof.
  intros Hk Hnd. destruct (draw_perm k population rs Hk) as (_ & rest & Hperm).
  apply NoDup_app_l with (l2 := rest).
  eapply Permutation_NoDup; [symmetry; exact Hperm | exact Hnd].
Qed.

End Sampling.


Lemma isdir_made f p : os.isdir (os.update p Directory f) p = true.
Proof.
  unfold os.isdir, os.MAXSYMLINKS. cbn [os.resolve].
  rewrite lookup_update, String.eqb_refl. now rewrite lookup_update, String.eqb_refl.
Qed.

(** os.makedirs, when it returns, leaves a directory at its path and keeps
    the directories there were. *)
Lemma makedirs_ok p w w1 :
  os.makedirs p w = (Returned tt, w1) ->
  os.isdir (fs w1) p = true /\
  (forall q, os.isdir (fs w) q = true -> os.isdir (fs w1) q = true) /\
  trees w1 = trees w /\ refused w1 = refused w /\ clock w1 = clock w /\
  rng w1 = rng w /\ stdout w1 = stdout w /\
  exists mk, events w1 = events w ++ mk /\ (mk = [] \/ mk = [MadeDir p]).
Proof.
  rewrite makedirs_run. destruct (os.isdir (fs w) p) eqn:Hdir.
  - intros [= <-]. repeat split; auto. exists []. rewrite app_nil_r. auto.
  - destruct (os.lookup p (fs w)) eqn:E; [discriminate|].
    destruct (Str.mem p (refused w)); [discriminate|]. intros [= <-].
    cbn [fs trees refused clock rng stdout events set_events set_fs].
    repeat split; auto.
    + apply isdir_made.
    + intros q Hq. apply isdir_update; [exact Hq|]. unfold plain. now rewrite E.
    + exists [MadeDir p]. auto.
Qed.

(** What a kit does to the world: it raises only when os.makedirs does;
    otherwise the kit directory exists, one reading of the clock is
    consumed, and the files placed are a prefix of the selection, the whole
    of it exactly when the kit succeeds. *)
Lemma create_drum_kit_outcome audio_files output_dir max_files use_symlinks w :
  audio_files <> [] -> (0 <= max_files)%Z ->
  match create_drum_kit audio_files output_dir max_files use_symlinks w with
  | (Raised e, w') =>
      os.makedirs (kit_dir_of output_dir w) (set_clock (tl (clock w)) w) = (Raised e, w')
  | (Returned b, w') =>
      clock w' = tl (clock w) /\ trees w' = trees w /\ refused w' = refused w /\
      os.isdir (fs w') (kit_dir_of output_dir w) = true /\
      (forall p, os.isdir (fs w) p = true -> os.isdir (fs w') p = true) /\
      exists mk evs n,
        events w' = events w ++ mk ++ evs /\
        (mk = [] \/ mk = [MadeDir (kit_dir_of output_dir w)]) /\
        map event_source evs = map Some (firstn n (selected_of audio_files max_files w)) /\
        n <= List.length (selected_of audio_files max_files w) /\
        (b = true <-> n = List.length (selected_of audio_files max_files w))
  end.
Proof.
  intros Hne Hk. rewrite (create_drum_kit_run _ _ _ _ _ Hne).
  destruct (os.makedirs (kit_dir_of output_dir w) (set_clock (tl (clock w)) w))
    as [[[]|e] w1] eqn:Hmk; [|reflexivity].
  destruct (Z.ltb_spec max_files 0) as [|_]; [lia|].
  apply makedirs_ok in Hmk.
  destruct Hmk as (Hdir & Hkeep & Ht & Hr & Hc & Hg & Ho & mk & Hev & Hmk).
  cbn [fs trees refused clock rng stdout events set_clock] in *.
  set (w2 := loop_start audio_files max_files use_symlinks (kit_name_at (reading w)) w1).
  destruct (place_files_total use_symlinks (kit_dir_of output_dir w)
              (selected_of audio_files max_files w) 1 w2) as (b & w3 & Hrun).
  rewrite Hrun. apply place_files_frame in Hrun.
  destruct Hrun as (Ht3 & Hr3 & Hc3 & Hg3 & Hdir3 & _ & evs & n & Hev3 & Hsrc & Hn & Hb & _).
  assert (Hall :
    clock w3 = tl (clock w) /\ trees w3 = trees w /\ refused w3 = refused w /\
    os.isdir (fs w3) (kit_dir_of output_dir w) = true /\
    (forall p, os.isdir (fs w) p = true -> os.isdir (fs w3) p = true) /\
    exists mk evs n,
      events w3 = events w ++ mk ++ evs /\
      (mk = [] \/ mk = [MadeDir (kit_dir_of output_dir w)]) /\
      map event_source evs = map Some (firstn n (selected_of audio_files max_files w)) /\
      n <= List.length (selected_of audio_files max_files w) /\
      (b = true <-> n = List.length (selected_of audio_files max_files w))).
  { subst w2. unfold loop_start, say in *.
    cbn [fs trees refused clock rng stdout events set_stdout set_rng] in *.
    repeat split; try congruence.
    - now apply Hdir3.
    - intros p Hp. now apply Hdir3, Hkeep.
    - exists mk, evs, n. rewrite Hev3, Hev, <- app_assoc. repeat split; auto; apply Hb. }
  destruct b; exact Hall.
Qed.


(** The selection has min(len(files), max_files) entries. *)
Lemma selected_of_length audio_files max_files w :
  (0 <= max_files)%Z ->
  List.length (selected_of audio_files max_files w)
  = Nat.min (List.length audio_files) (Z.to_nat max_files).
Proof.
  intros Hk. unfold selected_of.
  assert (Hle : Z.to_nat (num_files_of audio_files max_files) <= List.length audio_files)
    by (unfold num_files_of; lia).
  destruct (draw_perm _ audio_files (rng w) Hle) as (Hlen & _).
  rewrite Hlen. unfold num_files_of. lia.
Qed.

(** C5. On an empty list [create_drum_kit] prints that no audio files were
    found and returns [False]; the file system, the clock, the generator
    and the record of placements are as they were: no directory is made and
    no file is placed. *)
Theorem create_drum_kit_empty output_dir max_files use_symlinks w :
  exists w',
    create_drum_kit [] output_dir max_files use_symlinks w = (Returned false, w') /\
    stdout w' = stdout w ++ ["No audio files found!"] /\
    fs w' = fs w /\ events w' = events w /\ clock w' = clock w /\ rng w' = rng w.
Proof. eexists. repeat split. Qed.

Lemma placements_paths sym kit_dir selected : forall i,
  map placed_path (placements sym kit_dir i selected)
  = map (fun n => Some (os_path.join kit_dir n)) (names_from i selected).
Proof.
  induction selected as [|f rest IH]; intros i; [reflexivity|].
  cbn [placements names_from map]. rewrite IH. now destruct sym.
Qed.

Lemma placements_sources sym kit_dir selected : forall i,
  map event_source (placements sym kit_dir i selected) = map Some selected.
Proof.
  induction selected as [|f rest IH]; intros i; [reflexivity|].
  cbn [placements map]. rewrite IH. now destruct sym.
Qed.

Lemma names_from_nth selected : forall i j f,
  nth_error selected j = Some f ->
  nth_error (names_from i selected) j = Some (new_filename (i + j) f).
Proof.
  induction selected as [|g rest IH]; intros i [|j] f H; try discriminate.
  - injection H as ->. now rewrite Nat.add_0_r.
  - cbn [names_from nth_error]. rewrite (IH (S i) j f H). do 2 f_equal. lia.
Qed.

Lemma names_from_length selected : forall i,
  List.length (names_from i selected) = List.length selected.
Proof.
  induction selected as [|g rest IH]; intros i; [reflexivity|].
  cbn [names_from List.length]. now rewrite IH.
Qed.

(** A completed kit whose destinations were plain has placed the whole
    selection at the destinations of line 68. *)
Lemma create_drum_kit_placements audio_files output_dir max_files use_symlinks w wm w' :
  audio_files <> [] -> (0 <= max_files)%Z ->
  os.makedirs (kit_dir_of output_dir w) (set_clock (tl (clock w)) w) = (Returned tt, wm) ->
  (use_symlinks = false ->
   Forall (fun p => plain (fs wm) p = true)
          (dest_paths (kit_dir_of output_dir w) 1 (selected_of audio_files max_files w))) ->
  create_drum_kit audio_files output_dir max_files use_symlinks w = (Returned true, w') ->
  events w' = events wm ++ placements use_symlinks (kit_dir_of output_dir w) 1
                             (selected_of audio_files max_files w).
Proof.
  intros Hne Hk Hmk Hplain. rewrite (create_drum_kit_run _ _ _ _ _ Hne), Hmk.
  destruct (Z.ltb_spec max_files 0) as [|_]; [lia|].
  set (w2 := loop_start _ _ _ _ wm).
  destruct (place_files_events use_symlinks (kit_dir_of output_dir w)
              (selected_of audio_files max_files w) 1 w2 Hplain)
    as (n & w3 & Hrun & Hn & Hev & _).
  rewrite Hrun. destruct (Nat.eqb_spec n (List.length (selected_of audio_files max_files w)))
    as [->|Hneq]; [|discriminate].
  intros [= <-]. rewrite firstn_all in Hev. exact Hev.
Qed.

Lemma matches_two_digits n base :
  n < 100 -> dot_plus_end base = true ->
  matches_NN_name (Str.format_02d n ++ "_" ++ base) = true.
Proof.
  intros Hn Hbase. rewrite format_02d_two by assumption.
  cbn [append matches_NN_name]. rewrite Hbase.
  rewrite !is_digit_digit_char; [reflexivity | |].
  - apply Nat.mod_upper_bound. discriminate.
  - apply Nat.Div0.div_lt_upper_bound. exact Hn.
Qed.


(** C3 as the code has it. A completed kit whose destinations held no
    directory and no link has placed the selected files in the order drawn,
    the [j]-th of them (counting from 1) under the name made of [j] in
    decimal, padded with zeros to at least two digits, an underscore and
    the base name of the file; up to the 99th file, and for a base name
    that [.+$] matches, that name matches [^\d{2}_.+$]. *)
Theorem create_drum_kit_names audio_files output_dir max_files use_symlinks w wm w' :
  audio_files <> [] -> (0 < max_files)%Z ->
  os.makedirs (kit_dir_of output_dir w) (set_clock (tl (clock w)) w) = (Returned tt, wm) ->
  (use_symlinks = false ->
   Forall (fun p => plain (fs wm) p = true)
          (dest_paths (kit_dir_of output_dir w) 1 (selected_of audio_files max_files w))) ->
  create_drum_kit audio_files output_dir max_files use_symlinks w = (Returned true, w') ->
  (exists evs,
     events w' = events wm ++ evs /\
     map event_source evs = map Some (selected_of audio_files max_files w) /\
     map placed_path evs
     = map (fun n => Some (os_path.join (kit_dir_of output_dir w) n))
           (kit_names (selected_of audio_files max_files w))) /\
  List.length (kit_names (selected_of audio_files max_files w))
    = Nat.min (List.length audio_files) (Z.to_nat max_files) /\
  (forall j f,
     nth_error (selected_of audio_files max_files w) j = Some f ->
     nth_error (kit_names (selected_of audio_files max_files w)) j
     = Some (Str.format_02d (S j) ++ "_" ++ os_path.basename f)%string /\
     all_digits (Str.format_02d (S j)) = true /\
     value (Str.format_02d (S j)) = S j /\
     2 <= String.length (Str.format_02d (S j)) /\
     (S j < 100 -> dot_plus_end (os_path.basename f) = true ->
      matches_NN_name (Str.format_02d (S j) ++ "_" ++ os_path.basename f) = true)).
Proof.
  intros Hne Hk Hmk Hplain Hrun.
  assert (Hk0 : (0 <= max_files)%Z) by lia.
  pose proof (create_drum_kit_placements _ _ _ _ _ _ _ Hne Hk0 Hmk Hplain Hrun) as Hev.
  split; [|split].
  - eexists. split; [exact Hev|]. split.
    + apply placements_sources.
    + apply placements_paths.
  - rewrite <- (selected_of_length audio_files max_files w Hk0). apply names_from_length.
  - intros j f Hj.
    destruct (rjust_zero_spec 2 (S j)) as (Hdig & Hval & Hlen & _).
    split; [|repeat split; try assumption].
    + unfold kit_names. now rewrite (names_from_nth _ 1 j f Hj).
    + intros Hlt Hbase. now apply matches_two_digits.
Qed.

Lemma create_drum_kit_names_witness :
  let w := Demo.w0 in
  let wm := snd (os.makedirs (kit_dir_of "out" w) (set_clock (tl (clock w)) w)) in
  let w' := snd (create_drum_kit Demo.discovered "out" 2 false w) in
  (exists evs,
     events w' = events wm ++ evs /\
     map event_source evs = map Some (selected_of Demo.discovered 2 w) /\
     map placed_path evs
     = map (fun n => Some (os_path.join (kit_dir_of "out" w) n))
           (kit_names (selected_of Demo.discovered 2 w))) /\
  List.length (kit_names (selected_of Demo.discovered 2 w))
    = Nat.min (List.length Demo.discovered) (Z.to_nat 2) /\
  (forall j f,
     nth_error (selected_of Demo.discovered 2 w) j = Some f ->
     nth_error (kit_names (selected_of Demo.discovered 2 w)) j
     = Some (Str.format_02d (S j) ++ "_" ++ os_path.basename f)%string /\
     all_digits (Str.format_02d (S j)) = true /\
     value (Str.format_02d (S j)) = S j /\
     2 <= String.length (Str.format_02d (S j)) /\
     (S j < 100 -> dot_plus_end (os_path.basename f) = true ->
      matches_NN_name (Str.format_02d (S j) ++ "_" ++ os_path.basename f) = true)).
Proof.
  intros w wm w'.
  apply (create_drum_kit_names Demo.discovered "out" 2 false w wm w').
  - discriminate.
  - vm_compute. reflexivity.
  - vm_compute. reflexivity.
  - intros _. vm_compute. repeat constructor.
  - vm_compute. reflexivity.
Defined.

(** C3 as stated fails on a kit of one hundred files: the kit succeeds and
    its hundredth file is called [100_s1.wav], which [^\d{2}_.+$] does not
    match. *)
Lemma hundredth_name_has_three_digits :
  exists w' src dst,
    create_drum_kit Demo.hundred "out" 100 true Demo.w_bare = (Returned true, w') /\
    nth_error (events w') 100 = Some (Linked src dst) /\
    os_path.basename dst = "100_s1.wav" /\
    matches_NN_name (os_path.basename dst) = false.
Proof.
  eexists. exists "lib/s1.wav", "out/DrumKit_20240309_120000/100_s1.wav".
  split; [vm_compute; reflexivity|]. split; [vm_compute; reflexivity|].
  split; reflexivity.
Qed.


(* ================================================================== *)
(** * The run *)

Lemma kit_loop_cons audio_files a kit_num rest successful w :
  kit_loop audio_files a (kit_num :: rest) successful w =
  match create_drum_kit audio_files (output_dir a) (max_files a) (use_symlinks a) w with
  | (Returned made, w1) =>
      kit_loop audio_files a rest (if made then successful + 1 else successful)
               (pause a kit_num w1)
  | (Raised e, w1) => (Raised e, w1)
  end.
Proof.
  cbn [kit_loop]. unfold bind at 1.
  destruct (create_drum_kit audio_files (output_dir a) (max_files a) (use_symlinks a) w)
    as [[made|e] w1]; [|reflexivity].
  unfold bind at 1, pause. now destruct (kit_num <? num_kits a - 1).
Qed.

(** The pause touches the clock and nothing else. *)
Lemma pause_frame a kit_num w :
  fs (pause a kit_num w) = fs w /\ stdout (pause a kit_num w) = stdout w /\
  events (pause a kit_num w) = events w /\ refused (pause a kit_num w) = refused w /\
  rng (pause a kit_num w) = rng w /\ trees (pause a kit_num w) = trees w.
Proof. unfold pause. now destruct (kit_num <? num_kits a - 1). Qed.

(** A loop that raises does so because os.makedirs did. *)
Lemma kit_loop_raises audio_files a kit_nums : forall successful w e w',
  audio_files <> [] -> (0 <= max_files a)%Z ->
  kit_loop audio_files a kit_nums successful w = (Raised e, w') ->
  exists p w0, os.makedirs p w0 = (Raised e, w').
Proof.
  induction kit_nums as [|kit_num rest IH]; intros successful w e w' Hne Hk H.
  - discriminate.
  - rewrite kit_loop_cons in H.
    pose proof (create_drum_kit_outcome audio_files (output_dir a) (max_files a)
                  (use_symlinks a) w Hne Hk) as Hout.
    destruct (create_drum_kit audio_files (output_dir a) (max_files a) (use_symlinks a) w)
      as [[made|e1] w1].
    + eapply IH; eassumption.
    + injection H as <- <-. eauto.
Qed.

(** [main] from the answers on, step by step. *)
Lemma main_run a w :
  main a w =
  match (if negb (os.exists_ (fs w) (output_dir a))
         then os.makedirs (output_dir a)
                (say [("Creating output directory: " ++ output_dir a)%string] w)
         else (Returned tt, w)) with
  | (Raised e, w0) => (Raised e, w0)
  | (Returned _, w0) =>
      match get_audio_files (input_dir a) (extensions a)
              (say [Str.join "" (repeat "-" 60)] w0) with
      | (Raised e, w2) => (Raised e, w2)
      | (Returned [], w2) =>
          (Returned tt,
           say ["No audio files found!";
                ("Searched for: " ++ Str.join ", " (extensions a))%string;
                "Make sure your sample library contains files with these extensions."] w2)
      | (Returned audio_files, w2) =>
          match kit_loop audio_files a (seq 0 (num_kits a)) 0
                  (say [("Found " ++ Str.of_nat (List.length audio_files) ++ " audio files")%string;
                        (nl ++ Str.join "" (repeat "=" 60))%string] w2) with
          | (Raised e, w3) => (Raised e, w3)
          | (Returned successful, w3) =>
              (Returned tt,
               say [Str.join "" (repeat "=" 60);
                    report_line successful (num_kits a); "Done!"] w3)
          end
      end
  end.
Proof.
  unfold main. unfold bind at 1. unfold get_world at 1. unfold bind at 1.
  destruct (negb (os.exists_ (fs w) (output_dir a))).
  - unfold bind at 1. rewrite print_run.
    destruct (os.makedirs _ _) as [[[]|e] w0]; [|reflexivity].
    unfold bind at 1. rewrite print_run. unfold bind at 1.
    destruct (get_audio_files _ _ _) as [[[|f files]|e] w2]; try reflexivity.
    + unfold bind at 1. rewrite print_run. unfold bind at 1. rewrite print_run, say_say.
      rewrite print_run, say_say. reflexivity.
    + unfold bind at 1. rewrite print_run. unfold bind at 1. rewrite print_run, say_say.
      unfold bind at 1. destruct (kit_loop _ _ _ _ _) as [[successful|e] w3]; [|reflexivity].
      unfold bind at 1. rewrite print_run. unfold bind at 1. rewrite print_run, say_say.
      rewrite print_run, say_say. reflexivity.
  - unfold ret at 1.
    unfold bind at 1. rewrite print_run. unfold bind at 1.
    destruct (get_audio_files _ _ _) as [[[|f files]|e] w2]; try reflexivity.
    + unfold bind at 1. rewrite print_run. unfold bind at 1. rewrite print_run, say_say.
      rewrite print_run, say_say. reflexivity.
    + unfold bind at 1. rewrite print_run. unfold bind at 1. rewrite print_run, say_say.
      unfold bind at 1. destruct (kit_loop _ _ _ _ _) as [[successful|e] w3]; [|reflexivity].
      unfold bind at 1. rewrite print_run. unfold bind at 1. rewrite print_run, say_say.
      rewrite print_run, say_say. reflexivity.
Qed.


Lemma kit_loop_le audio_files a kit_nums : forall successful w s' w',
  kit_loop audio_files a kit_nums successful w = (Returned s', w') ->
  successful <= s' <= successful + List.length kit_nums.
Proof.
  induction kit_nums as [|kit_num rest IH]; intros successful w s' w' H.
  - injection H as <- <-. simpl. lia.
  - rewrite kit_loop_cons in H.
    destruct (create_drum_kit _ _ _ _ w) as [[made|e] w1]; [|discriminate].
    apply IH in H. cbn [List.length]. destruct made; lia.
Qed.

(** A run that found audio files and ends normally ends with the report
    of the kits that succeeded out of the kits asked for. *)
Lemma main_report a w w' :
  main a w = (Returned tt, w') ->
  fst (get_audio_files (input_dir a) (extensions a) w) <> Returned [] ->
  exists printed successful,
    successful <= num_kits a /\
    stdout w' = printed ++ [report_line successful (num_kits a); "Done!"].
Proof.
  rewrite main_run. intros Hmain Hfound.
  destruct (if negb (os.exists_ (fs w) (output_dir a)) then _ else _) as [[[]|e] w0] eqn:Hmk;
    [|discriminate].
  assert (Ht : trees w0 = trees w).
  { destruct (negb (os.exists_ (fs w) (output_dir a))).
    - apply makedirs_ok in Hmk. now destruct Hmk as (_ & _ & -> & _).
    - now injection Hmk as <-. }
  rewrite get_audio_files_eq in Hmain, Hfound. cbn [fst] in Hfound.
  change (trees (say [Str.join "" (repeat "-" 60)] w0)) with (trees w0) in Hmain.
  rewrite Ht in Hmain.
  destruct (match os.lookup_tree (input_dir a) (trees w) with
            | Some es => _
            | None => []
            end) as [|f files]; [now elim Hfound|].
  destruct (kit_loop _ _ _ _ _) as [[successful|e] w3] eqn:Hloop; [|discriminate].
  injection Hmain as <-. apply kit_loop_le in Hloop. rewrite length_seq in Hloop.
  exists (stdout w3 ++ [Str.join "" (repeat "=" 60)]), successful.
  split; [lia|]. unfold say. cbn [stdout set_stdout]. now rewrite <- app_assoc.
Qed.

(** ** What a run prints *)

Lemma successes_app l1 l2 : successes (l1 ++ l2) = successes l1 + successes l2.
Proof. unfold successes. now rewrite filter_app, List.length_app. Qed.

Lemma announced_app l1 l2 : announced (l1 ++ l2) = announced l1 ++ announced l2.
Proof. unfold announced. now rewrite filter_app. Qed.

(** A line that begins with a space is neither the line of a kit made nor
    the line a kit begins with. *)
Lemma indented_line l :
  Str.startswith " " l = true ->
  String.eqb success_header l = false /\ begins_with attempt_prefix l = false.
Proof.
  destruct l as [|c l]; [discriminate|]. cbn [Str.startswith]. intros H.
  apply Ascii.eqb_eq in H. subst c. split; reflexivity.
Qed.

Lemma start_lines_counts sym name num :
  announced (start_lines sym name num) = [(attempt_prefix ++ name)%string] /\
  successes (start_lines sym name num) = 0.
Proof. destruct sym; split; reflexivity. Qed.

Lemma success_lines_counts kit_dir :
  announced (success_lines kit_dir) = [] /\ successes (success_lines kit_dir) = 1.
Proof. split; reflexivity. Qed.

Lemma place_files_lines sym kit_dir selected : forall i w b w',
  place_files sym kit_dir i selected w = (Returned b, w') ->
  exists lines, stdout w' = stdout w ++ lines /\ announced lines = [] /\ successes lines = 0.
Proof.
  induction selected as [|f rest IH]; intros i w b w' H.
  - simpl in H. injection H as _ <-. exists []. now rewrite app_nil_r.
  - rewrite place_files_cons in H.
    destruct (place sym f (dest_path_of kit_dir i f) w) as [[[]|e] w1] eqn:Hp.
    + apply place_frame in Hp. destruct Hp as (d & ino & ev & -> & _).
      apply IH in H. destruct H as (lines & Hout & Ha & Hs).
      cbn [stdout set_stdout set_events set_fs] in Hout.
      exists (placed_line i f :: lines). rewrite Hout, <- app_assoc.
      split; [reflexivity|].
      destruct (indented_line (placed_line i f) eq_refl) as [He Hpre].
      unfold announced, successes in *. cbn [filter]. rewrite He, Hpre. now split.
    + apply place_frame in Hp. subst w1. injection H as _ <-.
      exists [error_line sym f e]. split; [reflexivity|].
      destruct (indented_line (error_line sym f e) eq_refl) as [He Hpre].
      unfold announced, successes. cbn [filter]. now rewrite He, Hpre.
Qed.

(** A kit begins with its line, and ends with the line of a kit made
    exactly when it returns [True]. *)
Lemma create_drum_kit_lines files out k sym w b w' :
  files <> [] ->
  create_drum_kit files out k sym w = (Returned b, w') ->
  exists lines,
    stdout w' = stdout w ++ lines /\
    announced lines = [(attempt_prefix ++ kit_name_at (reading w))%string] /\
    successes lines = (if b then 1 else 0).
Proof.
  intros Hne. rewrite (create_drum_kit_run _ _ _ _ _ Hne).
  destruct (os.makedirs _ _) as [[[]|e] w1] eqn:Hmk; [|discriminate].
  apply makedirs_ok in Hmk. destruct Hmk as (_ & _ & _ & _ & _ & _ & Hout1 & _).
  cbn [stdout set_clock] in Hout1.
  destruct (k <? 0)%Z; [discriminate|].
  match goal with |- context [place_files ?s0 ?kd ?i0 ?l ?w0] =>
    destruct (place_files_total s0 kd l i0 w0) as (b3 & w3 & Hloop);
    rewrite Hloop; apply place_files_lines in Hloop;
    destruct Hloop as (lines3 & Hout3 & Ha3 & Hs3)
  end.
  cbn [stdout loop_start say set_stdout set_rng] in Hout3. rewrite Hout1 in Hout3.
  destruct (start_lines_counts sym (kit_name_at (reading w)) (num_files_of files k))
    as [Ha0 Hs0].
  destruct (success_lines_counts (kit_dir_of out w)) as [Ha1 Hs1].
  destruct b3; intros [= <- <-].
  - exists (start_lines sym (kit_name_at (reading w)) (num_files_of files k)
            ++ lines3 ++ success_lines (kit_dir_of out w)).
    cbn [stdout say set_stdout]. rewrite Hout3, <- !app_assoc. split; [reflexivity|].
    rewrite !announced_app, !successes_app, Ha0, Ha3, Ha1, Hs0, Hs3, Hs1. now split.
  - exists (start_lines sym (kit_name_at (reading w)) (num_files_of files k) ++ lines3).
    rewrite Hout3, <- !app_assoc. split; [reflexivity|].
    rewrite !announced_app, !successes_app, Ha0, Ha3, Hs0, Hs3. now split.
Qed.

(** The loop begins as many kits as it is asked for, and the number it
    returns is the number it had plus the number of kits that were made. *)
Lemma kit_loop_lines files a :
  files <> [] ->
  forall kit_nums s w s' w',
    kit_loop files a kit_nums s w = (Returned s', w') ->
    exists lines,
      stdout w' = stdout w ++ lines /\
      List.length (announced lines) = List.length kit_nums /\
      s' = s + successes lines.
Proof.
  intros Hne. induction kit_nums as [|kit_num rest IH]; intros s w s' w' H.
  - injection H as <- <-. exists []. rewrite app_nil_r. repeat split. cbn. lia.
  - rewrite kit_loop_cons in H.
    destruct (create_drum_kit files (output_dir a) (max_files a) (use_symlinks a) w)
      as [[made|e] w1] eqn:Hkit; [|discriminate].
    apply (create_drum_kit_lines _ _ _ _ _ _ _ Hne) in Hkit.
    destruct Hkit as (lines1 & Hout1 & Ha1 & Hs1).
    apply IH in H. destruct H as (lines & Hout & Ha & Hs).
    destruct (pause_frame a kit_num w1) as (_ & Hp & _). rewrite Hp in Hout.
    exists (lines1 ++ lines). rewrite Hout, Hout1, <- app_assoc. split; [reflexivity|].
    rewrite announced_app, successes_app, List.length_app, Ha1, Ha, Hs1, Hs.
    split; [reflexivity|]. destruct made; lia.
Qed.

(** A run that finds files and ends normally has begun every kit asked
    for, and ends on the report of the number of kits that were made. *)
Lemma main_lines a w w' :
  main a w = (Returned tt, w') ->
  fst (get_audio_files (input_dir a) (extensions a) w) <> Returned [] ->
  exists printed,
    stdout w' = stdout w ++ printed
                  ++ [report_line (successes printed) (num_kits a); "Done!"] /\
    List.length (announced printed) = num_kits a.
Proof.
  rewrite main_run. intros Hmain Hfound.
  destruct (if negb (os.exists_ (fs w) (output_dir a)) then _ else _) as [[[]|e] w0] eqn:Hmk;
    [|discriminate].
  assert (Hw0 : trees w0 = trees w /\
                exists pre, stdout w0 = stdout w ++ pre /\
                            announced pre = [] /\ successes pre = 0).
  { destruct (negb (os.exists_ (fs w) (output_dir a))).
    - apply makedirs_ok in Hmk. destruct Hmk as (_ & _ & Ht & _ & _ & _ & Ho & _).
      split; [exact Ht|]. eexists. split; [exact Ho|]. split; reflexivity.
    - injection Hmk as <-. split; [reflexivity|]. exists []. now rewrite app_nil_r. }
  destruct Hw0 as (Ht & pre & Hpre & Hapre & Hspre).
  rewrite get_audio_files_eq in Hmain, Hfound. cbn [fst] in Hfound.
  change (trees (say [Str.join "" (repeat "-" 60)] w0)) with (trees w0) in Hmain.
  rewrite Ht in Hmain.
  destruct (match os.lookup_tree (input_dir a) (trees w) with
            | Some es => _
            | None => []
            end) as [|f files]; [now elim Hfound|].
  destruct (kit_loop _ _ _ _ _) as [[successful|e] w3] eqn:Hloop; [|discriminate].
  injection Hmain as <-.
  apply (kit_loop_lines (f :: files) a ltac:(discriminate)) in Hloop.
  destruct Hloop as (lines & Hout & Ha & Hs). rewrite length_seq in Ha.
  cbn [stdout say set_stdout] in Hout |- *.
  set (found_line := ("Found " ++ Str.of_nat (List.length (f :: files)) ++ " audio files")%string)
    in *.
  set (search_line := ("Searching for audio files in: " ++ input_dir a)%string) in *.
  exists (pre ++ [Str.join "" (repeat "-" 60); search_line; found_line;
                  (nl ++ Str.join "" (repeat "=" 60))%string]
              ++ lines ++ [Str.join "" (repeat "=" 60)]).
  assert (Hfixed : forall l, In l [Str.join "" (repeat "-" 60); search_line; found_line;
                                   (nl ++ Str.join "" (repeat "=" 60))%string;
                                   Str.join "" (repeat "=" 60)] ->
                   String.eqb success_header l = false /\
                   begins_with attempt_prefix l = false).
  { intros l Hl. repeat (destruct Hl as [<-|Hl]; [split; reflexivity|]). destruct Hl. }
  assert (Hcount : forall ls, (forall l, In l ls ->
                                 String.eqb success_header l = false /\
                                 begins_with attempt_prefix l = false) ->
                   announced ls = [] /\ successes ls = 0).
  { induction ls as [|l ls IHls]; intros Hall; [now split|].
    destruct (Hall l (or_introl eq_refl)) as [He Hp].
    destruct IHls as [IHa IHs]; [intros x Hx; apply Hall; now right|].
    unfold announced, successes in *. cbn [filter]. rewrite He, Hp. now split. }
  destruct (Hcount [Str.join "" (repeat "-" 60); search_line; found_line;
                    (nl ++ Str.join "" (repeat "=" 60))%string]) as [Ha1 Hs1].
  { intros l Hl. apply Hfixed. cbn [In] in *. tauto. }
  destruct (Hcount [Str.join "" (repeat "=" 60)]) as [Ha2 Hs2].
  { intros l Hl. apply Hfixed. cbn [In] in *. tauto. }
  rewrite !successes_app, !announced_app, Hapre, Hspre, Ha1, Hs1, Ha2, Hs2.
  cbn [app]. rewrite app_nil_r, Nat.add_0_r. split; [|exact Ha].
  rewrite Hout, Hpre, Hs. cbn [Nat.add].
  repeat (rewrite <- ?app_assoc; cbn [app]). reflexivity.
Qed.

(** C4. When the placement of a selected file raises after the files
    before it were placed, [create_drum_kit] prints the error and returns
    [False] at once: the files after it are not attempted, the files placed
    before it stay where they are, and the kit is not told as made; the kit
    loop goes on with the next kit, after the pause, without counting this
    one. A kit prints the line of a kit made exactly when it returns
    [True]; the loop begins every kit it is asked for and counts exactly
    the kits that were made, and a run that ends normally ends on the
    report of that count out of the number asked for. *)
Theorem placement_failure_aborts_kit audio_files a w wm pre f post e w1 w2 :
  audio_files <> [] -> (0 <= max_files a)%Z ->
  os.makedirs (kit_dir_of (output_dir a) w) (set_clock (tl (clock w)) w) = (Returned tt, wm) ->
  selected_of audio_files (max_files a) w = pre ++ f :: post ->
  place_files (use_symlinks a) (kit_dir_of (output_dir a) w) 1 pre
    (loop_start audio_files (max_files a) (use_symlinks a) (kit_name_at (reading w)) wm)
  = (Returned true, w1) ->
  place (use_symlinks a) f
    (dest_path_of (kit_dir_of (output_dir a) w) (1 + List.length pre) f) w1
  = (Raised e, w2) ->
  create_drum_kit audio_files (output_dir a) (max_files a) (use_symlinks a) w
  = (Returned false, say [error_line (use_symlinks a) f e] w1) /\
  fs (say [error_line (use_symlinks a) f e] w1) = fs w1 /\
  events (say [error_line (use_symlinks a) f e] w1) = events w1 /\
  (exists evs,
     events w1 = events wm ++ evs /\
     map event_source evs = map Some pre /\
     Forall (fun ev => exists d, placed_path ev = Some d /\ os.lookup d (fs w1) <> None) evs) /\
  (exists lines,
     stdout (say [error_line (use_symlinks a) f e] w1) = stdout w ++ lines /\
     announced lines = [(attempt_prefix ++ kit_name_at (reading w))%string] /\
     successes lines = 0) /\
  (forall kit_num rest successful,
     kit_loop audio_files a (kit_num :: rest) successful w
     = kit_loop audio_files a rest successful
         (pause a kit_num (say [error_line (use_symlinks a) f e] w1))) /\
  (forall w0 b wr,
     create_drum_kit audio_files (output_dir a) (max_files a) (use_symlinks a) w0
     = (Returned b, wr) ->
     exists lines,
       stdout wr = stdout w0 ++ lines /\
       announced lines = [(attempt_prefix ++ kit_name_at (reading w0))%string] /\
       successes lines = (if b then 1 else 0)) /\
  (forall kit_nums s0 w0 s' wr,
     kit_loop audio_files a kit_nums s0 w0 = (Returned s', wr) ->
     exists lines,
       stdout wr = stdout w0 ++ lines /\
       List.length (announced lines) = List.length kit_nums /\
       s' = s0 + successes lines) /\
  (forall w0 wr,
     main a w0 = (Returned tt, wr) ->
     fst (get_audio_files (input_dir a) (extensions a) w0) <> Returned [] ->
     exists printed,
       stdout wr = stdout w0 ++ printed
                     ++ [report_line (successes printed) (num_kits a); "Done!"] /\
       List.length (announced printed) = num_kits a).
Proof.
  intros Hne Hk Hmk Hsel Hpre Hfail.
  assert (Hkit : create_drum_kit audio_files (output_dir a) (max_files a) (use_symlinks a) w
                 = (Returned false, say [error_line (use_symlinks a) f e] w1)).
  { rewrite (create_drum_kit_run _ _ _ _ _ Hne), Hmk.
    destruct (Z.ltb_spec (max_files a) 0) as [|_]; [lia|].
    rewrite Hsel, (place_files_app _ _ _ _ _ _ _ Hpre), place_files_cons, Hfail.
    apply place_frame in Hfail. now subst w2. }
  split; [exact Hkit|]. split; [reflexivity|]. split; [reflexivity|].
  split; [|split; [|split; [|split; [|split]]]].
  - apply place_files_frame in Hpre.
    destruct Hpre as (_ & _ & _ & _ & _ & _ & evs & n & Hev & Hsrc & Hn & Hb & Hthere).
    exists evs. split; [exact Hev|]. split; [|exact Hthere].
    destruct Hb as [Hb _]. rewrite (Hb eq_refl), firstn_all in Hsrc. exact Hsrc.
  - exact (create_drum_kit_lines _ _ _ _ _ _ _ Hne Hkit).
  - intros kit_num rest successful. now rewrite kit_loop_cons, Hkit.
  - intros w0 b wr. now apply create_drum_kit_lines.
  - intros kit_nums s0 w0 s' wr. now apply kit_loop_lines.
  - intros w0 wr. apply main_lines.
Qed.

Lemma placement_failure_aborts_kit_witness :
  let a := Demo.two_link_kits in
  let w := Demo.w_clash_run in
  let kit_dir := "out/DrumKit_20240309_120000" in
  let e := FileExistsError "out/DrumKit_20240309_120000/02_Snare.WAV" in
  exists w',
    create_drum_kit Demo.discovered (output_dir a) (max_files a) (use_symlinks a) w
    = (Returned false, w') /\
    os.lookup "out/DrumKit_20240309_120000/01_closed.AIF" (fs w')
    = Some (Symlink "lib/hats/closed.AIF") /\
    last (stdout w') EmptyString = error_line true "lib/Snare.WAV" e /\
    fst (kit_loop Demo.discovered a [0; 1] 0 w) = Returned 1.
Proof.
  intros a w kit_dir e.
  pose (wm := snd (os.makedirs (kit_dir_of (output_dir a) w) (set_clock (tl (clock w)) w))).
  pose (w1 := snd (place_files true kit_dir 1 ["lib/hats/closed.AIF"]
                     (loop_start Demo.discovered 2 true (kit_name_at (reading w)) wm))).
  destruct (placement_failure_aborts_kit Demo.discovered a w wm
              ["lib/hats/closed.AIF"] "lib/Snare.WAV" [] e w1 w1)
    as (Hkit & _ & _ & _ & _ & Hloop & _).
  - discriminate.
  - discriminate.
  - vm_compute. reflexivity.
  - vm_compute. reflexivity.
  - vm_compute. reflexivity.
  - vm_compute. reflexivity.
  - eexists. split; [exact Hkit|]. split; [vm_compute; reflexivity|]. split; [vm_compute; reflexivity|].
    rewrite Hloop. vm_compute. reflexivity.
Defined.


Lemma main_raises a w e w' :
  (0 <= max_files a)%Z ->
  main a w = (Raised e, w') ->
  exists p w0, os.makedirs p w0 = (Raised e, w').
Proof.
  intros Hk. rewrite main_run.
  destruct (negb (os.exists_ (fs w) (output_dir a))).
  - destruct (os.makedirs _ _) as [[[]|e0] w0] eqn:Hmk.
    + rewrite get_audio_files_eq.
      destruct (match os.lookup_tree _ _ with Some _ => _ | None => _ end) as [|f files];
        [discriminate|].
      destruct (kit_loop _ _ _ _ _) as [[successful|e1] w3] eqn:Hloop; [discriminate|].
      intros [= <- <-]. eapply (kit_loop_raises (f :: files)); [discriminate | exact Hk | exact Hloop].
    + intros [= <- <-]. eauto.
  - rewrite get_audio_files_eq.
    destruct (match os.lookup_tree _ _ with Some _ => _ | None => _ end) as [|f files];
      [discriminate|].
    destruct (kit_loop _ _ _ _ _) as [[successful|e1] w3] eqn:Hloop; [discriminate|].
    intros [= <- <-]. eapply (kit_loop_raises (f :: files)); [discriminate | exact Hk | exact Hloop].
Qed.

(** C7 as stated fails: an error of os.makedirs, for a kit directory
    (line 52) or for the output directory (line 125), is caught nowhere and
    ends the run. *)
Lemma makedirs_error_reaches_top_level :
  (exists w', main Demo.two_copy_kits Demo.w_refused
              = (Raised (OSError "out/DrumKit_20240309_120000"), w')) /\
  (exists w', main Demo.two_copy_kits Demo.w_no_output = (Raised (OSError "out"), w')).
Proof.
  split; eexists; vm_compute; reflexivity.
Qed.

(** C7 as the code has it. An error raised while a file is placed is caught
    where it occurs, printed, and turned into the result [False]: the
    placement loop always returns; discovery always returns; and a run
    raises only an error that os.makedirs raised. *)
Theorem only_makedirs_errors_propagate a w :
  (0 < max_files a)%Z ->
  (forall sym kit_dir i selected w0,
     exists b w', place_files sym kit_dir i selected w0 = (Returned b, w')) /\
  (forall sym kit_dir i f rest w0 e w1,
     place sym f (dest_path_of kit_dir i f) w0 = (Raised e, w1) ->
     place_files sym kit_dir i (f :: rest) w0
     = (Returned false, say [error_line sym f e] w0)) /\
  (forall dir exts w0,
     exists files w', get_audio_files dir exts w0 = (Returned files, w')) /\
  (forall audio_files w0 e w',
     audio_files <> [] ->
     create_drum_kit audio_files (output_dir a) (max_files a) (use_symlinks a) w0
     = (Raised e, w') ->
     os.makedirs (kit_dir_of (output_dir a) w0) (set_clock (tl (clock w0)) w0)
     = (Raised e, w')) /\
  (forall e w', main a w = (Raised e, w') ->
                exists p w0, os.makedirs p w0 = (Raised e, w')).
Proof.
  intros Hk. split; [|split; [|split; [|split]]].
  - intros. apply place_files_total.
  - intros sym kit_dir i f rest w0 e w1 Hfail. rewrite place_files_cons, Hfail.
    apply place_frame in Hfail. now subst w1.
  - intros dir exts w0. rewrite get_audio_files_eq. eauto.
  - intros audio_files w0 e w' Hne Hrun.
    pose proof (create_drum_kit_outcome audio_files (output_dir a) (max_files a)
                  (use_symlinks a) w0 Hne ltac:(lia)) as Hout.
    now rewrite Hrun in Hout.
  - intros e w'. apply main_raises. lia.
Qed.

Lemma only_makedirs_errors_propagate_witness :
  (forall e w', main Demo.two_copy_kits Demo.w_refused = (Raised e, w') ->
                exists p w0, os.makedirs p w0 = (Raised e, w')) /\
  (exists b w',
     place_files true "out/DrumKit_20240309_120000" 2 ["lib/Snare.WAV"] Demo.w_clash
     = (Returned b, w')).
Proof.
  destruct (only_makedirs_errors_propagate Demo.two_copy_kits Demo.w_refused)
    as (Htotal & _ & _ & _ & Hmain).
  - reflexivity.
  - split; [exact Hmain | apply Htotal].
Defined.


(* ================================================================== *)
(** * A destination that exists already *)

Lemma copy2_plain src dst data w :
  os.lookup src (fs w) = Some (RegFile data) -> Str.mem src (refused w) = false ->
  plain (fs w) dst = true -> Str.mem dst (refused w) = false -> src <> dst ->
  shutil.copy2 src dst w =
  (Returned tt,
   set_events (events w ++ [Copied src dst])
              (set_fs (os.update dst (RegFile data) (fs w)) w)).
Proof.
  intros Hsrc Hrs Hplain Hrd Hne.
  destruct (plain_resolve _ _ Hplain) as [Hdir Hres].
  assert (Hres_src : os.resolve os.MAXSYMLINKS (fs w) src = Some src).
  { unfold os.MAXSYMLINKS. cbn [os.resolve]. now rewrite Hsrc. }
  unfold shutil.copy2. cbv [bind get_world]. rewrite Hdir, Hres_src, Hres.
  apply String.eqb_neq in Hne. rewrite Hne. cbn [andb].
  unfold shutil.read_file. rewrite Hres_src, Hsrc, Hrs.
  unfold plain in Hplain.
  destruct (os.lookup dst (fs w)) as [[old| |t]|]; try discriminate; now rewrite Hrd.
Qed.

(** In copy mode a kit whose sources are readable and whose destinations
    are writable is completed, whether the destinations exist or not. *)
Lemma copy_loop_succeeds kit_dir selected : forall i w,
  Forall (readable w) selected ->
  Forall (writable w selected) (dest_paths kit_dir i selected) ->
  exists w',
    place_files false kit_dir i selected w = (Returned true, w') /\
    stdout w' = stdout w ++ placed_lines i selected /\
    (forall q data, os.lookup q (fs w) = Some (RegFile data) ->
                    exists data', os.lookup q (fs w') = Some (RegFile data')) /\
    Forall (fun d => exists data, os.lookup d (fs w') = Some (RegFile data))
           (dest_paths kit_dir i selected).
Proof.
  induction selected as [|f rest IH]; intros i w Hsrc Hdst.
  - exists w. cbn. rewrite app_nil_r. repeat split; eauto.
  - cbn [dest_paths] in Hdst.
    apply Forall_cons_iff in Hsrc. destruct Hsrc as [[[data Hf] Hrf] Hsrc].
    apply Forall_cons_iff in Hdst. destruct Hdst as [(Hplain & Hrd & Hnin) Hdst].
    set (d := dest_path_of kit_dir i f) in *.
    rewrite place_files_cons. unfold place. fold d.
    rewrite (copy2_plain f d data w Hf Hrf Hplain Hrd).
    2:{ intros E. apply Hnin. left. exact E. }
    match goal with |- context [place_files _ _ _ _ ?w0] => set (w1 := w0) end.
    destruct (IH (S i) w1) as (w' & Hrun & Hout & Hkeep & Hthere).
    { rewrite Forall_forall in *. intros g Hg. destruct (Hsrc g Hg) as [[dg Hlg] Hrg].
      split; [|exact Hrg].
      exists dg. subst w1. cbn [fs set_stdout set_events set_fs]. rewrite lookup_update.
      destruct (String.eqb_spec d g) as [E|_]; [|exact Hlg].
      exfalso. apply Hnin. right. now rewrite E. }
    { eapply Forall_impl; [|exact Hdst]. intros q (Hq & Hrq & Hnq). repeat split.
      - subst w1. cbn [fs set_stdout set_events set_fs]. now apply plain_update.
      - exact Hrq.
      - intros Hin. apply Hnq. now right. }
    exists w'. rewrite Hrun. split; [reflexivity|]. split; [|split].
    + rewrite Hout. subst w1. cbn [stdout set_stdout set_events set_fs placed_lines].
      now rewrite <- app_assoc.
    + intros q dq Hq. destruct (String.eqb_spec d q) as [E|Hneq].
      * apply (Hkeep q data). subst w1. cbn [fs set_stdout set_events set_fs].
        now rewrite lookup_update, E, String.eqb_refl.
      * apply (Hkeep q dq). subst w1. cbn [fs set_stdout set_events set_fs].
        rewrite lookup_update. apply String.eqb_neq in Hneq. now rewrite Hneq.
    + cbn [dest_paths]. constructor; [|exact Hthere]. fold d.
      apply (Hkeep d data). subst w1. cbn [fs set_stdout set_events set_fs].
      now rewrite lookup_update, String.eqb_refl.
Qed.

(** In link mode a kit one of whose destinations exists is not completed. *)
Lemma symlink_loop_fails kit_dir selected p : forall i w,
  In p (dest_paths kit_dir i selected) -> os.lookup p (fs w) <> None ->
  exists w', place_files true kit_dir i selected w = (Returned false, w').
Proof.
  induction selected as [|f rest IH]; intros i w Hin Hp; [contradiction|].
  rewrite place_files_cons. unfold place. rewrite symlink_run.
  destruct (os.lookup (dest_path_of kit_dir i f) (fs w)) eqn:E; [eauto|].
  destruct (Str.mem _ (refused w)); [eauto|].
  destruct Hin as [<- | Hin]; [contradiction|].
  apply IH; [exact Hin|]. cbn [fs set_stdout set_events set_fs]. rewrite lookup_update.
  now destruct (_ =? p)%string.
Qed.


(** C10. Where the destination of a selected file exists already as a
    file, the two modes part: in link mode os.symlink raises, the kit is
    abandoned and reported failed; in copy mode, the sources being readable
    and the destinations writable, shutil.copy2 writes over the file
    without a word and the kit succeeds. *)
Theorem existing_destination_asymmetry audio_files output_dir max_files w wm p old :
  audio_files <> [] -> (0 <= max_files)%Z ->
  os.makedirs (kit_dir_of output_dir w) (set_clock (tl (clock w)) w) = (Returned tt, wm) ->
  In p (dest_paths (kit_dir_of output_dir w) 1 (selected_of audio_files max_files w)) ->
  os.lookup p (fs wm) = Some (RegFile old) ->
  (exists w', create_drum_kit audio_files output_dir max_files true w = (Returned false, w')) /\
  (Forall (readable wm) (selected_of audio_files max_files w) ->
   Forall (writable wm (selected_of audio_files max_files w))
          (dest_paths (kit_dir_of output_dir w) 1 (selected_of audio_files max_files w)) ->
   exists w' data,
     create_drum_kit audio_files output_dir max_files false w = (Returned true, w') /\
     os.lookup p (fs w') = Some (RegFile data) /\
     stdout w' = stdout wm
                 ++ start_lines false (kit_name_at (reading w)) (num_files_of audio_files max_files)
                 ++ placed_lines 1 (selected_of audio_files max_files w)
                 ++ success_lines (kit_dir_of output_dir w)) /\
  (forall src w0,
     os.lookup p (fs w0) = Some (RegFile old) ->
     os.symlink src p w0 = (Raised (FileExistsError p), w0)) /\
  (forall src data w0,
     os.lookup p (fs w0) = Some (RegFile old) ->
     os.lookup src (fs w0) = Some (RegFile data) ->
     Str.mem src (refused w0) = false -> Str.mem p (refused w0) = false -> src <> p ->
     exists w1,
       shutil.copy2 src p w0 = (Returned tt, w1) /\
       os.lookup p (fs w1) = Some (RegFile data) /\ stdout w1 = stdout w0).
Proof.
  intros Hne Hk Hmk Hin Hp. split; [|split; [|split]].
  - rewrite (create_drum_kit_run _ _ _ _ _ Hne), Hmk.
    destruct (Z.ltb_spec max_files 0) as [|_]; [lia|].
    destruct (symlink_loop_fails (kit_dir_of output_dir w)
                (selected_of audio_files max_files w) p 1
                (loop_start audio_files max_files true (kit_name_at (reading w)) wm) Hin)
      as (w3 & Hrun).
    + cbn [fs loop_start say set_stdout set_rng]. now rewrite Hp.
    + rewrite Hrun. eauto.
  - intros Hsrc Hdst. rewrite (create_drum_kit_run _ _ _ _ _ Hne), Hmk.
    destruct (Z.ltb_spec max_files 0) as [|_]; [lia|].
    destruct (copy_loop_succeeds (kit_dir_of output_dir w)
                (selected_of audio_files max_files w) 1
                (loop_start audio_files max_files false (kit_name_at (reading w)) wm))
      as (w3 & Hrun & Hout & _ & Hthere).
    + exact Hsrc.
    + exact Hdst.
    + rewrite Hrun. rewrite Forall_forall in Hthere. destruct (Hthere p Hin) as [data Hdata].
      eexists. exists data. split; [reflexivity|]. split; [exact Hdata|].
      unfold say at 1. cbn [stdout set_stdout]. rewrite Hout.
      unfold loop_start, say. cbn [stdout set_stdout set_rng].
      now rewrite <- !app_assoc.
  - intros src w0 H0. rewrite symlink_run. now rewrite H0.
  - intros src data w0 H0 Hsrc Hrs Hrp Hneq. eexists.
    rewrite (copy2_plain src p data w0 Hsrc Hrs); [| |exact Hrp|exact Hneq].
    + split; [reflexivity|]. cbn [fs stdout set_events set_fs].
      now rewrite lookup_update, String.eqb_refl.
    + unfold plain. now rewrite H0.
Qed.

Lemma existing_destination_asymmetry_witness :
  let p := "out/DrumKit_20240309_120000/02_Snare.WAV" in
  os.lookup p (fs Demo.w_clash) = Some (RegFile "OLD") /\
  (exists w', create_drum_kit Demo.discovered "out" 2 true Demo.w_clash = (Returned false, w')) /\
  (exists w',
     create_drum_kit Demo.discovered "out" 2 false Demo.w_clash = (Returned true, w') /\
     os.lookup p (fs w') = Some (RegFile "SNARE")).
Proof.
  intros p. split; [vm_compute; reflexivity|].
  pose (w := Demo.w_clash).
  pose (wm := snd (os.makedirs (kit_dir_of "out" w) (set_clock (tl (clock w)) w))).
  destruct (existing_destination_asymmetry Demo.discovered "out" 2 w wm p "OLD")
    as (Hlink & Hcopy & _).
  - discriminate.
  - discriminate.
  - vm_compute. reflexivity.
  - vm_compute. auto.
  - vm_compute. reflexivity.
  - split; [exact Hlink|].
    destruct Hcopy as (w' & data & Hrun & Hdata & _).
    + vm_compute. repeat constructor; eauto.
    + vm_compute. repeat constructor; try reflexivity;
        intros H; repeat (destruct H as [H|H]; [discriminate|]); exact H.
    + exists w'. split; [exact Hrun|].
      assert (E : w' = snd (create_drum_kit Demo.discovered "out" 2 false Demo.w_clash))
        by (fold w; now rewrite Hrun).
      rewrite E. reflexivity.
Defined.


(* ================================================================== *)
(** * The name of a kit *)

Lemma string_app_inv_head (a b c : string) : (a ++ b = a ++ c)%string -> b = c.
Proof. induction a as [|x a IH]; simpl; [auto | intros [= H]; auto]. Qed.

Lemma string_app_inj_length (a a' b b' : string) :
  String.length a = String.length a' -> (a ++ b = a' ++ b')%string -> a = a' /\ b = b'.
Proof.
  revert a'. induction a as [|x a IH]; intros [|x' a'] Hlen H; try discriminate.
  - now split.
  - simpl in *. injection H as -> H. injection Hlen as Hlen.
    destruct (IH a' Hlen H) as [-> ->]. now split.
Qed.

Lemma field_02d n : n < 100 -> field 2 n (Str.format_02d n).
Proof.
  intros H. destruct (rjust_zero_spec 2 n) as (Hdig & Hval & _).
  repeat split; [now apply format_02d_length | exact Hdig | exact Hval].
Qed.

Lemma field_04d n : n < 100 * 100 -> field 4 n (Str.format_04d n).
Proof.
  intros H. destruct (rjust_zero_spec 4 n) as (Hdig & Hval & _).
  repeat split; [now apply format_04d_length | exact Hdig | exact Hval].
Qed.

Lemma days_in_month_le y m : dt.days_in_month y m <= 31.
Proof.
  unfold dt.days_in_month. destruct ((m =? 2) && dt.is_leap y); [lia|].
  do 13 (destruct m as [|m]; [simpl; lia|]). simpl. destruct m; lia.
Qed.

Lemma valid_bounds d :
  dt.valid d = true ->
  year d < 100 * 100 /\ month d < 100 /\ day d < 100 /\
  hour d < 100 /\ minute d < 100 /\ second d < 100 /\
  (0 <= microsecond d < 1000000)%Z.
Proof.
  unfold dt.valid. intros H.
  repeat (apply andb_prop in H; destruct H as [H ?]).
  repeat match goal with
         | H : (_ <=? _) = true |- _ => apply Nat.leb_le in H
         | H : (_ <? _) = true |- _ => apply Nat.ltb_lt in H
         | H : (_ <=? _)%Z = true |- _ => apply Z.leb_le in H
         | H : (_ <? _)%Z = true |- _ => apply Z.ltb_lt in H
         end.
  pose proof (days_in_month_le (year d) (month d)). lia.
Qed.

(** strftime writes a valid reading in the format YYYYMMDD_HHMMSS. *)
Lemma strftime_shape d : dt.valid d = true -> is_timestamp d (dt.strftime d).
Proof.
  intros H. apply valid_bounds in H. destruct H as (Hy & Hmo & Hd & Hh & Hmi & Hs & _).
  exists (Str.format_04d (year d)), (Str.format_02d (month d)), (Str.format_02d (day d)),
         (Str.format_02d (hour d)), (Str.format_02d (minute d)), (Str.format_02d (second d)).
  split; [reflexivity|].
  repeat split; try (apply field_02d; assumption); apply field_04d; assumption.
Qed.

(** A time stamp determines the reading up to its microseconds. *)
Lemma timestamp_fields d1 d2 s :
  is_timestamp d1 s -> is_timestamp d2 s ->
  year d1 = year d2 /\ month d1 = month d2 /\ day d1 = day d2 /\
  hour d1 = hour d2 /\ minute d1 = minute d2 /\ second d1 = second d2.
Proof.
  intros (y & mo & dd & h & mi & se & -> & Fy & Fmo & Fdd & Fh & Fmi & Fse)
         (y' & mo' & dd' & h' & mi' & se' & E & Fy' & Fmo' & Fdd' & Fh' & Fmi' & Fse').
  unfold field in *.
  repeat match goal with H : _ /\ _ |- _ => destruct H end.
  apply string_app_inj_length in E; [|congruence]. destruct E as [-> E].
  apply string_app_inj_length in E; [|congruence]. destruct E as [-> E].
  apply string_app_inj_length in E; [|congruence]. destruct E as [-> E].
  simpl in E. injection E as E.
  apply string_app_inj_length in E; [|congruence]. destruct E as [-> E].
  apply string_app_inj_length in E; [|congruence]. destruct E as [-> ->].
  repeat split; congruence.
Qed.

Lemma join_inv_head a b c :
  Str.startswith "/" b = false -> Str.startswith "/" c = false ->
  os_path.join a b = os_path.join a c -> b = c.
Proof.
  unfold os_path.join. intros -> ->.
  destruct ((a =? "")%string || Str.endswith "/" a); intros H.
  - now apply string_app_inv_head in H.
  - apply string_app_inv_head in H. now injection H.
Qed.

(** Readings a second or more apart give different kit names. *)
Lemma kit_names_differ d1 d2 :
  dt.valid d1 = true -> dt.valid d2 = true ->
  (dt.microseconds d1 + 1000000 <= dt.microseconds d2)%Z ->
  kit_name_at d1 <> kit_name_at d2.
Proof.
  intros H1 H2 Hgap E. unfold kit_name_at in E. apply string_app_inv_head in E.
  pose proof (strftime_shape d1 H1) as S1. pose proof (strftime_shape d2 H2) as S2.
  rewrite E in S1.
  destruct (timestamp_fields d1 d2 _ S1 S2) as (Ey & Emo & Ed & Eh & Emi & Es).
  apply valid_bounds in H1, H2.
  unfold dt.microseconds, dt.toordinal in Hgap.
  rewrite Ey, Emo, Ed, Eh, Emi, Es in Hgap. lia.
Qed.


(* ================================================================== *)
(** * The library models on concrete inputs *)

Example splitext_examples :
  os_path.splitext "kick.WAV" = ("kick", ".WAV") /\
  os_path.splitext ".wav" = (".wav", "") /\
  os_path.splitext "a.b/c" = ("a.b/c", "") /\
  os_path.splitext "..x.y" = ("..x", ".y") /\
  os_path.splitext "foo." = ("foo", ".").
Proof. repeat split. Qed.

Example join_basename_examples :
  os_path.join "a" "b" = "a/b" /\ os_path.join "a/" "b" = "a/b" /\
  os_path.join "" "b" = "b" /\ os_path.join "a" "/b" = "/b" /\
  os_path.basename "a/b/c.wav" = "c.wav" /\ os_path.basename "c" = "c" /\
  os_path.basename "a/" = "".
Proof. repeat split. Qed.

Example format_examples :
  Str.format_02d 7 = "07" /\ Str.format_02d 100 = "100" /\ Str.format_2d 3 = " 3" /\
  Str.of_nat 0 = "0" /\ Str.format_04d 2024 = "2024" /\
  Str.strip "." "..a.b.." = "a.b" /\ Str.lower "WaV1" = "wav1" /\ Str.strip "." "..." = "".
Proof. repeat split. Qed.

(* ================================================================== *)
(** * Further properties of discovery *)



Lemma mem_ext x l l' : (forall y, In y l <-> In y l') -> Str.mem x l = Str.mem x l'.
Proof.
  intros H. destruct (Str.mem x l) eqn:E, (Str.mem x l') eqn:E'; try reflexivity.
  - apply mem_In, H, mem_In in E. congruence.
  - apply mem_In, H, mem_In in E'. congruence.
Qed.

(** Discovery depends on the extension list through the set of its
    normalized tokens only: case, dots at either end, order and repetition
    of the tokens make no difference to the list returned. *)
Theorem extensions_matter_by_normal_form w input_dir extensions extensions' :
  (forall x, In x (normalize extensions) <-> In x (normalize extensions')) ->
  fst (get_audio_files input_dir extensions w)
  = fst (get_audio_files input_dir extensions' w).
Proof.
  intros H. rewrite !get_audio_files_eq. cbn [fst]. f_equal.
  destruct (os.lookup_tree input_dir (trees w)) as [es|]; [|reflexivity].
  apply flat_map_ext. intros [[root dirs] files]. unfold matching. cbn [fst snd].
  f_equal. apply filter_ext. intros f. now apply mem_ext.
Qed.

Lemma extensions_matter_by_normal_form_witness :
  fst (get_audio_files "lib" ["WAV"; ".aif"; "wav"; "..Wav."] Demo.w0)
  = fst (get_audio_files "lib" ["aif"; "wav"] Demo.w0).
Proof.
  apply extensions_matter_by_normal_form. intros x. simpl. tauto.
Defined.

(* ================================================================== *)
(** * Further properties of kit assembly *)



(** The edges of [max_files], which [main] never passes: with 0 the kit
    directory is made, nothing is placed and the kit is reported a success;
    with a negative number random.sample raises ValueError, after the kit
    directory was made. *)
Theorem zero_and_negative_max_files audio_files output_dir use_symlinks w wm :
  audio_files <> [] ->
  os.makedirs (kit_dir_of output_dir w) (set_clock (tl (clock w)) w) = (Returned tt, wm) ->
  (exists w',
     create_drum_kit audio_files output_dir 0 use_symlinks w = (Returned true, w') /\
     events w' = events wm /\ fs w' = fs wm /\
     os.isdir (fs w') (kit_dir_of output_dir w) = true) /\
  (forall max_files,
     (max_files < 0)%Z ->
     create_drum_kit audio_files output_dir max_files use_symlinks w
     = (Raised (ValueError "Sample larger than population or is negative"), wm) /\
     os.isdir (fs wm) (kit_dir_of output_dir w) = true).
Proof.
  intros Hne Hmk. pose proof (makedirs_ok _ _ _ Hmk) as (Hdir & _). split.
  - rewrite (create_drum_kit_run _ _ _ _ _ Hne), Hmk.
    change (0 <? 0)%Z with false. cbv iota.
    assert (Hsel : selected_of audio_files 0 w = []).
    { unfold selected_of, num_files_of.
      replace (Z.to_nat (Z.min (Z.of_nat (List.length audio_files)) 0)) with 0 by lia.
      unfold random.draw. now destruct (_ <=? _). }
    rewrite Hsel. cbn [place_files]. unfold ret.
    eexists. split; [reflexivity|]. repeat split. exact Hdir.
  - intros max_files Hk. rewrite (create_drum_kit_run _ _ _ _ _ Hne), Hmk.
    destruct (Z.ltb_spec max_files 0); [|lia]. now split.
Qed.

Lemma zero_and_negative_max_files_witness :
  (exists w', create_drum_kit Demo.discovered "out" 0 true Demo.w0 = (Returned true, w')) /\
  fst (create_drum_kit Demo.discovered "out" (-1) true Demo.w0)
  = Raised (ValueError "Sample larger than population or is negative").
Proof.
  pose (wm := snd (os.makedirs (kit_dir_of "out" Demo.w0)
                     (set_clock (tl (clock Demo.w0)) Demo.w0))).
  destruct (zero_and_negative_max_files Demo.discovered "out" true Demo.w0 wm)
    as ((w' & Hzero & _) & Hneg).
  - discriminate.
  - vm_compute. reflexivity.
  - split; [eauto|]. destruct (Hneg (-1)%Z) as [E _]; [reflexivity|]. now rewrite E.
Defined.

Lemma is_digit_not_separator c :
  Str.is_digit c = true -> (c =? "/")%char = false /\ (c =? "_")%char = false.
Proof.
  destruct c as [[] [] [] [] [] [] [] []]; intros H; try discriminate H; now split.
Qed.

Lemma digits_prefix_unique a : forall b x y,
  all_digits a = true -> all_digits b = true ->
  (a ++ String "_" x = b ++ String "_" y)%string -> a = b /\ x = y.
Proof.
  induction a as [|c a IH]; intros [|c' b] x y Ha Hb E; cbn [append all_digits] in *.
  - injection E as <-. now split.
  - apply andb_prop in Hb. destruct Hb as [Hc _]. injection E as <- _.
    apply is_digit_not_separator in Hc. destruct Hc as [_ Hc]. discriminate Hc.
  - apply andb_prop in Ha. destruct Ha as [Hc _]. injection E as -> _.
    apply is_digit_not_separator in Hc. destruct Hc as [_ Hc]. discriminate Hc.
  - apply andb_prop in Ha, Hb. destruct Ha as [_ Ha], Hb as [_ Hb].
    injection E as -> E. destruct (IH b x y Ha Hb E) as [-> ->]. now split.
Qed.

Lemma new_filename_index i f j g :
  new_filename i f = new_filename j g -> i = j.
Proof.
  unfold new_filename, Str.format_02d. intros E.
  destruct (rjust_zero_spec 2 i) as (Hdi & Hvi & _).
  destruct (rjust_zero_spec 2 j) as (Hdj & Hvj & _).
  apply digits_prefix_unique in E; [|assumption|assumption].
  destruct E as [E _]. rewrite <- Hvi, <- Hvj. now rewrite E.
Qed.

Lemma new_filename_relative i f : Str.startswith "/" (new_filename i f) = false.
Proof.
  unfold new_filename, Str.format_02d.
  destruct (rjust_zero_spec 2 i) as (_ & _ & _ & c & rest & -> & Hc).
  cbn [append Str.startswith]. now apply is_digit_not_separator in Hc.
Qed.

Lemma dest_path_index kit_dir i f j g :
  dest_path_of kit_dir i f = dest_path_of kit_dir j g -> i = j.
Proof.
  unfold dest_path_of. intros E.
  apply join_inv_head in E; try apply new_filename_relative.
  now apply new_filename_index in E.
Qed.

Lemma dest_paths_index kit_dir selected : forall i p,
  In p (dest_paths kit_dir i selected) ->
  exists j f, i <= j /\ nth_error selected (j - i) = Some f /\ p = dest_path_of kit_dir j f.
Proof.
  induction selected as [|g rest IH]; intros i p Hin; [contradiction|].
  destruct Hin as [<- | Hin].
  - exists i, g. rewrite Nat.sub_diag. now repeat split.
  - destruct (IH (S i) p Hin) as (j & f & Hj & Hnth & ->).
    exists j, f. repeat split; [lia|].
    replace (j - i) with (S (j - S i)) by lia. exact Hnth.
Qed.

(** Line 66, "add number prefix to avoid name conflicts": whatever the
    selection, also with files of the same base name, the destinations of
    one kit are pairwise different. *)
Theorem destinations_distinct kit_dir selected i :
  NoDup (dest_paths kit_dir i selected) /\
  (forall a b f g,
     nth_error selected a = Some f -> nth_error selected b = Some g ->
     dest_path_of kit_dir (i + a) f = dest_path_of kit_dir (i + b) g -> a = b).
Proof.
  split.
  - revert i. induction selected as [|g rest IH]; intros i; [constructor|].
    cbn [dest_paths]. constructor; [|apply IH].
    intros Hin. apply dest_paths_index in Hin. destruct Hin as (j & f & Hj & _ & E).
    apply dest_path_index in E. lia.
  - intros a b f g _ _ E. apply dest_path_index in E. lia.
Qed.

Lemma makedirs_keeps p w w1 :
  os.makedirs p w = (Returned tt, w1) ->
  forall q x, os.lookup q (fs w) = Some x -> os.lookup q (fs w1) = Some x.
Proof.
  rewrite makedirs_run. destruct (os.isdir (fs w) p); [now intros [= <-]|].
  destruct (os.lookup p (fs w)) eqn:E; [discriminate|].
  destruct (Str.mem p (refused w)); [discriminate|]. intros [= <-] q x Hq.
  cbn [fs set_events set_fs]. rewrite lookup_update.
  destruct (String.eqb_spec p q) as [->|_]; [congruence | exact Hq].
Qed.

Lemma link_loop kit_dir selected : forall i w w',
  place_files true kit_dir i selected w = (Returned true, w') ->
  (forall p x, os.lookup p (fs w) = Some x -> os.lookup p (fs w') = Some x) /\
  (forall j f, nth_error selected j = Some f ->
               os.lookup (dest_path_of kit_dir (i + j) f) (fs w') = Some (Symlink f)).
Proof.
  induction selected as [|g rest IH]; intros i w w' H.
  - injection H as <-. split; [auto|]. intros [|j] f Hj; discriminate.
  - rewrite place_files_cons in H. unfold place in H. rewrite symlink_run in H.
    destruct (os.lookup (dest_path_of kit_dir i g) (fs w)) eqn:E; [discriminate|].
    destruct (Str.mem _ (refused w)); [discriminate|].
    apply IH in H. cbn [fs set_stdout set_events set_fs] in H. destruct H as [Hkeep Hlinks].
    assert (Hstep : forall p x, os.lookup p (fs w) = Some x ->
                                os.lookup p (os.update (dest_path_of kit_dir i g)
                                               (Symlink g) (fs w)) = Some x).
    { intros p x Hp. rewrite lookup_update.
      destruct (String.eqb_spec (dest_path_of kit_dir i g) p) as [<-|_]; [congruence | exact Hp]. }
    split.
    + intros p x Hp. now apply Hkeep, Hstep.
    + intros [|j] f Hj.
      * injection Hj as <-. rewrite Nat.add_0_r. apply Hkeep.
        now rewrite lookup_update, String.eqb_refl.
      * replace (i + S j) with (S i + j) by lia. now apply Hlinks.
Qed.

(** In link mode a kit that succeeds leaves, at the destination of every
    selected file, a symbolic link to that file, and changes nothing that
    was there before: no source is touched. *)
Theorem link_kit_links_sources audio_files output_dir max_files w w' :
  audio_files <> [] -> (0 <= max_files)%Z ->
  create_drum_kit audio_files output_dir max_files true w = (Returned true, w') ->
  (forall p x, os.lookup p (fs w) = Some x -> os.lookup p (fs w') = Some x) /\
  (forall j f,
     nth_error (selected_of audio_files max_files w) j = Some f ->
     os.lookup (dest_path_of (kit_dir_of output_dir w) (S j) f) (fs w') = Some (Symlink f)).
Proof.
  intros Hne Hk. rewrite (create_drum_kit_run _ _ _ _ _ Hne).
  destruct (os.makedirs _ _) as [[[]|e] wm] eqn:Hmk; [|discriminate].
  destruct (Z.ltb_spec max_files 0) as [|_]; [lia|].
  destruct (place_files true _ 1 _ _) as [[[]|e] w3] eqn:Hloop; try discriminate.
  intros [= <-]. apply link_loop in Hloop. destruct Hloop as [Hkeep Hlinks].
  pose proof (makedirs_keeps _ _ _ Hmk) as Hmake. split.
  - intros p x Hp. apply Hkeep. cbn [fs loop_start say set_stdout set_rng].
    now apply Hmake.
  - intros j f Hj. now apply (Hlinks j f).
Qed.

Lemma link_kit_links_sources_witness :
  let w' := snd (create_drum_kit Demo.discovered "out" 2 true Demo.w0) in
  os.lookup "lib/kick.wav" (fs w') = Some (RegFile "KICK") /\
  os.lookup "out/DrumKit_20240309_120000/01_closed.AIF" (fs w')
  = Some (Symlink "lib/hats/closed.AIF").
Proof.
  intros w'.
  destruct (link_kit_links_sources Demo.discovered "out" 2 Demo.w0 w') as [Hkeep Hlinks].
  - discriminate.
  - discriminate.
  - vm_compute. reflexivity.
  - split.
    + apply Hkeep. reflexivity.
    + apply (Hlinks 0 "lib/hats/closed.AIF"). vm_compute. reflexivity.
Defined.

Lemma copy_loop_content kit_dir selected : forall i w,
  Forall (readable w) selected ->
  Forall (writable w selected) (dest_paths kit_dir i selected) ->
  exists w',
    place_files false kit_dir i selected w = (Returned true, w') /\
    (forall p x, os.lookup p (fs w) = Some x ->
                 ~ In p (dest_paths kit_dir i selected) ->
                 os.lookup p (fs w') = Some x) /\
    (forall j f data,
       nth_error selected j = Some f ->
       os.lookup f (fs w) = Some (RegFile data) ->
       os.lookup (dest_path_of kit_dir (i + j) f) (fs w') = Some (RegFile data)).
Proof.
  induction selected as [|g rest IH]; intros i w Hsrc Hdst.
  - exists w. split; [reflexivity|]. split; [auto|]. intros [|j] f data Hj; discriminate.
  - cbn [dest_paths] in Hdst.
    apply Forall_cons_iff in Hsrc. destruct Hsrc as [[[data Hg] Hrg] Hsrc].
    apply Forall_cons_iff in Hdst. destruct Hdst as [(Hplain & Hrd & Hnin) Hdst].
    pose proof (proj1 (destinations_distinct kit_dir (g :: rest) i)) as Hdistinct.
    cbn [dest_paths] in Hdistinct. apply NoDup_cons_iff in Hdistinct.
    destruct Hdistinct as [Hfresh _].
    set (d := dest_path_of kit_dir i g) in *.
    rewrite place_files_cons. unfold place. fold d.
    rewrite (copy2_plain g d data w Hg Hrg Hplain Hrd).
    2:{ intros E. apply Hnin. left. exact E. }
    match goal with |- context [place_files _ _ _ _ ?w0] => set (w1 := w0) end.
    assert (Hfs : fs w1 = os.update d (RegFile data) (fs w)) by reflexivity.
    assert (Hother : forall p, p <> d -> os.lookup p (fs w1) = os.lookup p (fs w)).
    { intros p Hp. rewrite Hfs, lookup_update.
      destruct (String.eqb_spec d p) as [E|_]; [now elim Hp | reflexivity]. }
    destruct (IH (S i) w1) as (w' & Hrun & Hkeep & Hcopies).
    { rewrite Forall_forall in *. intros f Hf. destruct (Hsrc f Hf) as [[df Hlf] Hrf].
      split; [|exact Hrf]. exists df. rewrite Hother; [exact Hlf|].
      intros ->. apply Hnin. now right. }
    { eapply Forall_impl; [|exact Hdst]. intros q (Hq & Hrq & Hnq). repeat split.
      - rewrite Hfs. now apply plain_update.
      - exact Hrq.
      - intros Hin. apply Hnq. now right. }
    exists w'. split; [exact Hrun|]. split.
    + intros p x Hp Hnot. apply Hkeep.
      * rewrite Hother; [exact Hp|]. intros ->. apply Hnot. now left.
      * intros Hin. apply Hnot. now right.
    + intros [|j] f dataf Hj Hf.
      * injection Hj as <-. rewrite Nat.add_0_r. fold d.
        assert (dataf = data) by congruence. subst dataf.
        apply Hkeep; [|exact Hfresh]. now rewrite Hfs, lookup_update, String.eqb_refl.
      * replace (i + S j) with (S i + j) by lia. apply Hcopies; [exact Hj|].
        rewrite Hother; [exact Hf|]. intros ->. apply Hnin. right.
        eapply nth_error_In. exact Hj.
Qed.

(** In copy mode, with readable sources and writable destinations, the kit
    succeeds, every destination holds the content of its source, and what
    was there before and is no destination, the sources among it, is
    unchanged. *)
Theorem copy_kit_copies_content audio_files output_dir max_files w wm :
  audio_files <> [] -> (0 <= max_files)%Z ->
  os.makedirs (kit_dir_of output_dir w) (set_clock (tl (clock w)) w) = (Returned tt, wm) ->
  Forall (readable wm) (selected_of audio_files max_files w) ->
  Forall (writable wm (selected_of audio_files max_files w))
         (dest_paths (kit_dir_of output_dir w) 1 (selected_of audio_files max_files w)) ->
  exists w',
    create_drum_kit audio_files output_dir max_files false w = (Returned true, w') /\
    (forall j f data,
       nth_error (selected_of audio_files max_files w) j = Some f ->
       os.lookup f (fs wm) = Some (RegFile data) ->
       os.lookup (dest_path_of (kit_dir_of output_dir w) (S j) f) (fs w')
       = Some (RegFile data) /\
       os.lookup f (fs w') = Some (RegFile data)) /\
    (forall p x,
       os.lookup p (fs wm) = Some x ->
       ~ In p (dest_paths (kit_dir_of output_dir w) 1 (selected_of audio_files max_files w)) ->
       os.lookup p (fs w') = Some x).
Proof.
  intros Hne Hk Hmk Hsrc Hdst. rewrite (create_drum_kit_run _ _ _ _ _ Hne), Hmk.
  destruct (Z.ltb_spec max_files 0) as [|_]; [lia|].
  destruct (copy_loop_content (kit_dir_of output_dir w)
              (selected_of audio_files max_files w) 1
              (loop_start audio_files max_files false (kit_name_at (reading w)) wm)
              Hsrc Hdst) as (w3 & Hrun & Hkeep & Hcopies).
  rewrite Hrun. eexists. split; [reflexivity|].
  cbn [fs say set_stdout loop_start set_rng] in *. split.
  - intros j f data Hj Hf. split.
    + now apply (Hcopies j f data).
    + apply Hkeep; [exact Hf|]. intros Hin.
      rewrite Forall_forall in Hdst. destruct (Hdst f Hin) as (_ & _ & Hnot).
      apply Hnot. eapply nth_error_In. exact Hj.
  - exact Hkeep.
Qed.

Lemma copy_kit_copies_content_witness :
  exists w',
    create_drum_kit Demo.discovered "out" 2 false Demo.w_clash = (Returned true, w') /\
    os.lookup "out/DrumKit_20240309_120000/01_closed.AIF" (fs w') = Some (RegFile "HAT") /\
    os.lookup "lib/hats/closed.AIF" (fs w') = Some (RegFile "HAT").
Proof.
  pose (w := Demo.w_clash).
  pose (wm := snd (os.makedirs (kit_dir_of "out" w) (set_clock (tl (clock w)) w))).
  destruct (copy_kit_copies_content Demo.discovered "out" 2 w wm)
    as (w' & Hrun & Hcopies & _).
  - discriminate.
  - discriminate.
  - vm_compute. reflexivity.
  - vm_compute. repeat constructor; eauto.
  - vm_compute. repeat constructor; try reflexivity;
      intros H; repeat (destruct H as [H|H]; [discriminate|]); exact H.
  - exists w'. split; [exact Hrun|].
    apply (Hcopies 0 "lib/hats/closed.AIF" "HAT"); vm_compute; reflexivity.
Defined.

(* ================================================================== *)
(** * Further properties of the run *)

(** When discovery finds nothing, because nothing matches or because the
    library cannot be listed, [main] makes no kit: it reads no clock, draws
    no number, places no file, and ends normally on the three lines that
    say so. What it makes is directories and nothing else, none when the
    output directory is there already, in which case the file system is
    left as it was; and the one error it may raise is that of making the
    output directory. *)
Theorem main_without_files a w :
  fst (get_audio_files (input_dir a) (extensions a) w) = Returned [] ->
  match main a w with
  | (Returned _, w') =>
      clock w' = clock w /\ rng w' = rng w /\
      (exists made,
         events w' = events w ++ made /\
         Forall (fun ev => exists p, ev = MadeDir p) made) /\
      (os.exists_ (fs w) (output_dir a) = true -> events w' = events w /\ fs w' = fs w) /\
      (os.exists_ (fs w) (output_dir a) = false -> os.isdir (fs w') (output_dir a) = true) /\
      exists printed,
        stdout w' = printed ++
          ["No audio files found!";
           ("Searched for: " ++ Str.join ", " (extensions a))%string;
           "Make sure your sample library contains files with these extensions."]
  | (Raised e, w') =>
      os.exists_ (fs w) (output_dir a) = false /\
      exists w0, os.makedirs (output_dir a) w0 = (Raised e, w')
  end.
Proof.
  intros Hnone. rewrite main_run. rewrite get_audio_files_eq in Hnone. cbn [fst] in Hnone.
  assert (Hlist : match os.lookup_tree (input_dir a) (trees w) with
                  | Some es => flat_map (matching (normalize (extensions a)))
                                 (os.walk_tree (input_dir a) es)
                  | None => []
                  end = []) by (injection Hnone as H; exact H).
  clear Hnone.
  assert (Hex : forall w0, trees w0 = trees w ->
            get_audio_files (input_dir a) (extensions a) w0
            = (Returned [], say [("Searching for audio files in: " ++ input_dir a)%string] w0)).
  { intros w0 Ht. rewrite get_audio_files_eq, Ht, Hlist. reflexivity. }
  destruct (os.exists_ (fs w) (output_dir a)) eqn:Hexists; cbn [negb].
  - rewrite Hex by reflexivity. cbn [clock rng events stdout fs say set_stdout].
    split; [reflexivity|]. split; [reflexivity|]. split; [|split; [|split]].
    + exists []. now rewrite app_nil_r.
    + now split.
    + discriminate.
    + eexists. reflexivity.
  - destruct (os.makedirs _ _) as [[[]|e] w0] eqn:Hmk.
    + apply makedirs_ok in Hmk.
      destruct Hmk as (Hdir & _ & Ht & _ & Hc & Hg & Ho & mk & Hev & Hmk).
      rewrite Hex by exact Ht. cbn [clock rng events stdout fs say set_stdout] in *.
      split; [exact Hc|]. split; [exact Hg|]. split; [|split; [|split]].
      * exists mk. split; [exact Hev|]. destruct Hmk as [-> | ->]; repeat constructor.
        now exists (output_dir a).
      * discriminate.
      * intros _. exact Hdir.
      * eexists. reflexivity.
    + split; [reflexivity|]. eauto.
Qed.

Lemma main_without_files_witness :
  exists w',
    main (mkAnswers "lib" "out" 2 Demo.default_extensions false 3) Demo.w_unlisted
    = (Returned tt, w') /\
    clock w' = clock Demo.w_unlisted /\ rng w' = rng Demo.w_unlisted.
Proof.
  pose proof (main_without_files
                (mkAnswers "lib" "out" 2 Demo.default_extensions false 3) Demo.w_unlisted
                eq_refl) as H.
  destruct (main (mkAnswers "lib" "out" 2 Demo.default_extensions false 3) Demo.w_unlisted)
    as [[[]|e] w'].
  - exists w'. destruct H as (Hc & Hg & _). now repeat split.
  - destruct H as [H _]. vm_compute in H. discriminate H.
Defined.

(* ================================================================== *)
(** * Discovery returns no path twice *)

Lemma good_name_spec s :
  good_name s = true -> s <> EmptyString /\ Str.lacks "/" s = true.
Proof.
  unfold good_name. intros H. apply andb_prop in H. destruct H as [Hne Hl].
  split; [|exact Hl]. intros ->. discriminate Hne.
Qed.

Lemma startswith_lacks c s : Str.lacks c s = true -> Str.startswith c s = false.
Proof.
  destruct s as [|a s]; [reflexivity|]. simpl. intros H.
  apply andb_prop in H. destruct H as [H _]. now apply negb_true_iff in H.
Qed.

Lemma endswith_app_lacks c a b :
  b <> EmptyString -> Str.lacks c b = true -> Str.endswith c (a ++ b) = false.
Proof.
  intros Hne Hl. induction a as [|x a IH]; cbn [append].
  - clear Hne. induction b as [|y b IHb]; [reflexivity|].
    simpl in Hl. apply andb_prop in Hl. destruct Hl as [Hy Hb].
    cbn [Str.endswith]. destruct b as [|z b]; [now apply negb_true_iff in Hy | now apply IHb].
  - cbn [Str.endswith]. destruct (a ++ b)%string eqn:E; [|exact IH].
    destruct a; [simpl in E; contradiction | discriminate E].
Qed.

Lemma endswith_split c s : Str.endswith c s = true -> exists q, s = (q ++ String c "")%string.
Proof.
  induction s as [|a s IH]; [discriminate|]. cbn [Str.endswith].
  destruct s as [|b s].
  - intros H. apply Ascii.eqb_eq in H. subst a. now exists EmptyString.
  - intros H. destruct (IH H) as [q Hq]. exists (String a q). cbn [append]. now rewrite <- Hq.
Qed.

Lemma join_relative top name :
  Str.lacks "/" name = true -> os_path.join top name = (join_prefix top ++ name)%string.
Proof.
  intros H. unfold os_path.join, join_prefix. rewrite (startswith_lacks _ _ H).
  destruct ((top =? "")%string || Str.endswith "/" top); [reflexivity|].
  now rewrite string_app_assoc.
Qed.

Lemma join_prefix_join top d :
  good_name d = true ->
  join_prefix (os_path.join top d) = (join_prefix top ++ d ++ "/")%string.
Proof.
  intros Hd. destruct (good_name_spec d Hd) as [Hne Hl].
  rewrite (join_relative top d Hl). unfold join_prefix at 1.
  rewrite (endswith_app_lacks "/" (join_prefix top) d Hne Hl), orb_false_r.
  destruct (String.eqb_spec (join_prefix top ++ d) "") as [E|_].
  - destruct (join_prefix top); [simpl in E; contradiction | discriminate E].
  - now rewrite string_app_assoc.
Qed.

Lemma segment_name a : Str.lacks "/" a = true -> segment a = a.
Proof.
  induction a as [|c a IH]; [reflexivity|]. simpl. intros H.
  apply andb_prop in H. destruct H as [Hc Ha]. apply negb_true_iff in Hc.
  now rewrite Hc, IH.
Qed.

Lemma segment_dir a r : Str.lacks "/" a = true -> segment (a ++ "/" ++ r) = a.
Proof.
  induction a as [|c a IH]; [reflexivity|]. simpl. intros H.
  apply andb_prop in H. destruct H as [Hc Ha]. apply negb_true_iff in Hc.
  rewrite Hc. f_equal. now apply IH.
Qed.

Lemma NoDup_append {A} (l l' : list A) :
  NoDup l -> NoDup l' -> (forall x, In x l -> ~ In x l') -> NoDup (l ++ l').
Proof.
  induction l as [|a l IH]; intros Hl Hl' Hd; [exact Hl'|].
  inversion Hl as [|? ? Hin Hnd]; subst. cbn [app]. constructor.
  - intros H. apply in_app_or in H. destruct H as [H|H]; [contradiction|].
    apply (Hd a); [now left | exact H].
  - apply IH; [assumption | assumption |]. intros x Hx. apply Hd. now right.
Qed.

Lemma NoDup_map_injective {A B} (f : A -> B) l :
  (forall x y, f x = f y -> x = y) -> NoDup l -> NoDup (map f l).
Proof.
  intros Hf. induction 1 as [|a l Hin Hnd IH]; cbn [map]; constructor; [|exact IH].
  intros H. apply in_map_iff in H. destruct H as (y & E & Hy).
  apply Hf in E. now subst y.
Qed.

(** The relative paths below an entry start with the name of the entry,
    and none of them comes twice. *)
Lemma rel_entry_spec exts n :
  well_formed n ->
  NoDup (rel_entry exts n) /\
  (forall r, In r (rel_entry exts n) -> segment r = entry_name n).
Proof.
  induction n as [name st | d walked es IH] using node_rect'; intros Hwf;
    inversion Hwf as [? ? Hname | ? ? ? Hname Hnames Hall]; subst.
  - destruct (good_name_spec _ Hname) as [_ Hl]. cbn [rel_entry entry_name].
    destruct (is_audio exts name).
    + split; [repeat constructor; intros [] |].
      intros r [<- | []]. now apply segment_name.
    + split; [constructor | intros r []].
  - destruct (good_name_spec _ Hname) as [_ Hl]. cbn [rel_entry entry_name].
    destruct walked; [|split; [constructor | intros r []]]. split.
    + apply NoDup_map_injective.
      { intros x y E. apply string_app_inv_head in E. now injection E. }
      clear Hwf Hname Hl. induction es as [|n es IHes]; [constructor|].
      cbn [flat_map map] in *.
      apply Forall_cons_iff in IH. destruct IH as [IHn IH].
      apply Forall_cons_iff in Hall. destruct Hall as [Hn Hall].
      apply NoDup_cons_iff in Hnames. destruct Hnames as [Hfresh Hnames].
      destruct (IHn Hn) as [Hnd Hseg].
      apply NoDup_append; [exact Hnd | now apply IHes |].
      intros r Hr Hr'. apply in_flat_map in Hr'. destruct Hr' as (m & Hm & Hr').
      rewrite Forall_forall in IH, Hall.
      destruct (IH m Hm (Hall m Hm)) as [_ Hsegm].
      apply Hfresh. apply in_map_iff. exists m. split; [|exact Hm].
      rewrite <- (Hseg r Hr). symmetry. now apply Hsegm.
    + intros r Hr. apply in_map_iff in Hr. destruct Hr as (r' & <- & _).
      now apply segment_dir.
Qed.

Lemma collect_entry_rel exts n : forall top,
  well_formed n ->
  collect_entry exts top n = map (append (join_prefix top)) (rel_entry exts n).
Proof.
  induction n as [name st | d walked es IH] using node_rect'; intros top Hwf;
    inversion Hwf as [? ? Hname | ? ? ? Hname Hnames Hall]; subst.
  - destruct (good_name_spec _ Hname) as [_ Hl]. cbn [collect_entry rel_entry].
    destruct (is_audio exts name); [|reflexivity]. cbn [map]. now rewrite join_relative.
  - cbn [collect_entry rel_entry]. destruct walked; [|reflexivity].
    rewrite map_map.
    clear Hwf Hnames. induction es as [|n es IHes]; [reflexivity|].
    apply Forall_cons_iff in IH. destruct IH as [IHn IH].
    apply Forall_cons_iff in Hall. destruct Hall as [Hn Hall].
    cbn [flat_map]. rewrite map_app, (IHes IH Hall), (IHn _ Hn).
    f_equal. rewrite (join_prefix_join top d Hname). apply map_ext.
    intros r. now rewrite !string_app_assoc.
Qed.

Lemma collect_NoDup exts top es :
  NoDup (map entry_name es) -> Forall well_formed es -> NoDup (collect exts top es).
Proof.
  intros Hnames Hall.
  pose proof (rel_entry_spec exts (Dir "d" true es)
                (wf_dir "d" true es eq_refl Hnames Hall)) as [Hnd _].
  cbn [rel_entry] in Hnd. apply NoDup_map_inv in Hnd.
  assert (E : collect exts top es
              = map (append (join_prefix top)) (flat_map (rel_entry exts) es)).
  { unfold collect. clear Hnames Hnd. induction Hall as [|n es Hn _ IH]; [reflexivity|].
    cbn [flat_map]. now rewrite map_app, IH, (collect_entry_rel exts n top Hn). }
  rewrite E. apply NoDup_map_injective; [|exact Hnd].
  intros x y. apply string_app_inv_head.
Qed.

Lemma basename_relative q name :
  Str.lacks "/" name = true ->
  q = EmptyString \/ (exists q', q = (q' ++ "/")%string) ->
  os_path.basename (q ++ name) = name.
Proof.
  intros Hl [-> | [q' ->]]; unfold os_path.basename, Str.rfind.
  - cbn [append]. rewrite (rfind_from_lacks _ _ _ Hl). cbn.
    unfold Str.slice_from. rewrite Nat.sub_0_r. apply substring_whole.
  - rewrite string_app_assoc. cbn [append].
    rewrite rfind_from_last by (lia || assumption).
    replace (Z.to_nat (0 + Z.of_nat (String.length q') + 1)) with (String.length (q' ++ "/"))
      by (rewrite string_length_app; simpl; lia).
    replace (q' ++ String "/" name)%string with ((q' ++ "/") ++ name)%string
      by (now rewrite string_app_assoc).
    apply slice_from_app.
Qed.

Lemma join_prefix_shape top :
  join_prefix top = EmptyString \/ exists q', join_prefix top = (q' ++ "/")%string.
Proof.
  unfold join_prefix. destruct (String.eqb_spec top "") as [->|_]; cbn [orb]; [now left|].
  destruct (Str.endswith "/" top) eqn:E; right; [|now exists top].
  now apply endswith_split.
Qed.

Lemma reachable_basename top es name path :
  reachable top es name path -> Forall well_formed es -> os_path.basename path = name.
Proof.
  induction 1 as [top es name st Hin | top es d sub name path Hin Hr IH]; intros Hall;
    rewrite Forall_forall in Hall.
  - specialize (Hall _ Hin). inversion Hall as [? ? Hname |]; subst.
    destruct (good_name_spec _ Hname) as [_ Hl].
    rewrite (join_relative top name Hl).
    apply basename_relative; [exact Hl | apply join_prefix_shape].
  - specialize (Hall _ Hin). inversion Hall; subst. now apply IH.
Qed.

(** Over a library whose names are good and different within each
    directory, discovery returns no path twice, the base name of every path
    it returns is the name of the file found, and therefore no kit drawn
    from the list holds a file twice. *)
Theorem discovery_without_duplicates w input_dir tree extensions :
  os.lookup_tree input_dir (trees w) = Some tree ->
  NoDup (map entry_name tree) -> Forall well_formed tree ->
  exists files w',
    get_audio_files input_dir extensions w = (Returned files, w') /\
    NoDup files /\
    (forall path, In path files ->
       exists name, reachable input_dir tree name path /\ os_path.basename path = name) /\
    (forall max_files w0, NoDup (selected_of files max_files w0)).
Proof.
  intros Ht Hnames Hall. rewrite get_audio_files_eq, Ht. do 2 eexists.
  split; [reflexivity|]. fold (found extensions input_dir tree).
  assert (Hnd : NoDup (found extensions input_dir tree)).
  { eapply Permutation_NoDup; [symmetry; apply found_collect|].
    now apply collect_NoDup. }
  split; [exact Hnd|]. split.
  - intros path Hin. apply (Permutation_in _ (found_collect extensions input_dir tree)) in Hin.
    apply collect_reachable in Hin. destruct Hin as (name & Hr & _).
    exists name. split; [exact Hr|]. now apply (reachable_basename input_dir tree).
  - intros max_files w0. unfold selected_of. apply draw_NoDup; [|exact Hnd].
    unfold num_files_of. lia.
Qed.

Lemma discovery_without_duplicates_witness :
  exists files w',
    get_audio_files "lib" Demo.default_extensions Demo.w0 = (Returned files, w') /\
    NoDup files /\
    (forall path, In path files ->
       exists name, reachable "lib" Demo.library name path /\ os_path.basename path = name) /\
    (forall max_files w0, NoDup (selected_of files max_files w0)).
Proof.
  apply (discovery_without_duplicates Demo.w0 "lib" Demo.library Demo.default_extensions).
  - reflexivity.
  - repeat constructor; simpl; intuition discriminate.
  - repeat (constructor; try reflexivity); simpl; intuition discriminate.
Defined.

(* ================================================================== *)
(** * What a kit leaves alone *)

Lemma dest_path_below kit_dir i f : dest_path_of kit_dir i f <> kit_dir.
Proof.
  intros E. apply (f_equal String.length) in E. revert E.
  unfold dest_path_of, os_path.join. rewrite new_filename_relative.
  unfold new_filename.
  destruct ((kit_dir =? "")%string || Str.endswith "/" kit_dir);
    rewrite !string_length_app; cbn [append String.length]; lia.
Qed.

Lemma makedirs_frame p w r w1 :
  os.makedirs p w = (r, w1) ->
  forall q, q <> p -> os.lookup q (fs w1) = os.lookup q (fs w).
Proof.
  rewrite makedirs_run. intros H q Hq.
  destruct (os.isdir (fs w) p); [injection H as _ <-; reflexivity|].
  destruct (os.lookup p (fs w)); [injection H as _ <-; reflexivity|].
  destruct (Str.mem p (refused w)); injection H as _ <-; [reflexivity|].
  cbn [fs set_events set_fs]. rewrite lookup_update.
  destruct (String.eqb_spec p q); [congruence | reflexivity].
Qed.

Lemma place_files_confined sym kit_dir selected : forall i w b w',
  (sym = false -> Forall (fun p => plain (fs w) p = true) (dest_paths kit_dir i selected)) ->
  place_files sym kit_dir i selected w = (Returned b, w') ->
  forall p, ~ In p (dest_paths kit_dir i selected) -> os.lookup p (fs w') = os.lookup p (fs w).
Proof.
  induction selected as [|f rest IH]; intros i w b w' Hplain Hrun p Hp.
  - simpl in Hrun. injection Hrun as _ <-. reflexivity.
  - rewrite place_files_cons in Hrun. cbn [dest_paths] in Hp.
    destruct (place sym f (dest_path_of kit_dir i f) w) as [[[]|e] w1] eqn:Hpl.
    + apply copy_lands in Hpl.
      2:{ intros Hs. specialize (Hplain Hs). cbn [dest_paths] in Hplain.
          now apply Forall_inv in Hplain. }
      destruct Hpl as (ino & -> & Hino).
      match type of Hrun with place_files _ _ _ _ ?w0 = _ => set (w1 := w0) in * end.
      assert (Hplain1 : sym = false ->
                Forall (fun q => plain (fs w1) q = true) (dest_paths kit_dir (S i) rest)).
      { intros Hs. destruct (Hino Hs) as (data & ->).
        specialize (Hplain Hs). cbn [dest_paths] in Hplain.
        apply Forall_inv_tail in Hplain.
        eapply Forall_impl; [|exact Hplain]. intros q Hq. now apply plain_update. }
      rewrite (IH _ _ _ _ Hplain1 Hrun p) by (intros Hin; apply Hp; now right).
      subst w1. cbn [fs set_stdout set_events set_fs]. rewrite lookup_update.
      destruct (String.eqb_spec (dest_path_of kit_dir i f) p) as [E|_]; [|reflexivity].
      exfalso. apply Hp. now left.
    + apply place_frame in Hpl. subst w1. injection Hrun as _ <-. reflexivity.
Qed.

Lemma create_drum_kit_confined audio_files output_dir max_files use_symlinks w r w' :
  audio_files <> [] ->
  (use_symlinks = false ->
   Forall (fun p => plain (fs w) p = true)
          (dest_paths (kit_dir_of output_dir w) 1 (selected_of audio_files max_files w))) ->
  create_drum_kit audio_files output_dir max_files use_symlinks w = (r, w') ->
  forall p,
    p <> kit_dir_of output_dir w ->
    ~ In p (dest_paths (kit_dir_of output_dir w) 1 (selected_of audio_files max_files w)) ->
    os.lookup p (fs w') = os.lookup p (fs w).
Proof.
  intros Hne Hplain Hrun p Hkit Hdest.
  rewrite (create_drum_kit_run _ _ _ _ _ Hne) in Hrun.
  destruct (os.makedirs (kit_dir_of output_dir w) (set_clock (tl (clock w)) w))
    as [[[]|e] w1] eqn:Hmk.
  2:{ injection Hrun as _ <-. now rewrite (makedirs_frame _ _ _ _ Hmk p Hkit). }
  pose proof (makedirs_frame _ _ _ _ Hmk) as Hframe. cbn [fs set_clock] in Hframe.
  destruct (max_files <? 0)%Z.
  { injection Hrun as _ <-. now apply Hframe. }
  destruct (place_files_total use_symlinks (kit_dir_of output_dir w)
              (selected_of audio_files max_files w) 1
              (loop_start audio_files max_files use_symlinks (kit_name_at (reading w)) w1))
    as (b & w3 & Hloop).
  rewrite Hloop in Hrun.
  assert (Hfs : os.lookup p (fs w3) = os.lookup p (fs w)).
  { assert (Hplain1 : use_symlinks = false ->
              Forall (fun q =>
                        plain (fs (loop_start audio_files max_files use_symlinks
                                     (kit_name_at (reading w)) w1)) q = true)
                     (dest_paths (kit_dir_of output_dir w) 1
                        (selected_of audio_files max_files w))).
    { intros Hs. specialize (Hplain Hs). rewrite Forall_forall in Hplain.
      apply Forall_forall. intros q Hq. specialize (Hplain q Hq).
      cbn [fs loop_start say set_stdout set_rng]. unfold plain in *.
      rewrite Hframe; [exact Hplain|].
      apply dest_paths_index in Hq. destruct Hq as (j & g & _ & _ & ->).
      apply dest_path_below. }
    rewrite (place_files_confined _ _ _ _ _ _ _ Hplain1 Hloop p Hdest).
    cbn [fs loop_start say set_stdout set_rng]. now apply Hframe. }
  destruct b; injection Hrun as _ <-; exact Hfs.
Qed.



(* ================================================================== *)
(** * Kits of one second *)




(* ================================================================== *)
(** * A run of links into a fresh output directory *)

Lemma isdir_exists f p : os.isdir f p = true -> os.exists_ f p = true.
Proof.
  unfold os.isdir, os.exists_. destruct (os.resolve _ f p) as [q|]; [|discriminate].
  now destruct (os.lookup q f) as [[]|].
Qed.

Lemma free_not_dir w p : free w p -> os.isdir (fs w) p = false.
Proof.
  intros [Hl _]. unfold os.isdir, os.MAXSYMLINKS. cbn [os.resolve]. now rewrite Hl, Hl.
Qed.

Lemma join_app a b c :
  b <> EmptyString -> Str.startswith "/" b = false ->
  os_path.join a (b ++ c) = (os_path.join a b ++ c)%string.
Proof.
  intros Hb Hs. unfold os_path.join.
  assert (Hbc : Str.startswith "/" (b ++ c) = false)
    by (destruct b; [contradiction | exact Hs]).
  rewrite Hs, Hbc. destruct ((a =? "")%string || Str.endswith "/" a);
    now rewrite !string_app_assoc.
Qed.

Lemma kit_dir_shape out d :
  os_path.join out (kit_name_at d) = (os_path.join out "DrumKit_" ++ dt.strftime d)%string.
Proof. unfold kit_name_at. apply join_app; [discriminate | reflexivity]. Qed.

Lemma dest_path_form kit_dir i f : exists x, dest_path_of kit_dir i f = (kit_dir ++ x)%string.
Proof.
  unfold dest_path_of, os_path.join. rewrite new_filename_relative.
  destruct ((kit_dir =? "")%string || Str.endswith "/" kit_dir); eexists; reflexivity.
Qed.

Lemma strftime_length d : dt.valid d = true -> String.length (dt.strftime d) = 15.
Proof.
  intros Hv.
  destruct (strftime_shape d Hv)
    as (y & mo & dd & h & mi & se & -> & Hy & Hmo & Hd & Hh & Hmi & Hse).
  destruct Hy as [Ly _], Hmo as [Lmo _], Hd as [Ld _], Hh as [Lh _], Hmi as [Lmi _],
           Hse as [Lse _].
  rewrite !string_length_app. cbn [String.length]. lia.
Qed.

Lemma other_second_other_paths P d0 d s x :
  dt.valid d0 = true -> dt.valid d = true -> kit_name_at d0 <> kit_name_at d ->
  (P ++ dt.strftime d ++ s)%string <> (P ++ dt.strftime d0 ++ x)%string.
Proof.
  intros V0 V Hne E. apply string_app_inv_head in E.
  apply string_app_inj_length in E; [|now rewrite !strftime_length].
  apply Hne. unfold kit_name_at. destruct E as [E _]. now rewrite E.
Qed.

Lemma link_loop_succeeds kit_dir selected : forall i w,
  (forall p, In p (dest_paths kit_dir i selected) -> free w p) ->
  exists w', place_files true kit_dir i selected w = (Returned true, w').
Proof.
  induction selected as [|f rest IH]; intros i w Hfree.
  - eexists. reflexivity.
  - rewrite place_files_cons.
    change (place true f (dest_path_of kit_dir i f) w)
      with (os.symlink f (dest_path_of kit_dir i f) w).
    rewrite symlink_run.
    destruct (Hfree (dest_path_of kit_dir i f)) as [Hl Hr]; [now left|].
    rewrite Hl, Hr. apply IH. intros p Hp. unfold free.
    cbn [fs refused set_stdout set_events set_fs]. rewrite lookup_update.
    destruct (String.eqb_spec (dest_path_of kit_dir i f) p) as [E|_].
    + apply dest_paths_index in Hp. destruct Hp as (j & g & Hj & _ & ->).
      apply dest_path_index in E. lia.
    + apply Hfree. now right.
Qed.

(** A kit of links whose directory and everything below it is free is made. *)
Lemma link_kit_made files out k w :
  files <> [] -> (0 <= k)%Z ->
  untouched (kit_dir_of out w) w ->
  exists w1,
    create_drum_kit files out k true w = (Returned true, w1) /\
    clock w1 = tl (clock w) /\ refused w1 = refused w /\
    os.isdir (fs w1) (kit_dir_of out w) = true /\
    (forall p, os.isdir (fs w) p = true -> os.isdir (fs w1) p = true) /\
    (forall p, (forall s, p <> (kit_dir_of out w ++ s)%string) ->
               os.lookup p (fs w1) = os.lookup p (fs w)).
Proof.
  intros Hne Hk Hfree.
  assert (Hkd : free w (kit_dir_of out w)).
  { specialize (Hfree EmptyString). now rewrite string_app_nil_r in Hfree. }
  assert (Hrun : exists w1, create_drum_kit files out k true w = (Returned true, w1)).
  { rewrite (create_drum_kit_run _ _ _ _ _ Hne), makedirs_run.
    cbn [fs refused set_clock]. rewrite (free_not_dir _ _ Hkd).
    destruct Hkd as [Hl Hr]. rewrite Hl, Hr.
    destruct (Z.ltb_spec k 0) as [|_]; [lia|].
    match goal with |- context [place_files true ?kd 1 ?l ?w0] =>
      destruct (link_loop_succeeds kd l 1 w0) as (w3 & Hloop)
    end.
    - intros p Hp. unfold free.
      cbn [fs refused loop_start say set_stdout set_rng set_events set_fs set_clock].
      apply dest_paths_index in Hp. destruct Hp as (j & g & _ & _ & ->).
      rewrite lookup_update.
      destruct (String.eqb_spec (kit_dir_of out w) (dest_path_of (kit_dir_of out w) j g))
        as [E|_]; [symmetry in E; now apply dest_path_below in E|].
      destruct (dest_path_form (kit_dir_of out w) j g) as [x ->]. apply Hfree.
    - rewrite Hloop. eexists. reflexivity. }
  destruct Hrun as (w1 & Hrun). exists w1. split; [exact Hrun|].
  pose proof (create_drum_kit_outcome files out k true w Hne Hk) as Hout.
  rewrite Hrun in Hout. destruct Hout as (Hc & _ & Hr & Hd & Hkeep & _).
  repeat split; try assumption.
  intros p Hp.
  apply (create_drum_kit_confined files out k true w (Returned true) w1 Hne);
    [discriminate | exact Hrun | |].
  - specialize (Hp EmptyString). now rewrite string_app_nil_r in Hp.
  - intros Hin. apply dest_paths_index in Hin. destruct Hin as (j & g & _ & _ & ->).
    destruct (dest_path_form (kit_dir_of out w) j g) as [x E]. now apply (Hp x).
Qed.

(** ** The clock along a run *)

Lemma from_time_suffix bound c : exists pre, c = pre ++ from_time bound c.
Proof.
  induction c as [|d c IH]; [now exists []|]. cbn [from_time].
  destruct (dt.microseconds d <? bound)%Z; [|now exists []].
  destruct IH as [pre IH]. exists (d :: pre). cbn [app]. now f_equal.
Qed.

Lemma from_time_head bound c x rest :
  from_time bound c = x :: rest -> (bound <= dt.microseconds x)%Z.
Proof.
  induction c as [|d c IH]; [discriminate|]. cbn [from_time].
  destruct (Z.ltb_spec (dt.microseconds d) bound) as [|Hle]; [exact IH|].
  now intros [= <- _].
Qed.

Lemma after_sleep_suffix secs c : exists pre, c = pre ++ after_sleep secs c.
Proof. destruct c as [|d c]; [now exists []|]. apply from_time_suffix. Qed.

Lemma steady_suffix pre c : steady (pre ++ c) -> steady c.
Proof.
  induction pre as [|d pre IH]; [trivial|]. cbn [app steady]. intros [_ H]. now apply IH.
Qed.

Lemma steady_first d c : steady (d :: c) ->
  forall x, In x c -> (dt.microseconds d <= dt.microseconds x)%Z.
Proof.
  revert d. induction c as [|d1 c IH]; intros d Hs x Hx; [destruct Hx|].
  cbn [steady] in Hs. destruct Hs as [H1 H2]. destruct Hx as [<-|Hx]; [exact H1|].
  specialize (IH d1 H2 x Hx). lia.
Qed.

(** After a sleep of a second that begins no earlier than [d], the clock
    reads a second or more after [d]. *)
Lemma after_sleep_later d c x rest :
  steady (d :: c) -> after_sleep 1 c = x :: rest ->
  (dt.microseconds d + 1000000 <= dt.microseconds x)%Z.
Proof.
  intros Hs E. destruct c as [|present c]; [discriminate|]. cbn [after_sleep] in E.
  apply from_time_head in E.
  pose proof (steady_first d (present :: c) Hs present (or_introl eq_refl)). lia.
Qed.

Lemma kit_times_first n c x rest : kit_times n c = x :: rest -> exists later, c = x :: later.
Proof.
  destruct n as [|n]; [discriminate|]. destruct c as [|d later]; [discriminate|].
  cbn [kit_times]. intros [= <- _]. now exists later.
Qed.

Lemma kit_times_In n : forall c d, In d (kit_times n c) -> In d c.
Proof.
  induction n as [|n IH]; intros c d Hd; [destruct Hd|].
  destruct c as [|d0 later]; [destruct Hd|]. cbn [kit_times] in Hd.
  destruct Hd as [<-|Hd]; [now left|]. right. apply IH in Hd.
  destruct (after_sleep_suffix 1 later) as [pre E]. rewrite E. apply in_or_app. now right.
Qed.

(** On a clock that is not set back, the kits of a run are made a second
    or more apart. *)
Lemma kit_times_spaced n : forall c, steady c -> spaced (kit_times n c).
Proof.
  induction n as [|n IH]; intros c Hs; [exact I|].
  destruct c as [|d later]; [exact I|]. cbn [kit_times spaced]. split.
  - destruct (kit_times n (after_sleep 1 later)) as [|x rest] eqn:E; [exact I|].
    apply kit_times_first in E. destruct E as [rest' E].
    now apply (after_sleep_later d later x rest').
  - apply IH. destruct (after_sleep_suffix 1 later) as [pre E].
    apply (steady_suffix pre). rewrite <- E. now apply (steady_suffix [d]).
Qed.

Lemma spaced_tail d l : spaced (d :: l) -> spaced l.
Proof. cbn [spaced]. now intros [_ H]. Qed.

Lemma spaced_later l : forall d d',
  spaced (d :: l) -> In d' l ->
  (dt.microseconds d + 1000000 <= dt.microseconds d')%Z.
Proof.
  induction l as [|d1 l IH]; intros d d' Hsp Hin; [destruct Hin|].
  cbn [spaced] in Hsp. destruct Hsp as [H1 H2]. destruct Hin as [<-|Hin]; [exact H1|].
  specialize (IH d1 d' H2 Hin). lia.
Qed.

(** Readings a second or more apart name different directories. *)
Lemma spaced_dirs_NoDup out l :
  spaced l -> Forall (fun d => dt.valid d = true) l ->
  NoDup (map (fun d => os_path.join out (kit_name_at d)) l).
Proof.
  induction l as [|d l IH]; intros Hsp Hv; [constructor|].
  cbn [map]. apply Forall_cons_iff in Hv. destruct Hv as [Hd Hv]. constructor.
  - intros Hin. apply in_map_iff in Hin. destruct Hin as (d' & E & Hd').
    apply join_inv_head in E; [|reflexivity|reflexivity].
    rewrite Forall_forall in Hv.
    apply (kit_names_differ d d' Hd (Hv d' Hd')); [|now symmetry].
    now apply (spaced_later l).
  - apply IH; [now apply (spaced_tail d) | exact Hv].
Qed.

Lemma pause_clock a kit_num w : exists pre, clock w = pre ++ clock (pause a kit_num w).
Proof.
  unfold pause. destruct (kit_num <? num_kits a - 1); [|now exists []].
  apply after_sleep_suffix.
Qed.

(** The kits after the first of [S m] read the clock as [kit_times] says:
    before each of them the loop sleeps. *)
Lemma pause_kit_times a i m w :
  i + S m = num_kits a ->
  kit_times m (clock (pause a i w)) = kit_times m (after_sleep 1 (clock w)).
Proof.
  intros Hi. destruct m as [|m]; [reflexivity|]. unfold pause.
  replace (i <? num_kits a - 1) with true by (symmetry; apply Nat.ltb_lt; lia).
  reflexivity.
Qed.





(* ================================================================== *)
(** * A run of links into a fresh output directory *)

Lemma link_loop_all files a :
  use_symlinks a = true -> files <> [] -> (0 <= max_files a)%Z ->
  forall m i successful w,
    i + m = num_kits a ->
    List.length (kit_times m (clock w)) = m ->
    steady (clock w) -> Forall (fun d => dt.valid d = true) (clock w) ->
    (forall d, In d (kit_times m (clock w)) ->
               untouched (os_path.join (output_dir a) (kit_name_at d)) w) ->
    exists w',
      kit_loop files a (seq i m) successful w = (Returned (successful + m), w') /\
      (forall d, In d (kit_times m (clock w)) ->
                 os.isdir (fs w') (os_path.join (output_dir a) (kit_name_at d)) = true) /\
      (forall p, os.isdir (fs w) p = true -> os.isdir (fs w') p = true) /\
      (forall p x, os.lookup p (fs w) = Some x -> os.lookup p (fs w') = Some x).
Proof.
  intros Hsym Hne Hk.
  induction m as [|m IH]; intros i successful w Hi Hlen Hsteady Hvalid Hfree.
  - exists w. cbn [seq kit_loop kit_times]. rewrite Nat.add_0_r.
    repeat split; auto; intros d [].
  - destruct (clock w) as [|d0 later] eqn:Hclock; [discriminate|].
    pose proof (kit_times_spaced (S m) (d0 :: later) Hsteady) as Hsp.
    cbn [kit_times List.length] in Hlen, Hfree, Hsp |- *. injection Hlen as Hlen.
    assert (Hread : reading w = d0) by (unfold reading; now rewrite Hclock).
    assert (Hkd : kit_dir_of (output_dir a) w = os_path.join (output_dir a) (kit_name_at d0))
      by (unfold kit_dir_of; now rewrite Hread).
    destruct (link_kit_made files (output_dir a) (max_files a) w Hne Hk)
      as (w1 & Hrun & Hc1 & Hr1 & Hd1 & Hkeep1 & Hconf1).
    { rewrite Hkd. apply Hfree. now left. }
    rewrite Hclock in Hc1. cbn [tl] in Hc1.
    assert (Hsame1 : forall p x, os.lookup p (fs w) = Some x -> os.lookup p (fs w1) = Some x).
    { intros p x Hp. rewrite Hconf1; [exact Hp|]. intros s ->.
      rewrite Hkd in Hp. destruct (Hfree d0 (or_introl eq_refl) s) as [Hl _]. congruence. }
    pose proof (pause_kit_times a i m w1 Hi) as Htimes. rewrite Hc1 in Htimes.
    destruct (pause_frame a i w1) as (Hfs & _ & _ & Hrefused & _).
    destruct (pause_clock a i w1) as [pre Hpre]. rewrite Hc1 in Hpre.
    pose proof (proj1 (Forall_forall _ _) Hvalid) as Hv.
    destruct (IH (S i) (successful + 1) (pause a i w1))
      as (w' & Hloop & Hdirs & Hkeep & Hsame).
    + lia.
    + now rewrite Htimes.
    + apply (steady_suffix pre). rewrite <- Hpre. now apply (steady_suffix [d0]).
    + apply Forall_forall. intros d Hd. apply Hv. right. rewrite Hpre.
      apply in_or_app. now right.
    + rewrite Htimes. intros d Hd s.
      destruct (Hfree d (or_intror Hd) s) as [Hl Hr]. unfold free.
      rewrite Hfs, Hrefused, Hr1. split; [|exact Hr].
      rewrite Hconf1; [exact Hl|]. intros s' E. rewrite Hkd in E.
      rewrite !kit_dir_shape, !string_app_assoc in E. revert E.
      assert (Hvd : dt.valid d = true).
      { apply Hv. right. apply (kit_times_In m) in Hd.
        destruct (after_sleep_suffix 1 later) as [pre' E']. rewrite E'.
        apply in_or_app. now right. }
      apply other_second_other_paths; [apply Hv; now left | exact Hvd |].
      apply kit_names_differ; [apply Hv; now left | exact Hvd |].
      now apply (spaced_later (kit_times m (after_sleep 1 later))).
    + rewrite Htimes in Hdirs. rewrite Hfs in Hkeep, Hsame.
      exists w'. cbn [seq]. rewrite kit_loop_cons, Hsym, Hrun. cbv beta iota. rewrite Hloop.
      repeat split.
      * f_equal. f_equal. lia.
      * intros d [<-|Hd]; [|now apply Hdirs]. apply Hkeep. now rewrite <- Hkd.
      * intros p Hp. now apply Hkeep, Hkeep1.
      * intros p x Hp. now apply Hsame, Hsame1.
Qed.

(** In link mode, with an output directory that exists, a library in which
    discovery finds files, no path that begins with the output directory's
    DrumKit_ existing or refused, and a wall clock that is not set back and
    does not give out: the run ends normally, reports every kit as made,
    leaves the directory of every kit, one per reading the kits were made
    at, and has changed nothing that existed. *)
Theorem main_links_every_kit a w files :
  use_symlinks a = true ->
  os.isdir (fs w) (output_dir a) = true ->
  fst (get_audio_files (input_dir a) (extensions a) w) = Returned files ->
  files <> [] ->
  (0 <= max_files a)%Z ->
  steady (clock w) -> Forall (fun d => dt.valid d = true) (clock w) ->
  List.length (kit_times (num_kits a) (clock w)) = num_kits a ->
  untouched (os_path.join (output_dir a) "DrumKit_") w ->
  exists w',
    main a w = (Returned tt, w') /\
    (exists printed,
       stdout w' = printed ++ [report_line (num_kits a) (num_kits a); "Done!"]) /\
    (forall d, In d (kit_times (num_kits a) (clock w)) ->
               os.isdir (fs w') (os_path.join (output_dir a) (kit_name_at d)) = true) /\
    NoDup (map (fun d => os_path.join (output_dir a) (kit_name_at d))
               (kit_times (num_kits a) (clock w))) /\
    (forall p x, os.lookup p (fs w) = Some x -> os.lookup p (fs w') = Some x).
Proof.
  intros Hsym Hout Hfound Hne Hk Hsteady Hvalid Hlen Hfree.
  rewrite main_run, (isdir_exists _ _ Hout). cbn [negb].
  rewrite get_audio_files_eq in Hfound |- *. cbn [fst] in Hfound.
  change (trees (say [Str.join "" (repeat "-" 60)] w)) with (trees w).
  assert (Hlist : match os.lookup_tree (input_dir a) (trees w) with
                  | Some es => flat_map (matching (normalize (extensions a)))
                                 (os.walk_tree (input_dir a) es)
                  | None => []
                  end = files) by (injection Hfound as H; exact H).
  rewrite Hlist. destruct files as [|f files]; [now elim Hne|].
  match goal with |- context [kit_loop _ _ _ _ ?w0] => set (ws := w0) end.
  destruct (link_loop_all (f :: files) a Hsym Hne Hk (num_kits a) 0 0 ws)
    as (w' & Hloop & Hdirs & _ & Hsame).
  - reflexivity.
  - exact Hlen.
  - exact Hsteady.
  - exact Hvalid.
  - intros d _ s. rewrite kit_dir_shape, string_app_assoc. apply Hfree.
  - rewrite Hloop. eexists. split; [reflexivity|].
    cbn [stdout clock fs say set_stdout]. repeat split.
    + exists (stdout w' ++ [Str.join "" (repeat "=" 60)]). now rewrite <- app_assoc.
    + exact Hdirs.
    + apply spaced_dirs_NoDup; [now apply kit_times_spaced|].
      apply Forall_forall. intros d Hd. rewrite Forall_forall in Hvalid.
      now apply Hvalid, (kit_times_In (num_kits a)).
    + exact Hsame.
Qed.

Lemma main_links_every_kit_witness :
  exists w',
    main Demo.two_link_kits Demo.w_run = (Returned tt, w') /\
    (exists printed, stdout w' = printed ++ [report_line 2 2; "Done!"]) /\
    os.isdir (fs w') (os_path.join "out" (kit_name_at Demo.noon)) = true /\
    os.isdir (fs w') (os_path.join "out" (kit_name_at Demo.noon_02)) = true.
Proof.
  destruct (main_links_every_kit Demo.two_link_kits Demo.w_run Demo.discovered)
    as (w' & Hrun & Hreport & Hdirs & _).
  - reflexivity.
  - reflexivity.
  - vm_compute. reflexivity.
  - discriminate.
  - discriminate.
  - unfold Demo.w_run, Demo.uneven. cbn [clock steady]. repeat split; vm_compute; discriminate.
  - unfold Demo.w_run, Demo.uneven. cbn [clock].
    repeat (constructor; [vm_compute; reflexivity|]). constructor.
  - vm_compute. reflexivity.
  - intros s. split; vm_compute; reflexivity.
  - assert (Htimes : kit_times 2 (clock Demo.w_run) = [Demo.noon; Demo.noon_02])
      by (vm_compute; reflexivity).
    exists w'. split; [exact Hrun|]. split; [exact Hreport|]. split.
    + apply (Hdirs Demo.noon). change (num_kits Demo.two_link_kits) with 2.
      rewrite Htimes. now left.
    + apply (Hdirs Demo.noon_02). change (num_kits Demo.two_link_kits) with 2.
      rewrite Htimes. right. now left.
Defined.

(* ================================================================== *)
(** * The selection of a kit *)

(** A loop that gives up has placed the files before some file of the
    selection, and the placement of that file raised. *)
Lemma place_files_false sym kit_dir selected : forall i w w',
  place_files sym kit_dir i selected w = (Returned false, w') ->
  exists pre f post e wa,
    selected = pre ++ f :: post /\
    place_files sym kit_dir i pre w = (Returned true, wa) /\
    place sym f (dest_path_of kit_dir (i + List.length pre) f) wa = (Raised e, wa) /\
    w' = say [error_line sym f e] wa.
Proof.
  induction selected as [|f rest IH]; intros i w w' H; [discriminate|].
  rewrite place_files_cons in H.
  destruct (place sym f (dest_path_of kit_dir i f) w) as [[[]|e] w1] eqn:Hp.
  - apply IH in H. destruct H as (pre & g & post & e & wa & -> & Hpre & Hg & ->).
    exists (f :: pre), g, post, e, wa. repeat split.
    + rewrite place_files_cons, Hp. exact Hpre.
    + cbn [List.length]. rewrite Nat.add_succ_r. exact Hg.
  - pose proof (place_frame _ _ _ _ _ _ Hp) as E. cbn in E. subst w1.
    injection H as <-. exists [], f, rest, e, w. rewrite Nat.add_0_r. now repeat split.
Qed.

(** C2. [create_drum_kit] draws min(len(files), max_files) files by
    random.sample: the selection has that many entries and, with the files
    left over, makes up the list, so that no entry of the list is drawn
    twice. A call that returns has drawn exactly this selection: the
    generator is left as the draw leaves it, the number of the selection
    is printed, the files placed are the selection from its first file
    on, all of it if and only if the call returns [True], and when it
    returns [False] the placement of the next file of the selection
    raised. In link mode, with the output directory in place and nothing
    where the kit directory goes, the call returns [True] and has placed
    the whole selection. *)
Theorem create_drum_kit_selection audio_files output_dir max_files use_symlinks w :
  audio_files <> [] -> (0 < max_files)%Z ->
  List.length (selected_of audio_files max_files w)
    = Nat.min (List.length audio_files) (Z.to_nat max_files) /\
  (exists rest, Permutation (selected_of audio_files max_files w ++ rest) audio_files) /\
  (NoDup audio_files -> NoDup (selected_of audio_files max_files w)) /\
  (exists w1,
     random.sample audio_files (num_files_of audio_files max_files) w
     = (Returned (selected_of audio_files max_files w), w1)) /\
  (forall w',
     create_drum_kit audio_files output_dir max_files use_symlinks w = (Returned true, w') ->
     exists mk evs,
       events w' = events w ++ mk ++ evs /\
       Forall (fun e => event_source e = None) mk /\
       map event_source evs = map Some (selected_of audio_files max_files w)) /\
  (forall b w',
     create_drum_kit audio_files output_dir max_files use_symlinks w = (Returned b, w') ->
     rng w' = snd (random.draw audio_files
                     (Nat.min (List.length audio_files) (Z.to_nat max_files)) (rng w)) /\
     (exists lines,
        stdout w' = stdout w
                      ++ start_lines use_symlinks (kit_name_at (reading w))
                           (num_files_of audio_files max_files)
                      ++ lines) /\
     (exists mk evs n,
        events w' = events w ++ mk ++ evs /\
        Forall (fun e => event_source e = None) mk /\
        map event_source evs = map Some (firstn n (selected_of audio_files max_files w)) /\
        (b = true <-> n = List.length (selected_of audio_files max_files w))) /\
     (b = false ->
      exists pre f post e wa,
        selected_of audio_files max_files w = pre ++ f :: post /\
        place use_symlinks f
          (dest_path_of (kit_dir_of output_dir w) (1 + List.length pre) f) wa
        = (Raised e, wa))) /\
  (use_symlinks = true -> os.isdir (fs w) output_dir = true ->
   untouched (kit_dir_of output_dir w) w ->
   exists w' mk evs,
     create_drum_kit audio_files output_dir max_files use_symlinks w = (Returned true, w') /\
     events w' = events w ++ mk ++ evs /\
     map event_source evs = map Some (selected_of audio_files max_files w) /\
     List.length evs = Nat.min (List.length audio_files) (Z.to_nat max_files)).
Proof.
  intros Hne Hk.
  assert (Hk0 : (0 <= max_files)%Z) by lia.
  assert (Hnum : Z.to_nat (num_files_of audio_files max_files)
                 = Nat.min (List.length audio_files) (Z.to_nat max_files)).
  { unfold num_files_of. lia. }
  assert (Hle : Z.to_nat (num_files_of audio_files max_files) <= List.length audio_files) by lia.
  pose proof (selected_of_length audio_files max_files w Hk0) as Hlen.
  assert (Htrue : forall sym w',
             create_drum_kit audio_files output_dir max_files sym w = (Returned true, w') ->
             exists mk evs,
               events w' = events w ++ mk ++ evs /\
               Forall (fun e => event_source e = None) mk /\
               map event_source evs = map Some (selected_of audio_files max_files w)).
  { intros sym w' Hrun.
    pose proof (create_drum_kit_outcome audio_files output_dir max_files sym w Hne Hk0)
      as Hout.
    rewrite Hrun in Hout.
    destruct Hout as (_ & _ & _ & _ & _ & mk & evs & n & Hev & Hmk & Hsrc & _ & Hb).
    exists mk, evs. split; [exact Hev|]. split.
    + destruct Hmk as [-> | ->]; repeat constructor.
    + destruct Hb as [Hb _]. rewrite (Hb eq_refl) in Hsrc.
      now rewrite firstn_all in Hsrc. }
  split; [exact Hlen|]. split; [|split; [|split; [|split; [|split]]]].
  - unfold selected_of. destruct (draw_perm _ audio_files (rng w) Hle) as (_ & rest & Hperm).
    now exists rest.
  - unfold selected_of. now apply draw_NoDup.
  - rewrite sample_run.
    destruct (Z.ltb_spec (num_files_of audio_files max_files) 0);
      [unfold num_files_of in *; lia|].
    destruct (Z.ltb_spec (Z.of_nat (List.length audio_files)) (num_files_of audio_files max_files));
      [unfold num_files_of in *; lia|].
    eexists. reflexivity.
  - apply Htrue.
  - intros b w' Hrun.
    pose proof (create_drum_kit_outcome audio_files output_dir max_files use_symlinks w
                  Hne Hk0) as Hout.
    rewrite Hrun in Hout.
    destruct Hout as (_ & _ & _ & _ & _ & mk & evs & n & Hev & Hmk & Hsrc & _ & Hb).
    rewrite (create_drum_kit_run _ _ _ _ _ Hne) in Hrun.
    destruct (os.makedirs _ _) as [[[]|e] w1] eqn:Hmkd; [|discriminate].
    apply makedirs_ok in Hmkd.
    destruct Hmkd as (_ & _ & _ & _ & _ & Hrng1 & Hout1 & _).
    cbn [rng stdout set_clock] in Hrng1, Hout1.
    destruct (Z.ltb_spec max_files 0) as [|_]; [lia|].
    destruct (place_files use_symlinks (kit_dir_of output_dir w) 1
                (selected_of audio_files max_files w)
                (loop_start audio_files max_files use_symlinks (kit_name_at (reading w)) w1))
      as [[b3|e] w3] eqn:Hloop.
    2:{ destruct (place_files_total use_symlinks (kit_dir_of output_dir w)
                    (selected_of audio_files max_files w) 1
                    (loop_start audio_files max_files use_symlinks
                       (kit_name_at (reading w)) w1)) as (b4 & w4 & E).
        rewrite E in Hloop. discriminate. }
    pose proof (place_files_frame _ _ _ _ _ _ _ Hloop) as (_ & _ & _ & Hrng3 & _).
    pose proof (place_files_lines _ _ _ _ _ _ _ Hloop) as (lines3 & Hout3 & _).
    cbn [rng stdout loop_start say set_stdout set_rng] in Hrng3, Hout3.
    rewrite Hrng1, Hnum in Hrng3. rewrite Hout1 in Hout3.
    assert (Hw : rng w' = rng w3 /\ exists more, stdout w' = stdout w3 ++ more).
    { destruct b3; injection Hrun as <- <-.
      - split; [reflexivity|]. eexists. reflexivity.
      - split; [reflexivity|]. exists []. now rewrite app_nil_r. }
    destruct Hw as (Hrng & more & Hmore).
    split; [now rewrite Hrng|]. split; [|split].
    + exists (lines3 ++ more). rewrite Hmore, Hout3, <- !app_assoc. reflexivity.
    + exists mk, evs, n. split; [exact Hev|]. split; [|split; [exact Hsrc | exact Hb]].
      destruct Hmk as [-> | ->]; repeat constructor.
    + intros ->. destruct b3; [discriminate|].
      apply place_files_false in Hloop.
      destruct Hloop as (pre & f & post & e & wa & Hsel & _ & Hf & _).
      now exists pre, f, post, e, wa.
  - intros -> _ Hfree.
    destruct (link_kit_made audio_files output_dir max_files w Hne Hk0 Hfree)
      as (w' & Hrun & _).
    destruct (Htrue true w' Hrun) as (mk & evs & Hev & _ & Hsrc).
    exists w', mk, evs. split; [exact Hrun|]. split; [exact Hev|]. split; [exact Hsrc|].
    rewrite <- Hlen, <- (length_map event_source evs), Hsrc. apply length_map.
Qed.

Lemma create_drum_kit_selection_witness :
  List.length (selected_of Demo.discovered 2 Demo.w0)
    = Nat.min (List.length Demo.discovered) (Z.to_nat 2) /\
  (exists rest, Permutation (selected_of Demo.discovered 2 Demo.w0 ++ rest) Demo.discovered) /\
  (exists w' mk evs,
     create_drum_kit Demo.discovered "out" 2 true Demo.w0 = (Returned true, w') /\
     events w' = events Demo.w0 ++ mk ++ evs /\
     map event_source evs = map Some (selected_of Demo.discovered 2 Demo.w0) /\
     List.length evs = Nat.min (List.length Demo.discovered) (Z.to_nat 2)).
Proof.
  destruct (create_drum_kit_selection Demo.discovered "out" 2 true Demo.w0)
    as (Hlen & Hperm & _ & _ & _ & _ & Hmade).
  - discriminate.
  - reflexivity.
  - split; [exact Hlen|]. split; [exact Hperm|]. apply Hmade; [reflexivity | reflexivity |].
    intros s. split; vm_compute; reflexivity.
Defined.

(** The two branches of random.sample on one stream: over the pool of a
    short list a position drawn a second time gives the file moved there,
    over the set of positions of a long list it is drawn again. *)
Example sample_branches :
  random.setsize 2 = 21 /\ random.setsize 6 = 85 /\ random.setsize 100 = 1045 /\
  fst (random.draw ["a"; "b"; "c"; "d"] 2 [3; 3; 9]) = ["d"; "a"] /\
  fst (random.draw (firstn 30 Demo.hundred) 2 [3; 3; 9]) = ["lib/s3.wav"; "lib/s9.wav"].
Proof. repeat split; vm_compute; reflexivity. Qed.
